(** * Authorization core of the FastAPI SSO service

    A shallow embedding of [app/models], [app/crud], [app/services],
    [app/core/security.py] and [app/api/deps.py], and the properties of
    the credential codec, the permission aggregator, the principal
    resolvers, the access-control checks, the API-key lifecycle and the
    OAuth reconciliation.

    Conventions.
    - An instant is a whole number of microseconds since the epoch ([Z]),
      the resolution of a Python [datetime]; a [datetime] is an instant
      together with whether it carries a time zone (aware) or not (naive);
      a [timedelta] is a number of microseconds.  All reads of the clock
      made while one call is served ([datetime.utcnow()], the JWT
      library's own read, the database's [now()]) return the same instant
      [now].
    - A table is the list of its rows in storage order; [.first()] is the
      first row that passes the filter and [.all()] the rows that pass it.
    - Relationships are materialised: a row carries the rows it is related
      to ([lazy="selectin"]); a collection that is loaded again comes in
      the storage order of the related table.
    - [db.commit()] writes an object only when one of its attributes has a
      net change (the ORM emits no UPDATE otherwise), and [db.refresh(obj)]
      gives [obj] the state of its row; the mutation is applied to the
      store where the code makes it.
    - What the code relies on in the database engine without fixing it
      (the [datetime] a [DateTime(timezone=True)] column hands back, the
      comparison of an integer column with a string) is part of the
      store, see [Engine].
    - The rows of API keys carry all their columns.  For the other tables
      [created_at], [updated_at] and [token_expires_at], which no modelled
      function reads and no statement below mentions, are left out. *)

From stdpp Require Import gmap strings list.
From Stdlib Require Import ZArith.

Local Open Scope string_scope.
Local Open Scope list_scope.
Local Open Scope Z_scope.

(** ** Exceptions and results *)

(** The [detail] of an [HTTPException]: a literal, or an f-string made of
    a literal followed by a formatted list of strings. *)
Inductive message :=
| Text (s : string)
| Format (s : string) (l : list string).

#[export] Instance message_eq_dec : EqDecision message.
Proof. solve_decision. Defined.

(** [fastapi.HTTPException] *)
Record HTTPException := mkHTTPException {
  status_code : Z;
  detail : message;
  headers : list (string * string)
}.

#[export] Instance HTTPException_eq_dec : EqDecision HTTPException.
Proof. solve_decision. Defined.

(** [jose.JWTError] and its subclasses; a handler for [JWTError] catches
    every constructor. *)
Inductive JWTError :=
| JWTError_malformed
| JWTError_algorithm
| JWTError_signature
| ExpiredSignatureError
| JWTClaimsError.

#[export] Instance JWTError_eq_dec : EqDecision JWTError.
Proof. solve_decision. Defined.

(** The exceptions the modelled code meets.  [Exc_DBAPIError] stands for
    [sqlalchemy.exc.DBAPIError] and its subclasses ([DataError],
    [ProgrammingError]); none of the Python built-ins below is a
    [JWTError] or an [HTTPException]. *)
Inductive exn :=
| Exc_HTTP (e : HTTPException)
| Exc_JWT (e : JWTError)
| Exc_TypeError
| Exc_ValueError
| Exc_OverflowError
| Exc_ValidationError
| Exc_DBAPIError.

#[export] Instance exn_eq_dec : EqDecision exn.
Proof. solve_decision. Defined.

Inductive result (A : Type) :=
| Ok (a : A)
| Raise (e : exn).
Arguments Ok {A} a.
Arguments Raise {A} e.

(** Sequencing of pure computations that may raise. *)
Definition and_then {A B} (r : result A) (k : A -> result B) : result B :=
  match r with
  | Ok a => k a
  | Raise e => Raise e
  end.

Notation "'let?' x ':=' r 'in' k" := (and_then r (fun x => k))
  (at level 10, x name, r at level 100, k at level 200).

Definition HTTP_401_UNAUTHORIZED : Z := 401.
Definition HTTP_403_FORBIDDEN : Z := 403.
Definition HTTP_404_NOT_FOUND : Z := 404.

(** ** Time *)

(** One second, in microseconds. *)
Definition second : Z := 1000000.

(** A Python [datetime]: its instant, and whether [tzinfo] is set. *)
Record datetime := mkDatetime {
  dt_instant : Z;
  dt_aware : bool
}.

#[export] Instance datetime_eq_dec : EqDecision datetime.
Proof. solve_decision. Defined.

(** [datetime.utcnow()]: the current instant, naive. *)
Definition utcnow (now : Z) : datetime :=
  {| dt_instant := now; dt_aware := false |}.

(** [a < b]: Python refuses to order a naive and an aware [datetime]
    ("can't compare offset-naive and offset-aware datetimes"). *)
Definition datetime_lt (a b : datetime) : result bool :=
  if negb (Bool.eqb (dt_aware a) (dt_aware b)) then Raise Exc_TypeError
  else Ok (dt_instant a <? dt_instant b).

(** [datetime.min] (0001-01-01 00:00:00) and [datetime.max]
    (9999-12-31 23:59:59.999999). *)
Definition datetime_min : Z := -62135596800 * second.
Definition datetime_max : Z := 253402300800 * second - 1.

(** [d + delta]: "date value out of range" outside these bounds. *)
Definition datetime_add (d : datetime) (delta : Z) : result datetime :=
  let t := dt_instant d + delta in
  if (datetime_min <=? t) && (t <=? datetime_max) then
    Ok {| dt_instant := t; dt_aware := dt_aware d |}
  else Raise Exc_OverflowError.

(** [timedelta.min] (-999999999 days) and [timedelta.max] (one
    microsecond short of 1000000000 days). *)
Definition timedelta_min : Z := -999999999 * (86400 * second).
Definition timedelta_max : Z := 1000000000 * (86400 * second) - 1.

(** [timedelta(minutes=m)] *)
Definition timedelta_minutes (m : Z) : result Z :=
  let d := m * (60 * second) in
  if (timedelta_min <=? d) && (d <=? timedelta_max) then Ok d
  else Raise Exc_OverflowError.

(** [calendar.timegm(d.utctimetuple())]: whole seconds since the epoch,
    the form in which a token carries an instant. *)
Definition timegm (d : datetime) : Z := dt_instant d / second.

(** ** app/models *)

Module Models.

(** [app/models/permission.py] *)
Record Permission := mkPermission {
  perm_id : Z;
  perm_name : string;
  perm_description : option string;
  perm_resource : option string;
  perm_action : option string
}.

#[export] Instance Permission_eq_dec : EqDecision Permission.
Proof. solve_decision. Defined.

#[export] Instance Permission_countable : Countable Permission.
Proof.
  refine (inj_countable'
    (fun p => (perm_id p, perm_name p, perm_description p,
               perm_resource p, perm_action p))
    (fun t => match t with (i, n, d, r, a) => mkPermission i n d r a end) _).
  by intros [].
Defined.

(** [app/models/role.py] *)
Record Role := mkRole {
  role_id : Z;
  role_name : string;
  role_description : option string;
  role_permissions : list Permission
}.

#[export] Instance Role_eq_dec : EqDecision Role.
Proof. solve_decision. Defined.

(** [app/models/user.py] *)
Record User := mkUser {
  user_id : Z;
  user_email : string;
  user_full_name : option string;
  user_avatar_url : option string;
  user_is_active : bool;
  user_is_superuser : bool;
  user_roles : list Role
}.

#[export] Instance User_eq_dec : EqDecision User.
Proof. solve_decision. Defined.

(** [app/models/api_key.py]; [key_user_id] is the nullable foreign key,
    [key_created_at] is filled by the database when the row is inserted
    and [key_updated_at] by every UPDATE of the row
    ([onupdate=func.now()]). *)
Record APIKey := mkAPIKey {
  key_id : Z;
  key_user_id : option Z;
  key_key : string;
  key_name : string;
  key_description : option string;
  key_is_active : bool;
  key_expires_at : option datetime;
  key_last_used_at : option datetime;
  key_created_at : datetime;
  key_updated_at : option datetime;
  key_roles : list Role;
  key_permissions : list Permission
}.

#[export] Instance APIKey_eq_dec : EqDecision APIKey.
Proof. solve_decision. Defined.

(** [app/models/oauth.py] *)
Record OAuthAccount := mkOAuthAccount {
  oa_id : Z;
  oa_user_id : Z;
  oa_provider : string;
  oa_provider_user_id : string;
  oa_access_token : option string;
  oa_refresh_token : option string;
  oa_provider_data : option (list (string * string))
}.

#[export] Instance OAuthAccount_eq_dec : EqDecision OAuthAccount.
Proof. solve_decision. Defined.

(** [User.permissions]: the loop extends [perms] with each role's
    permissions; [set(perms)] drops the duplicates.  The order of
    [list(set(perms))] is not fixed by Python, so the value is the set. *)
Definition User_permissions (self : User) : gset Permission :=
  let perms := foldl (fun perms role => perms ++ role_permissions role)
                     [] (user_roles self) in
  list_to_set perms.

(** [APIKey.all_permissions]: starts from the direct grants. *)
Definition APIKey_all_permissions (self : APIKey) : gset Permission :=
  let perms := foldl (fun perms role => perms ++ role_permissions role)
                     (key_permissions self) (key_roles self) in
  list_to_set perms.

End Models.
Export Models.

(** ** The store *)

(** The behaviour of the database engine behind the session, where the
    code depends on it.
    - [timestamptz d]: the [datetime] a [DateTime(timezone=True)] column
      hands back once [d] has been written to it.  PostgreSQL, the
      configured [DATABASE_URL], hands back an aware [datetime]; SQLite a
      naive one.
    - [integer_eq_text s]: how [column == s] reads the Python string [s]
      when the column is an integer: [Ok (Some n)] when the engine takes
      [s] for the integer [n] (PostgreSQL and SQLite both do for a decimal
      numeral, so the rows that compare equal are those holding [n]),
      [Ok None] when it compares equal to no integer, [Raise e] when the
      statement fails (PostgreSQL: [DataError] for a string that is no
      integer).
    - [func_now now]: the value of the SQL function [now()] at the instant
      [now], as such a column hands it back; it fills [created_at]
      ([server_default=func.now()]) and [updated_at]
      ([onupdate=func.now()]). *)
Record Engine := mkEngine {
  timestamptz : datetime -> datetime;
  integer_eq_text : string -> result (option Z);
  func_now : Z -> datetime
}.

Record DB := mkDB {
  db_engine : Engine;
  tbl_users : list User;
  tbl_roles : list Role;
  tbl_permissions : list Permission;
  tbl_api_keys : list APIKey;
  tbl_oauth_accounts : list OAuthAccount
}.

(** Code that reads and writes the store and may raise: the store left
    behind is returned with the result, also when the call raises (what
    was committed before the exception stays committed). *)
Definition M (A : Type) : Type := DB -> result A * DB.

Definition ret {A} (a : A) : M A := fun db => (Ok a, db).
Definition raise {A} (e : exn) : M A := fun db => (Raise e, db).
Definition bind {A B} (m : M A) (k : A -> M B) : M B :=
  fun db => match m db with
            | (Ok a, db') => k a db'
            | (Raise e, db') => (Raise e, db')
            end.
(** A call that cannot raise. *)
Definition total {A} (f : DB -> A * DB) : M A :=
  fun db => let '(a, db') := f db in (Ok a, db').
(** A query: reads the store and cannot raise. *)
Definition query {A} (f : DB -> A) : M A := fun db => (Ok (f db), db).
(** A query the engine may refuse: reads the store and may raise. *)
Definition attempt {A} (f : DB -> result A) : M A := fun db => (f db, db).
(** A pure computation that may raise. *)
Definition lift {A} (r : result A) : M A := fun db => (r, db).

Notation "'let*' x ':=' m 'in' k" := (bind m (fun x => k))
  (at level 10, x name, m at level 100, k at level 200).

(** ** Python truthiness of the values the code tests with [if] *)

(** [Optional[str]]: [None] and the empty string are false. *)
Definition truthy_str (s : option string) : bool :=
  match s with
  | Some s => negb (String.eqb s "")
  | None => false
  end.

(** [Optional[int]]: [None] and [0] are false. *)
Definition truthy_int (n : option Z) : bool :=
  match n with
  | Some n => negb (n =? 0)
  | None => false
  end.

(** [Optional[timedelta]]: [None] and [timedelta(0)] are false. *)
Definition truthy_timedelta (d : option Z) : bool :=
  match d with
  | Some d => negb (d =? 0)
  | None => false
  end.

(** [Optional[Dict]]: [None] and the empty dict are false. *)
Definition truthy_dict {A} (d : option (list A)) : bool :=
  match d with
  | Some (_ :: _) => true
  | _ => false
  end.

(** [Optional[List[int]]]: [None] and the empty list are false. *)
Definition truthy_list {A} (l : option (list A)) : bool :=
  match l with
  | Some (_ :: _) => true
  | _ => false
  end.

(** ** app/core/config.py *)

Record Settings := mkSettings {
  SECRET_KEY : string;
  ALGORITHM : string;
  ACCESS_TOKEN_EXPIRE_MINUTES : Z
}.

(** The values [Settings()] has when the environment overrides none. *)
Definition default_settings : Settings :=
  {| SECRET_KEY := "your-secret-key-change-in-production";
     ALGORITHM := "HS256";
     ACCESS_TOKEN_EXPIRE_MINUTES := 30 |}.

(** ** Token claims *)

(** The JSON values the claims of this service take, and [null]. *)
Inductive jvalue :=
| JNull
| JInt (n : Z)
| JStr (s : string)
| JList (l : list string).

#[export] Instance jvalue_eq_dec : EqDecision jvalue.
Proof. solve_decision. Defined.

(** A claims dictionary: a Python [dict] with string keys. *)
Abbreviation claims := (gmap string jvalue).

(** A bearer token as the JWT library reads it: either a string that is
    not a well-formed compact JWS, or a header algorithm, a claims set and
    a signature. *)
Inductive token :=
| Garbage (s : string)
| Compact (alg : string) (payload : claims) (signature : string).

(** The claims a token carries (none for a string that is no token). *)
Definition claims_of (tok : token) : claims :=
  match tok with
  | Compact _ payload _ => payload
  | Garbage _ => ∅
  end.

(** ** app/crud *)

Module CRUD.

(** The next value of an autoincrement primary key: larger than every id
    in the table. *)
Definition next_id (ids : list Z) : Z := 1 + foldr Z.max 0 ids.

(** A [datetime] as the store's [DateTime(timezone=True)] columns hand it
    back. *)
Definition stored (db : DB) (d : datetime) : datetime :=
  timestamptz (db_engine db) d.

(** The database's clock, [func.now()], as the columns hand it back. *)
Definition db_now (db : DB) (now : Z) : datetime :=
  func_now (db_engine db) now.

(** Flushing a mutated object: the row with the object's primary key
    takes the object's state. *)
Definition save_api_key (k : APIKey) (db : DB) : DB :=
  {| db_engine := db_engine db;
     tbl_users := tbl_users db;
     tbl_roles := tbl_roles db;
     tbl_permissions := tbl_permissions db;
     tbl_api_keys :=
       map (fun r => if bool_decide (key_id r = key_id k) then k else r)
           (tbl_api_keys db);
     tbl_oauth_accounts := tbl_oauth_accounts db |}.

Definition save_user (u : User) (db : DB) : DB :=
  {| db_engine := db_engine db;
     tbl_users :=
       map (fun r => if bool_decide (user_id r = user_id u) then u else r)
           (tbl_users db);
     tbl_roles := tbl_roles db;
     tbl_permissions := tbl_permissions db;
     tbl_api_keys := tbl_api_keys db;
     tbl_oauth_accounts := tbl_oauth_accounts db |}.

Definition save_oauth_account (a : OAuthAccount) (db : DB) : DB :=
  {| db_engine := db_engine db;
     tbl_users := tbl_users db;
     tbl_roles := tbl_roles db;
     tbl_permissions := tbl_permissions db;
     tbl_api_keys := tbl_api_keys db;
     tbl_oauth_accounts :=
       map (fun r => if bool_decide (oa_id r = oa_id a) then a else r)
           (tbl_oauth_accounts db) |}.

(** Modelled from the spec: [app/crud/base.py] ([CRUDBase.get] and
    [CRUDBase.remove], inherited by [CRUDAPIKey]) is not among the source
    files.  The spec has the store offer a "keyed lookup" of an API Key
    "by id". *)
Definition get (db : DB) (id : Z) : option APIKey :=
  List.find (fun k => bool_decide (key_id k = id)) (tbl_api_keys db).

(** Modelled from the spec: [CRUDBase.remove] of the absent
    [app/crud/base.py]; "hard delete", the record of that id is removed. *)
Definition remove (id : Z) (db : DB) : DB :=
  {| db_engine := db_engine db;
     tbl_users := tbl_users db;
     tbl_roles := tbl_roles db;
     tbl_permissions := tbl_permissions db;
     tbl_api_keys :=
       List.filter (fun k => negb (bool_decide (key_id k = id)))
                   (tbl_api_keys db);
     tbl_oauth_accounts := tbl_oauth_accounts db |}.

(** *** app/crud/api_key.py *)

Definition get_by_key (db : DB) (key : string) : option APIKey :=
  List.find (fun k => bool_decide (key_key k = key)) (tbl_api_keys db).

(** [APIKey.user_id == user_id]: a null owner equals no caller. *)
Definition get_by_user (db : DB) (user_id : Z) : list APIKey :=
  List.filter (fun k => bool_decide (key_user_id k = Some user_id))
              (tbl_api_keys db).

Definition with_last_used_at (k : APIKey) (t : option datetime) : APIKey :=
  {| key_id := key_id k; key_user_id := key_user_id k; key_key := key_key k;
     key_name := key_name k; key_description := key_description k;
     key_is_active := key_is_active k; key_expires_at := key_expires_at k;
     key_last_used_at := t;
     key_created_at := key_created_at k; key_updated_at := key_updated_at k;
     key_roles := key_roles k; key_permissions := key_permissions k |}.

Definition with_is_active (k : APIKey) (b : bool) : APIKey :=
  {| key_id := key_id k; key_user_id := key_user_id k; key_key := key_key k;
     key_name := key_name k; key_description := key_description k;
     key_is_active := b; key_expires_at := key_expires_at k;
     key_last_used_at := key_last_used_at k;
     key_created_at := key_created_at k; key_updated_at := key_updated_at k;
     key_roles := key_roles k; key_permissions := key_permissions k |}.

Definition with_updated_at (k : APIKey) (t : option datetime) : APIKey :=
  {| key_id := key_id k; key_user_id := key_user_id k; key_key := key_key k;
     key_name := key_name k; key_description := key_description k;
     key_is_active := key_is_active k; key_expires_at := key_expires_at k;
     key_last_used_at := key_last_used_at k;
     key_created_at := key_created_at k; key_updated_at := t;
     key_roles := key_roles k; key_permissions := key_permissions k |}.

(** [db.commit(); db.refresh(api_key)] for an object with a changed
    attribute: the UPDATE writes the row and, through
    [onupdate=func.now()], rewrites [updated_at] with the database's
    clock; the refreshed object is the row. *)
Definition commit_update (api_key : APIKey) (now : Z) (db : DB)
  : APIKey * DB :=
  let api_key := with_updated_at api_key (Some (db_now db now)) in
  (api_key, save_api_key api_key db).

(** [update_last_used]: the new value is a naive [datetime]; it is a net
    change unless the attribute already equals it (an aware [datetime]
    never equals a naive one), and it comes back from the refresh as the
    column hands it back. *)
Definition update_last_used (api_key : APIKey) (now : Z) (db : DB)
  : APIKey * DB :=
  let value := utcnow now in
  if bool_decide (key_last_used_at api_key = Some value) then (api_key, db)
  else commit_update (with_last_used_at api_key (Some (stored db value)))
                     now db.

Definition deactivate (api_key : APIKey) (now : Z) (db : DB) : APIKey * DB :=
  if bool_decide (key_is_active api_key = false) then (api_key, db)
  else commit_update (with_is_active api_key false) now db.

Definition activate (api_key : APIKey) (now : Z) (db : DB) : APIKey * DB :=
  if bool_decide (key_is_active api_key = true) then (api_key, db)
  else commit_update (with_is_active api_key true) now db.

(** [is_valid]: a [datetime] is always true in a condition, so
    [api_key.expires_at and ...] tests for [None] only; the comparison
    with the naive [datetime.utcnow()] raises for an aware [expires_at]. *)
Definition is_valid (api_key : APIKey) (now : Z) : result bool :=
  if negb (key_is_active api_key) then Ok false
  else
    let? expired :=
      match key_expires_at api_key with
      | Some expires_at => datetime_lt expires_at (utcnow now)
      | None => Ok false
      end in
    if expired then Ok false
    else Ok true.

(** *** app/crud/user.py *)

Definition get_by_email (db : DB) (email : string) : option User :=
  List.find (fun u => bool_decide (user_email u = email)) (tbl_users db).

(** [create_with_role]: the columns left out take their defaults
    ([avatar_url] null, [is_superuser] false); the role is appended only
    when a role of that name exists. *)
Definition create_with_role (email : string) (full_name : option string)
    (role_name : string) (db : DB) : User * DB :=
  let role := List.find (fun r => bool_decide (Models.role_name r = role_name))
                        (tbl_roles db) in
  let db_obj :=
    {| user_id := next_id (map user_id (tbl_users db));
       user_email := email;
       user_full_name := full_name;
       user_avatar_url := None;
       user_is_active := true;
       user_is_superuser := false;
       user_roles := match role with Some role => [role] | None => [] end |} in
  (db_obj,
   {| db_engine := db_engine db;
      tbl_users := tbl_users db ++ [db_obj];
      tbl_roles := tbl_roles db;
      tbl_permissions := tbl_permissions db;
      tbl_api_keys := tbl_api_keys db;
      tbl_oauth_accounts := tbl_oauth_accounts db |}).

End CRUD.

(** ** The service, over the parts that live outside the repository *)

Section Core.

(** The JWT library's signature of a claims set under an algorithm and a
    key (python-jose, HMAC for the configured [HS256]). *)
Variable sign : string -> string -> claims -> string.

(** Python's [int(s)] for a string [s]: the integer it denotes, or [None]
    when it raises [ValueError]. *)
Variable int_of_str : string -> option Z.

(** pydantic's [EmailStr], met when [UserCreate] is built: the validated
    address in the validator's normal form, or [None] when the string is
    rejected. *)
Variable EmailStr : string -> option string.

(** [app.core.config.settings], fixed when the process starts. *)
Variable settings : Settings.

(** *** The JWT library (python-jose) *)

(** [int(v)] for a claim value: a string goes through [int_of_str];
    [None] and a list raise [TypeError]. *)
Definition py_int (v : jvalue) : result Z :=
  match v with
  | JInt n => Ok n
  | JStr s =>
      match int_of_str s with
      | Some n => Ok n
      | None => Raise Exc_ValueError
      end
  | JNull | JList _ => Raise Exc_TypeError
  end.

(** [try: int(v) except ValueError: raise JWTClaimsError(...)], the
    library's reading of a time claim; a [TypeError] is not handled. *)
Definition time_claim (v : jvalue) : result Z :=
  match py_int v with
  | Raise Exc_ValueError => Raise (Exc_JWT JWTClaimsError)
  | r => r
  end.

(** The checks of the registered claims, each skipped when its claim is
    absent; [now] is the library's clock in whole seconds.  The service
    passes no audience, issuer, subject or access token. *)
Definition validate_iat (payload : claims) : result unit :=
  match payload !! "iat" with
  | None => Ok tt
  | Some v => let? _ := time_claim v in Ok tt
  end.

Definition validate_nbf (payload : claims) (now : Z) : result unit :=
  match payload !! "nbf" with
  | None => Ok tt
  | Some v =>
      let? nbf := time_claim v in
      if now <? nbf then Raise (Exc_JWT JWTClaimsError) else Ok tt
  end.

Definition validate_exp (payload : claims) (now : Z) : result unit :=
  match payload !! "exp" with
  | None => Ok tt
  | Some v =>
      let? exp := time_claim v in
      if exp <? now then Raise (Exc_JWT ExpiredSignatureError) else Ok tt
  end.

(** With no audience given, a token that names one is refused. *)
Definition validate_aud (payload : claims) : result unit :=
  match payload !! "aud" with
  | None => Ok tt
  | Some _ => Raise (Exc_JWT JWTClaimsError)
  end.

(** "Subject must be a string." *)
Definition validate_sub (payload : claims) : result unit :=
  match payload !! "sub" with
  | None | Some (JStr _) => Ok tt
  | Some _ => Raise (Exc_JWT JWTClaimsError)
  end.

(** "JWT ID must be a string." *)
Definition validate_jti (payload : claims) : result unit :=
  match payload !! "jti" with
  | None | Some (JStr _) => Ok tt
  | Some _ => Raise (Exc_JWT JWTClaimsError)
  end.

(** With no access token given, a token that carries [at_hash] is
    refused. *)
Definition validate_at_hash (payload : claims) : result unit :=
  match payload !! "at_hash" with
  | None => Ok tt
  | Some _ => Raise (Exc_JWT JWTClaimsError)
  end.

(** The library runs the checks in this order ([iss] is checked only
    against a given issuer). *)
Definition validate_claims (payload : claims) (now : Z) : result unit :=
  let? _ := validate_iat payload in
  let? _ := validate_nbf payload now in
  let? _ := validate_exp payload now in
  let? _ := validate_aud payload in
  let? _ := validate_sub payload in
  let? _ := validate_jti payload in
  validate_at_hash payload.

(** [jwt.encode(claims, key, algorithm)] *)
Definition jwt_encode (payload : claims) (key algorithm : string) : token :=
  Compact algorithm payload (sign algorithm key payload).

(** [jwt.decode(token, key, algorithms)] at instant [now]: the header
    algorithm must be one of [algorithms], the signature must be the one
    [key] gives, and the registered claims must pass their checks. *)
Definition jwt_decode (tok : token) (key : string) (algorithms : list string)
    (now : Z) : result claims :=
  match tok with
  | Garbage _ => Raise (Exc_JWT JWTError_malformed)
  | Compact alg payload signature =>
      if negb (bool_decide (alg ∈ algorithms)) then
        Raise (Exc_JWT JWTError_algorithm)
      else if negb (String.eqb signature (sign alg key payload)) then
        Raise (Exc_JWT JWTError_signature)
      else
        let? _ := validate_claims payload (timegm (utcnow now)) in
        Ok payload
  end.

(** *** app/core/security.py *)

(** [create_access_token]: [data.copy()] is the dictionary itself (maps
    are values); the two [datetime]s put under [exp] and [iat] are the
    whole seconds the library serialises them to. *)
Definition create_access_token (data : claims) (expires_delta : option Z)
    (now : Z) : result token :=
  let to_encode := data in
  let? expire :=
    if truthy_timedelta expires_delta then
      datetime_add (utcnow now) (default 0 expires_delta)
    else
      let? minutes :=
        timedelta_minutes (ACCESS_TOKEN_EXPIRE_MINUTES settings) in
      datetime_add (utcnow now) minutes in
  let to_encode :=
    <["iat" := JInt (timegm (utcnow now))]>
      (<["exp" := JInt (timegm expire)]> to_encode) in
  let encoded_jwt :=
    jwt_encode to_encode (SECRET_KEY settings) (ALGORITHM settings) in
  Ok encoded_jwt.

Definition decode_access_token (tok : token) (now : Z) : result claims :=
  let payload :=
    jwt_decode tok (SECRET_KEY settings) [ALGORITHM settings] now in
  payload.

(** [verify_token_payload]: [key in payload] for every required key. *)
Definition verify_token_payload (payload : claims)
    (required_keys : list string) : bool :=
  forallb (fun key => bool_decide (is_Some (payload !! key))) required_keys.

(** *** app/services/auth_service.py *)

(** The permission names [create_user_token] collects: the two nested
    loops add every permission name of every role to a set. *)
Definition token_permissions (user : User) : gset string :=
  foldl (fun permissions role =>
           foldl (fun permissions perm => permissions ∪ {[perm_name perm]})
                 permissions (role_permissions role))
        ∅ (user_roles user).

(** [create_user_token]: [sub] is [user.id], an integer. *)
Definition AuthService_create_user_token (user : User) (now : Z)
  : result token :=
  let permissions := token_permissions user in
  let token_data : claims :=
    <["permissions" := JList (elements permissions)]>
      (<["roles" := JList (map role_name (user_roles user))]>
         (<["email" := JStr (user_email user)]>
            (<["sub" := JInt (user_id user)]> ∅))) in
  let? expires_delta :=
    timedelta_minutes (ACCESS_TOKEN_EXPIRE_MINUTES settings) in
  let access_token :=
    create_access_token token_data (Some expires_delta) now in
  access_token.

Definition AuthService_verify_user_active (user : User) : result unit :=
  if negb (user_is_active user) then
    Raise (Exc_HTTP {| status_code := HTTP_403_FORBIDDEN;
                       detail := Text "Inactive user";
                       headers := [] |})
  else Ok tt.

(** [email.split("@")[0]] *)
Fixpoint before_at (email : string) : string :=
  match email with
  | EmptyString => EmptyString
  | String c rest =>
      (* the character "@" *)
      if Ascii.eqb c (Ascii.ascii_of_nat 64) then EmptyString
      else String c (before_at rest)
  end.

Definition with_avatar_url (u : User) (avatar_url : option string) : User :=
  {| user_id := user_id u; user_email := user_email u;
     user_full_name := user_full_name u; user_avatar_url := avatar_url;
     user_is_active := user_is_active u;
     user_is_superuser := user_is_superuser u; user_roles := user_roles u |}.

Definition add_oauth_account (a : OAuthAccount) (db : DB) : DB :=
  {| db_engine := db_engine db;
     tbl_users := tbl_users db;
     tbl_roles := tbl_roles db;
     tbl_permissions := tbl_permissions db;
     tbl_api_keys := tbl_api_keys db;
     tbl_oauth_accounts := tbl_oauth_accounts db ++ [a] |}.

(** [db.query(OAuthAccount).filter(OAuthAccount.user_id == user_id,
    OAuthAccount.provider == provider).first()] *)
Definition oauth_account_for (db : DB) (user_id : Z) (provider : string)
  : option OAuthAccount :=
  List.find (fun a => bool_decide (oa_user_id a = user_id)
                      && bool_decide (oa_provider a = provider))
            (tbl_oauth_accounts db).

Definition AuthService_create_or_get_user_from_oauth
    (provider email : string) (full_name avatar_url : option string)
    (provider_user_id access_token : string) (refresh_token : option string)
    (provider_data : option (list (string * string))) : M User :=
  (* Check if user exists by email *)
  let* user := query (fun db => CRUD.get_by_email db email) in
  let* user :=
    match user with
    | Some user => ret user
    | None =>
        (* Create new user with default 'user' role *)
        let full_name :=
          if truthy_str full_name then full_name
          else Some (before_at email) in
        match EmailStr email with
        | None => raise Exc_ValidationError
        | Some obj_in_email =>
            let* user :=
              total (CRUD.create_with_role obj_in_email full_name "user") in
            let user := with_avatar_url user avatar_url in
            let* _ := total (fun db => (tt, CRUD.save_user user db)) in
            ret user
        end
    end in
  (* Check if OAuth account exists for this user and provider *)
  let* oauth_account :=
    query (fun db => oauth_account_for db (user_id user) provider) in
  let* _ :=
    match oauth_account with
    | None =>
        (* Create OAuth account link *)
        total (fun db =>
          let oauth_account :=
            {| oa_id := CRUD.next_id (map oa_id (tbl_oauth_accounts db));
               oa_user_id := user_id user;
               oa_provider := provider;
               oa_provider_user_id := provider_user_id;
               oa_access_token := Some access_token;
               oa_refresh_token := refresh_token;
               oa_provider_data := provider_data |} in
          (tt, add_oauth_account oauth_account db))
    | Some oauth_account =>
        (* Update existing OAuth account *)
        let oauth_account :=
          {| oa_id := oa_id oauth_account;
             oa_user_id := oa_user_id oauth_account;
             oa_provider := oa_provider oauth_account;
             oa_provider_user_id := oa_provider_user_id oauth_account;
             oa_access_token := Some access_token;
             oa_refresh_token :=
               if truthy_str refresh_token then refresh_token
               else oa_refresh_token oauth_account;
             oa_provider_data :=
               if truthy_dict provider_data then provider_data
               else oa_provider_data oauth_account |} in
        total (fun db => (tt, CRUD.save_oauth_account oauth_account db))
    end in
  ret user.

(** *** app/services/api_key_service.py *)

Definition api_key_not_found : exn :=
  Exc_HTTP {| status_code := HTTP_404_NOT_FOUND;
              detail := Text "API key not found";
              headers := [] |}.

Definition APIKeyService_get_user_api_keys (user_id : Z) : M (list APIKey) :=
  query (fun db => CRUD.get_by_user db user_id).

Definition APIKeyService_get_api_key (api_key_id user_id : Z) : M APIKey :=
  let* api_key := query (fun db => CRUD.get db api_key_id) in
  match api_key with
  | None => raise api_key_not_found
  | Some api_key =>
      if bool_decide (key_user_id api_key ≠ Some user_id) then
        raise api_key_not_found
      else ret api_key
  end.

Definition APIKeyService_delete_api_key (api_key_id user_id : Z) : M unit :=
  let* api_key := query (fun db => CRUD.get db api_key_id) in
  match api_key with
  | None => raise api_key_not_found
  | Some api_key =>
      if bool_decide (key_user_id api_key ≠ Some user_id) then
        raise api_key_not_found
      else total (fun db => (tt, CRUD.remove api_key_id db))
  end.

Definition APIKeyService_toggle_api_key (api_key_id user_id : Z)
    (activate : bool) (now : Z) : M APIKey :=
  let* api_key := query (fun db => CRUD.get db api_key_id) in
  match api_key with
  | None => raise api_key_not_found
  | Some api_key =>
      if bool_decide (key_user_id api_key ≠ Some user_id) then
        raise api_key_not_found
      else if activate then total (CRUD.activate api_key now)
      else total (CRUD.deactivate api_key now)
  end.

Definition APIKeyService_validate_api_key (key : string) (now : Z)
  : M (option APIKey) :=
  let* api_key := query (fun db => CRUD.get_by_key db key) in
  match api_key with
  | None => ret None
  | Some api_key =>
      let* valid := lift (CRUD.is_valid api_key now) in
      if negb valid then ret None
      else
        (* Update last used timestamp *)
        let* api_key := total (CRUD.update_last_used api_key now) in
        ret (Some api_key)
  end.

(** *** app/api/deps.py *)

Definition is_JWTError (e : exn) : bool :=
  match e with Exc_JWT _ => true | _ => false end.

Definition is_HTTPException (e : exn) : bool :=
  match e with Exc_HTTP _ => true | _ => false end.

(** [try: body except (classes): handler] *)
Definition try_except {A} (body : M A) (classes : exn -> bool)
    (handler : M A) : M A :=
  fun db => match body db with
            | (Ok a, db') => (Ok a, db')
            | (Raise e, db') =>
                if classes e then handler db' else (Raise e, db')
            end.

Definition user_by_id (db : DB) (user_id : Z) : option User :=
  List.find (fun u => bool_decide (Models.user_id u = user_id)) (tbl_users db).

(** [db.query(User).filter(User.id == user_id).first()], where [user_id]
    is the value found under [sub]: an integer is compared as such, a
    string as the engine reads it, [None] gives [IS NULL], which no row
    of a primary key meets, and a list is no value the driver can
    compare with an integer. *)
Definition user_by_claim (db : DB) (user_id : jvalue) : result (option User) :=
  match user_id with
  | JInt n => Ok (user_by_id db n)
  | JStr s =>
      let? n := integer_eq_text (db_engine db) s in
      match n with
      | Some n => Ok (user_by_id db n)
      | None => Ok None
      end
  | JNull => Ok None
  | JList _ => Raise Exc_DBAPIError
  end.

Definition get_current_user_from_jwt (credentials : option token) (now : Z)
  : M (option User) :=
  match credentials with
  | None => ret None
  | Some tok =>
      try_except
        (let* payload := lift (decode_access_token tok now) in
         let user_id := payload !! "sub" in
         match user_id with
         | None | Some JNull => ret None
         | Some user_id =>
             let* user := attempt (fun db => user_by_claim db user_id) in
             match user with
             | Some u =>
                 let* _ := lift (AuthService_verify_user_active u) in
                 ret (Some u)
             | None => ret None
             end
         end)
        (fun e => is_JWTError e || is_HTTPException e)
        (ret None)
  end.

Definition get_current_user_from_apikey (api_key : option string) (now : Z)
  : M (option User) :=
  if negb (truthy_str api_key) then ret None
  else
    let* api_key_obj :=
      APIKeyService_validate_api_key (default "" api_key) now in
    match api_key_obj with
    | None => ret None
    | Some api_key_obj =>
        if negb (truthy_int (key_user_id api_key_obj)) then ret None
        else
          let* user :=
            query (fun db =>
                     user_by_id db (default 0 (key_user_id api_key_obj))) in
          match user with
          | Some u =>
              let* _ := lift (AuthService_verify_user_active u) in
              ret (Some u)
          | None => ret None
          end
    end.

Definition get_current_user_jwt_required (credentials : option token)
    (now : Z) : M User :=
  match credentials with
  | None =>
      raise (Exc_HTTP {| status_code := HTTP_401_UNAUTHORIZED;
                         detail := Text "JWT token required";
                         headers := [("WWW-Authenticate", "Bearer")] |})
  | Some _ =>
      let* user := get_current_user_from_jwt credentials now in
      match user with
      | None =>
          raise (Exc_HTTP {| status_code := HTTP_401_UNAUTHORIZED;
                             detail := Text "Could not validate credentials";
                             headers := [("WWW-Authenticate", "Bearer")] |})
      | Some user => ret user
      end
  end.

Definition get_current_user_apikey_required (api_key : option string)
    (now : Z) : M User :=
  if negb (truthy_str api_key) then
    raise (Exc_HTTP {| status_code := HTTP_401_UNAUTHORIZED;
                       detail := Text "API key required";
                       headers := [("WWW-Authenticate", "ApiKey")] |})
  else
    let* user := get_current_user_from_apikey api_key now in
    match user with
    | None =>
        raise (Exc_HTTP {| status_code := HTTP_401_UNAUTHORIZED;
                           detail := Text "Invalid or expired API key";
                           headers := [] |})
    | Some user => ret user
    end.

Definition credential_required : exn :=
  Exc_HTTP {| status_code := HTTP_401_UNAUTHORIZED;
              detail := Text "Valid JWT token or API key required";
              headers := [] |}.

Definition get_current_user_either (credentials : option token)
    (api_key : option string) (now : Z) : M User :=
  (* Try API key first *)
  let* user :=
    if truthy_str api_key then get_current_user_from_apikey api_key now
    else ret None in
  match user with
  | Some user => ret user
  | None =>
      (* Try JWT *)
      let* user :=
        match credentials with
        | Some _ => get_current_user_from_jwt credentials now
        | None => ret None
        end in
      match user with
      | Some user => ret user
      | None => raise credential_required
      end
  end.

(** Iterating over a claim value, as [set.update(value)] does: a list
    gives its items, a string its characters, anything else is not
    iterable. *)
Definition iter_strings (v : jvalue) : result (list string) :=
  match v with
  | JList l => Ok l
  | JStr s =>
      Ok (map (fun c => String c EmptyString) (String.list_ascii_of_string s))
  | JInt _ | JNull => Raise Exc_TypeError
  end.

(** The body of [if api_key_obj:] in [permission_checker]: the direct
    permission names, then those of each role. *)
Definition key_permission_names (user_permissions : gset string)
    (api_key_obj : APIKey) : gset string :=
  let user_permissions :=
    user_permissions
      ∪ list_to_set (map perm_name (key_permissions api_key_obj)) in
  foldl (fun user_permissions role =>
           user_permissions
             ∪ list_to_set (map perm_name (role_permissions role)))
        user_permissions (key_roles api_key_obj).

(** [require_permissions(required_permissions)] returns this checker. *)
Definition permission_checker (required_permissions : list string)
    (credentials : option token) (api_key : option string) (now : Z)
  : M bool :=
  let user_permissions : gset string := ∅ in
  (* Check API key permissions *)
  let* user_permissions :=
    if truthy_str api_key then
      let* api_key_obj :=
        APIKeyService_validate_api_key (default "" api_key) now in
      match api_key_obj with
      | Some api_key_obj =>
          ret (key_permission_names user_permissions api_key_obj)
      | None => ret user_permissions
      end
    else ret user_permissions in
  (* Check JWT permissions *)
  let* user_permissions :=
    match credentials with
    | Some tok =>
        if bool_decide (user_permissions = ∅) then
          try_except
            (let* payload := lift (decode_access_token tok now) in
             let* items :=
               lift (iter_strings
                       (default (JList []) (payload !! "permissions"))) in
             ret (user_permissions ∪ list_to_set items))
            is_JWTError
            (ret user_permissions)
        else ret user_permissions
    | None => ret user_permissions
    end in
  (* Check if user has all required permissions *)
  if negb (forallb (fun perm => bool_decide (perm ∈ user_permissions))
                   required_permissions) then
    raise (Exc_HTTP {| status_code := HTTP_403_FORBIDDEN;
                       detail := Format "Missing required permissions: "
                                        required_permissions;
                       headers := [] |})
  else ret true.

(** [require_roles(required_roles)] returns this checker. *)
Definition role_checker (required_roles : list string)
    (credentials : option token) (api_key : option string) (now : Z)
  : M bool :=
  let user_roles : gset string := ∅ in
  (* Check API key roles *)
  let* user_roles :=
    if truthy_str api_key then
      let* api_key_obj :=
        APIKeyService_validate_api_key (default "" api_key) now in
      match api_key_obj with
      | Some api_key_obj =>
          ret (user_roles ∪ list_to_set (map role_name (key_roles api_key_obj)))
      | None => ret user_roles
      end
    else ret user_roles in
  (* Check JWT roles *)
  let* user_roles :=
    match credentials with
    | Some tok =>
        if bool_decide (user_roles = ∅) then
          try_except
            (let* payload := lift (decode_access_token tok now) in
             let* items :=
               lift (iter_strings (default (JList []) (payload !! "roles"))) in
             ret (user_roles ∪ list_to_set items))
            is_JWTError
            (ret user_roles)
        else ret user_roles
    | None => ret user_roles
    end in
  (* Check if user has any of the required roles *)
  if negb (existsb (fun role => bool_decide (role ∈ user_roles))
                   required_roles) then
    raise (Exc_HTTP {| status_code := HTTP_403_FORBIDDEN;
                       detail := Format "Missing required roles: "
                                        required_roles;
                       headers := [] |})
  else ret true.

End Core.

(** * Reference definitions and sample data *)

(** The validity rule in the words of the specification:
    [is_active == true AND (expires_at is null OR expires_at > now)]. *)
Definition spec_key_validity (k : APIKey) (now : Z) : bool :=
  key_is_active k
  && match key_expires_at k with
     | None => true
     | Some expires_at => now <? dt_instant expires_at
     end.

(** The row a use at [now] writes over [k]. *)
Definition used_at (db : DB) (k : APIKey) (now : Z) : APIKey :=
  CRUD.with_updated_at
    (CRUD.with_last_used_at k (Some (CRUD.stored db (utcnow now))))
    (Some (CRUD.db_now db now)).

(** The row a toggle at [now] writes over [k] when it changes the flag. *)
Definition toggled_at (db : DB) (k : APIKey) (activate : bool) (now : Z)
  : APIKey :=
  CRUD.with_updated_at (CRUD.with_is_active k activate)
                       (Some (CRUD.db_now db now)).

(** The time claims of a token are numbers or strings, the values the
    library's [int(...)] takes: none is [null] or a list. *)
Definition time_claims_typed (payload : claims) : bool :=
  forallb (fun key => match payload !! key with
                      | Some JNull | Some (JList _) => false
                      | _ => true
                      end)
          ["iat"; "nbf"; "exp"].

(** The effective grants of a request, in the words of the specification:
    "preferring key-derived if a key was presented, falling back to token
    claims only if no key was presented or it yielded nothing". *)
Section EffectiveGrants.

Variable sign : string -> string -> claims -> string.
Variable int_of_str : string -> option Z.
Variable settings : Settings.

(** The permission names a presented key yields: those of the aggregated
    set of the key it validates to. *)
Definition key_derived_permissions (api_key : option string) (now : Z)
    (db : DB) : gset string :=
  if truthy_str api_key then
    match (APIKeyService_validate_api_key (default "" api_key) now db).1 with
    | Ok (Some k) => set_map perm_name (APIKey_all_permissions k)
    | _ => ∅
    end
  else ∅.

(** The role names a presented key yields. *)
Definition key_derived_roles (api_key : option string) (now : Z) (db : DB)
  : gset string :=
  if truthy_str api_key then
    match (APIKeyService_validate_api_key (default "" api_key) now db).1 with
    | Ok (Some k) => list_to_set (map role_name (key_roles k))
    | _ => ∅
    end
  else ∅.

(** The names a presented token embeds under [field]: the items of the
    list its claims hold there; nothing when the token does not decode or
    holds no list there. *)
Definition token_embedded (credentials : option token) (now : Z)
    (field : string) : gset string :=
  match credentials with
  | Some tok =>
      match decode_access_token sign int_of_str settings tok now with
      | Ok payload =>
          match payload !! field with
          | Some (JList names) => list_to_set names
          | _ => ∅
          end
      | Raise _ => ∅
      end
  | None => ∅
  end.

(** A presented token can be read for [field]: it is refused by the
    library with a [JWTError], or it decodes and holds under [field] a
    list of names or nothing (as in every token [create_user_token]
    makes). *)
Definition token_readable (credentials : option token) (now : Z)
    (field : string) : bool :=
  match credentials with
  | Some tok =>
      match decode_access_token sign int_of_str settings tok now with
      | Ok payload =>
          match payload !! field with
          | None | Some (JList _) => true
          | Some _ => false
          end
      | Raise e => is_JWTError e
      end
  | None => true
  end.

(** The expiry of the key stored under a presented string, if that key is
    active and has one, can be compared with the clock: it is naive. *)
Definition expiry_comparable (api_key : option string) (db : DB) : Prop :=
  forall k d,
    truthy_str api_key = true ->
    CRUD.get_by_key db (default "" api_key) = Some k ->
    key_is_active k = true ->
    key_expires_at k = Some d ->
    dt_aware d = false.

Definition effective (key_derived token_claims : gset string) : gset string :=
  if decide (key_derived = ∅) then token_claims else key_derived.

(** The store after the key, if one was presented, has been validated. *)
Definition after_key_validation (api_key : option string) (now : Z) (db : DB)
  : DB :=
  if truthy_str api_key then
    (APIKeyService_validate_api_key (default "" api_key) now db).2
  else db.

End EffectiveGrants.

(** The rows reconciliation writes, named for the statements below. *)

(** The principal a first login creates. *)
Definition new_user (db : DB) (email : string)
    (full_name avatar_url : option string) : User :=
  {| user_id := CRUD.next_id (map user_id (tbl_users db));
     user_email := email;
     user_full_name := full_name;
     user_avatar_url := avatar_url;
     user_is_active := true;
     user_is_superuser := false;
     user_roles :=
       match List.find (fun r => bool_decide (role_name r = "user"))
                       (tbl_roles db) with
       | Some role => [role]
       | None => []
       end |}.

Definition with_users (db : DB) (us : list User) : DB :=
  {| db_engine := db_engine db;
     tbl_users := us;
     tbl_roles := tbl_roles db;
     tbl_permissions := tbl_permissions db;
     tbl_api_keys := tbl_api_keys db;
     tbl_oauth_accounts := tbl_oauth_accounts db |}.

(** The link a first login with a provider stores. *)
Definition new_link (db : DB) (user_id : Z)
    (provider provider_user_id access_token : string)
    (refresh_token : option string)
    (provider_data : option (list (string * string))) : OAuthAccount :=
  {| oa_id := CRUD.next_id (map oa_id (tbl_oauth_accounts db));
     oa_user_id := user_id;
     oa_provider := provider;
     oa_provider_user_id := provider_user_id;
     oa_access_token := Some access_token;
     oa_refresh_token := refresh_token;
     oa_provider_data := provider_data |}.

(** The link after a repeated login: the access token is replaced, the
    refresh token and the profile only by a value that is not empty. *)
Definition refreshed_link (a : OAuthAccount) (access_token : string)
    (refresh_token : option string)
    (provider_data : option (list (string * string))) : OAuthAccount :=
  {| oa_id := oa_id a;
     oa_user_id := oa_user_id a;
     oa_provider := oa_provider a;
     oa_provider_user_id := oa_provider_user_id a;
     oa_access_token := Some access_token;
     oa_refresh_token :=
       if truthy_str refresh_token then refresh_token else oa_refresh_token a;
     oa_provider_data :=
       if truthy_dict provider_data then provider_data
       else oa_provider_data a |}.

(** The store after the link of [user_id] with [provider] has been created
    or refreshed. *)
Definition link_stored (user_id : Z)
    (provider provider_user_id access_token : string)
    (refresh_token : option string)
    (provider_data : option (list (string * string))) (db : DB) : DB :=
  match oauth_account_for db user_id provider with
  | None =>
      add_oauth_account
        (new_link db user_id provider provider_user_id access_token
                  refresh_token provider_data) db
  | Some a =>
      CRUD.save_oauth_account
        (refreshed_link a access_token refresh_token provider_data) db
  end.

(** A small store on PostgreSQL: an active administrator, a deactivated
    user, and one key for each. *)
Module Sample.

(** A stand-in for the library's HMAC. *)
Definition sign (alg key : string) (payload : claims) : string :=
  String.append key (String.append "/" alg).

(** The decimal numerals, which Python's [int] and the integer input of
    the database both read as the number they write; every string the
    statements below pass to them is such a numeral or has no digit. *)
Fixpoint digits (s : string) (acc : Z) : option Z :=
  match s with
  | EmptyString => Some acc
  | String c rest =>
      let n := Z.of_nat (Ascii.nat_of_ascii c) in
      if (48 <=? n) && (n <=? 57) then digits rest (10 * acc + (n - 48))
      else None
  end.

Definition decimal (s : string) : option Z :=
  if String.eqb s "" then None else digits s 0.

Definition accept_email (email : string) : option string := Some email.

(** PostgreSQL with the session time zone UTC: [timestamptz] columns hand
    back aware datetimes, and a string that is no integer makes the
    comparison with an integer column fail. *)
Definition postgres : Engine :=
  {| timestamptz := fun d => {| dt_instant := dt_instant d; dt_aware := true |};
     integer_eq_text := fun s =>
       match decimal s with
       | Some n => Ok (Some n)
       | None => Raise Exc_DBAPIError
       end;
     func_now := fun now => {| dt_instant := now; dt_aware := true |} |}.

(** 2023-11-14 22:13:20 UTC, and instants counted from it in seconds. *)
Definition start : Z := 1700000000 * second.
Definition after (seconds : Z) : Z := start + seconds * second.

Definition users_read : Permission :=
  mkPermission 1 "users:read" None (Some "users") (Some "read").
Definition users_write : Permission :=
  mkPermission 2 "users:write" None (Some "users") (Some "write").

Definition admin_role : Role :=
  mkRole 1 "admin" None [users_read; users_write].
Definition user_role : Role := mkRole 2 "user" None [users_read].

Definition alice : User :=
  mkUser 1 "admin@example.com" (Some "Alice") None true false [admin_role].
Definition bob : User :=
  mkUser 2 "bob@example.com" None None false false [user_role].

Definition alice_key : APIKey :=
  {| key_id := 1; key_user_id := Some 1; key_key := "key-alice";
     key_name := "ci"; key_description := None; key_is_active := true;
     key_expires_at := None; key_last_used_at := None;
     key_created_at := mkDatetime start true; key_updated_at := None;
     key_roles := [admin_role]; key_permissions := [] |}.
Definition bob_key : APIKey :=
  {| key_id := 2; key_user_id := Some 2; key_key := "key-bob";
     key_name := "laptop"; key_description := None; key_is_active := true;
     key_expires_at := None; key_last_used_at := None;
     key_created_at := mkDatetime start true; key_updated_at := None;
     key_roles := []; key_permissions := [users_read] |}.

Definition db0 : DB :=
  mkDB postgres [alice; bob] [admin_role; user_role] [users_read; users_write]
       [alice_key; bob_key] [].

Definition empty_db : DB := mkDB postgres [] [] [] [] [].

(** Tokens signed with the default settings. *)
Definition signed (payload : claims) : token :=
  Compact "HS256" payload
    (sign "HS256" "your-secret-key-change-in-production" payload).

End Sample.

(** * Further operations of the same modules *)

(** [list.remove(x)]: the first occurrence goes. *)
Fixpoint list_remove_first {A} `{EqDecision A} (x : A) (l : list A) : list A :=
  match l with
  | [] => []
  | y :: l => if decide (x = y) then l else y :: list_remove_first x l
  end.

Definition with_roles (u : User) (rs : list Role) : User :=
  {| user_id := user_id u; user_email := user_email u;
     user_full_name := user_full_name u; user_avatar_url := user_avatar_url u;
     user_is_active := user_is_active u;
     user_is_superuser := user_is_superuser u; user_roles := rs |}.

(** The roles of a user as [db.refresh(user)] loads them once [attached]
    are the roles associated with it: the rows of the role table with the
    ids of those roles. *)
Definition load_roles (db : DB) (attached : list Role) : list Role :=
  List.filter (fun r => bool_decide (role_id r ∈ map role_id attached))
              (tbl_roles db).

(** [CRUDUser.add_role] ([app/crud/user.py]).  In a session the same row
    is the same object, so [role not in user.roles] compares rows. *)
Definition add_role (user : User) (role : Role) (db : DB) : User * DB :=
  if negb (bool_decide (role ∈ user_roles user)) then
    let user := with_roles user (user_roles user ++ [role]) in
    let user := with_roles user (load_roles db (user_roles user)) in
    (user, CRUD.save_user user db)
  else (user, db).

(** [CRUDUser.remove_role] ([app/crud/user.py]). *)
Definition remove_role (user : User) (role : Role) (db : DB) : User * DB :=
  if bool_decide (role ∈ user_roles user) then
    let user := with_roles user (list_remove_first role (user_roles user)) in
    let user := with_roles user (load_roles db (user_roles user)) in
    (user, CRUD.save_user user db)
  else (user, db).

(** [APIKeyCreate] ([app/schemas/api_key.py]) *)
Record APIKeyCreate := mkAPIKeyCreate {
  akc_name : string;
  akc_description : option string;
  akc_expires_at : option datetime;
  akc_role_ids : option (list Z);
  akc_permission_ids : option (list Z)
}.

(** [CRUDAPIKey.create_with_roles_permissions] ([app/crud/api_key.py]).
    [generated] is what [APIKey.generate()] returned, a fresh random
    string; [Role.id.in_(role_ids)] keeps the rows whose id is listed, and
    the refresh loads the same rows again.  The INSERT fills [created_at]
    with the database's clock and leaves [updated_at] null; the refreshed
    object has its datetimes as the columns hand them back. *)
Definition create_with_roles_permissions (generated : string)
    (obj_in : APIKeyCreate) (user_id : Z)
    (role_ids permission_ids : option (list Z)) (now : Z) (db : DB)
  : APIKey * DB :=
  let db_obj :=
    {| key_id := CRUD.next_id (map key_id (tbl_api_keys db));
       key_user_id := Some user_id;
       key_key := generated;
       key_name := akc_name obj_in;
       key_description := akc_description obj_in;
       key_is_active := true;
       key_expires_at := CRUD.stored db <$> akc_expires_at obj_in;
       key_last_used_at := None;
       key_created_at := CRUD.db_now db now;
       key_updated_at := None;
       key_roles :=
         if truthy_list role_ids then
           List.filter (fun r => bool_decide (role_id r ∈ default [] role_ids))
                       (tbl_roles db)
         else [];
       key_permissions :=
         if truthy_list permission_ids then
           List.filter
             (fun p => bool_decide (perm_id p ∈ default [] permission_ids))
             (tbl_permissions db)
         else [] |} in
  (db_obj,
   {| db_engine := db_engine db;
      tbl_users := tbl_users db;
      tbl_roles := tbl_roles db;
      tbl_permissions := tbl_permissions db;
      tbl_api_keys := tbl_api_keys db ++ [db_obj];
      tbl_oauth_accounts := tbl_oauth_accounts db |}).

(** [APIKeyService.create_api_key] ([app/services/api_key_service.py]) *)
Definition APIKeyService_create_api_key (generated : string) (user_id : Z)
    (api_key_data : APIKeyCreate) (now : Z) : M APIKey :=
  total (create_with_roles_permissions generated api_key_data user_id
           (akc_role_ids api_key_data) (akc_permission_ids api_key_data) now).

(** More sample data: a key whose owner row is gone, a key with an expiry
    (2030-01-01 00:00 UTC, as PostgreSQL hands it back), the same store
    on an engine that hands back naive datetimes, and a request to create
    a key. *)
Module MoreSamples.

Definition orphan_key : APIKey :=
  {| key_id := 3; key_user_id := None; key_key := "key-orphan";
     key_name := "left behind"; key_description := None;
     key_is_active := true;
     key_expires_at := None; key_last_used_at := None;
     key_created_at := mkDatetime Sample.start true; key_updated_at := None;
     key_roles := []; key_permissions := [] |}.

Definition year_2030 : Z := 1893456000 * second.

Definition expiring_key : APIKey :=
  {| key_id := 4; key_user_id := Some 1; key_key := "key-temp";
     key_name := "contractor"; key_description := None;
     key_is_active := true;
     key_expires_at := Some (mkDatetime year_2030 true);
     key_last_used_at := None;
     key_created_at := mkDatetime Sample.start true; key_updated_at := None;
     key_roles := []; key_permissions := [Sample.users_read] |}.

Definition db1 : DB :=
  mkDB Sample.postgres [Sample.alice; Sample.bob]
       [Sample.admin_role; Sample.user_role]
       [Sample.users_read; Sample.users_write]
       [Sample.alice_key; Sample.bob_key; orphan_key; expiring_key] [].

Definition new_key_request : APIKeyCreate :=
  mkAPIKeyCreate "deploy" None (Some (mkDatetime year_2030 true))
                 (Some [1; 9]) None.

(** SQLite: the columns hand back naive datetimes, and a string that is
    no integer compares equal to no integer. *)
Definition sqlite : Engine :=
  {| timestamptz := fun d => {| dt_instant := dt_instant d; dt_aware := false |};
     integer_eq_text := fun s => Ok (Sample.decimal s);
     func_now := fun now => {| dt_instant := now; dt_aware := false |} |}.

(** A key that lapses 100 seconds after [Sample.start]. *)
Definition lapsing_key : APIKey :=
  {| key_id := 5; key_user_id := Some 1; key_key := "key-lapsing";
     key_name := "trial"; key_description := None;
     key_is_active := true;
     key_expires_at := Some (mkDatetime (Sample.after 100) false);
     key_last_used_at := None;
     key_created_at := mkDatetime Sample.start false; key_updated_at := None;
     key_roles := []; key_permissions := [Sample.users_read] |}.

Definition db2 : DB :=
  mkDB sqlite [Sample.alice; Sample.bob]
       [Sample.admin_role; Sample.user_role]
       [Sample.users_read; Sample.users_write]
       [lapsing_key] [].

End MoreSamples.

(** * Properties *)

(** Unfolding the codec and the resolvers down to the store. *)
Ltac unfold_codec :=
  unfold decode_access_token, create_access_token, jwt_decode, jwt_encode in *.

(** Closed statements about the sample data are settled by evaluation,
    one conjunct at a time. *)
Ltac evaluate :=
  cbv zeta;
  repeat match goal with |- _ /\ _ => split end;
  vm_compute; reflexivity.

Ltac unfold_validation :=
  unfold validate_claims, validate_iat, validate_nbf, validate_exp,
    validate_aud, validate_sub, validate_jti, validate_at_hash,
    time_claim, py_int in *.

Ltac unfold_monad :=
  unfold try_except, bind, lift, query, attempt, total, ret, raise in *.

Ltac unfold_resolvers :=
  unfold get_current_user_either, get_current_user_jwt_required,
    get_current_user_apikey_required, get_current_user_from_jwt,
    get_current_user_from_apikey in *;
  unfold_monad.

Ltac unfold_either := unfold get_current_user_either, bind, ret, raise.

Ltac unfold_jwt_required :=
  unfold get_current_user_jwt_required, bind, ret, raise.

(** ** Permission aggregation *)

Section Aggregation.

Context {A B : Type}.

(** The [for role in roles: perms.extend(f(role))] loop. *)
Lemma foldl_extend (f : A -> list B) (init : list B) (l : list A) :
  foldl (fun acc x => acc ++ f x) init l = init ++ concat (map f l).
Proof.
  revert init. induction l as [|x l IH]; intros init; simpl.
  - by rewrite app_nil_r.
  - rewrite IH. by rewrite <- app_assoc.
Qed.

Lemma elem_of_concat_map (f : A -> list B) (l : list A) (y : B) :
  y ∈ concat (map f l) <-> exists x, x ∈ l /\ y ∈ f x.
Proof.
  induction l as [|x l IH]; simpl.
  - split; [by intros ?%elem_of_nil | by intros (? & ?%elem_of_nil & _)].
  - rewrite elem_of_app, IH. split.
    + intros [H | (x' & Hx' & Hy)].
      * exists x. split; [left | done].
      * exists x'. split; [by right | done].
    + intros (x' & [-> | Hx']%elem_of_cons & Hy); [by left |].
      right. by exists x'.
Qed.

End Aggregation.

Lemma elem_of_User_permissions (P : User) (p : Permission) :
  p ∈ User_permissions P <->
  exists r, r ∈ user_roles P /\ p ∈ role_permissions r.
Proof.
  unfold User_permissions. rewrite foldl_extend. simpl.
  rewrite elem_of_list_to_set. apply elem_of_concat_map.
Qed.

Lemma elem_of_APIKey_all_permissions (K : APIKey) (p : Permission) :
  p ∈ APIKey_all_permissions K <->
  p ∈ key_permissions K \/
  exists r, r ∈ key_roles K /\ p ∈ role_permissions r.
Proof.
  unfold APIKey_all_permissions. rewrite foldl_extend.
  rewrite elem_of_list_to_set, elem_of_app.
  by rewrite elem_of_concat_map.
Qed.

Lemma elem_of_add_names (acc : gset string) (ps : list Permission) (n : string) :
  n ∈ foldl (fun acc p => acc ∪ {[perm_name p]}) acc ps <->
  n ∈ acc \/ exists p, p ∈ ps /\ perm_name p = n.
Proof.
  revert acc. induction ps as [|p ps IH]; intros acc; simpl.
  - split; [by left | intros [H | (? & ?%elem_of_nil & _)]; done].
  - rewrite IH. rewrite elem_of_union, elem_of_singleton. split.
    + intros [[H | ->] | (q & Hq & Hn)].
      * by left.
      * right. exists p. split; [left | done].
      * right. exists q. split; [by right | done].
    + intros [H | (q & [-> | Hq]%elem_of_cons & Hn)].
      * left. by left.
      * left. by right.
      * right. by exists q.
Qed.

Lemma elem_of_token_permissions_from (acc : gset string) (rs : list Role)
    (n : string) :
  n ∈ foldl (fun acc role =>
               foldl (fun acc p => acc ∪ {[perm_name p]}) acc
                     (role_permissions role)) acc rs <->
  n ∈ acc \/
  exists r p, r ∈ rs /\ p ∈ role_permissions r /\ perm_name p = n.
Proof.
  revert acc. induction rs as [|r rs IH]; intros acc; simpl.
  - split; [by left | intros [H | (? & ? & ?%elem_of_nil & _)]; done].
  - rewrite IH, elem_of_add_names. split.
    + intros [[H | (p & Hp & Hn)] | (r' & p & Hr & Hp & Hn)].
      * by left.
      * right. exists r, p. split; [left | done].
      * right. exists r', p. split; [by right | done].
    + intros [H | (r' & p & [-> | Hr]%elem_of_cons & Hp & Hn)].
      * left. by left.
      * left. right. by exists p.
      * right. by exists r', p.
Qed.

Lemma elem_of_token_permissions (P : User) (n : string) :
  n ∈ token_permissions P <->
  exists r p, r ∈ user_roles P /\ p ∈ role_permissions r /\ perm_name p = n.
Proof.
  unfold token_permissions. rewrite elem_of_token_permissions_from.
  split; [intros [H | H]; [set_solver | done] | by right].
Qed.

Lemma elem_of_role_sets (rs : list Role) (p : Permission) :
  p ∈ (⋃ map (fun r => list_to_set (role_permissions r)) rs : gset Permission)
  <-> exists r, r ∈ rs /\ p ∈ role_permissions r.
Proof.
  rewrite elem_of_union_list. split.
  - intros (X & (r & -> & Hr)%list_elem_of_fmap & Hp).
    exists r. split; [done |]. by apply elem_of_list_to_set in Hp.
  - intros (r & Hr & Hp). exists (list_to_set (role_permissions r)).
    split; [| by apply elem_of_list_to_set].
    apply list_elem_of_fmap. by exists r.
Qed.

Lemma elem_of_key_permission_names (acc : gset string) (K : APIKey)
    (n : string) :
  n ∈ key_permission_names acc K <->
  n ∈ acc \/ exists p, p ∈ APIKey_all_permissions K /\ perm_name p = n.
Proof.
  unfold key_permission_names.
  assert (Hloop : forall rs (acc : gset string),
    n ∈ foldl (fun acc role =>
                 acc ∪ list_to_set (map perm_name (role_permissions role)))
              acc rs <->
    n ∈ acc \/ exists r p, r ∈ rs /\ p ∈ role_permissions r /\ perm_name p = n).
  { induction rs as [|r rs IH]; intros acc'; simpl.
    - split; [by left | intros [H | (? & ? & ?%elem_of_nil & _)]; done].
    - rewrite IH, elem_of_union, elem_of_list_to_set, list_elem_of_fmap. split.
      + intros [[H | (p & Hn & Hp)] | (r' & p & Hr & Hp & Hn)].
        * by left.
        * right. exists r, p. split; [left | done].
        * right. exists r', p. split; [by right | done].
      + intros [H | (r' & p & [-> | Hr]%elem_of_cons & Hp & Hn)].
        * left. by left.
        * left. right. by exists p.
        * right. by exists r', p. }
  rewrite Hloop, elem_of_union, elem_of_list_to_set, list_elem_of_fmap.
  setoid_rewrite elem_of_APIKey_all_permissions. split.
  - intros [[H | (p & Hn & Hp)] | (r & p & Hr & Hp & Hn)].
    + by left.
    + right. exists p. split; [by left | done].
    + right. exists p. split; [right; by exists r | done].
  - intros [H | (p & [Hp | (r & Hr & Hp)] & Hn)].
    + left. by left.
    + left. right. by exists p.
    + right. by exists r, p.
Qed.

Lemma key_permission_names_all (K : APIKey) :
  key_permission_names ∅ K = set_map perm_name (APIKey_all_permissions K).
Proof.
  apply set_eq; intros n.
  rewrite elem_of_key_permission_names, elem_of_map. split.
  - intros [H | (p & Hp & Hn)]; [set_solver | by exists p].
  - intros (p & Hn & Hp). right. by exists p.
Qed.

(** C5. The aggregated permission set of a principal is the union of the
    permission sets of its roles, as a set without duplicates, both for
    [User.permissions] and for the permission names [create_user_token]
    puts in a token; it is the same for every principal whose role list
    is a permutation of this one's, for a role list with a role entered
    twice, and in general for every role list with the same members. *)
Theorem C5_user_aggregate_invariant (P : User) :
  User_permissions P
    = ⋃ map (fun r => list_to_set (role_permissions r)) (user_roles P)
  /\ token_permissions P = set_map perm_name (User_permissions P)
  /\ (forall P' : User, user_roles P' ≡ₚ user_roles P ->
        User_permissions P' = User_permissions P
        /\ token_permissions P' = token_permissions P)
  /\ (forall (P' : User) (r : Role), r ∈ user_roles P ->
        user_roles P' = r :: user_roles P ->
        User_permissions P' = User_permissions P
        /\ token_permissions P' = token_permissions P)
  /\ (forall P' : User, (forall r, r ∈ user_roles P' <-> r ∈ user_roles P) ->
        User_permissions P' = User_permissions P
        /\ token_permissions P' = token_permissions P).
Proof.
  assert (Hsame : forall P' : User,
            (forall r, r ∈ user_roles P' <-> r ∈ user_roles P) ->
            User_permissions P' = User_permissions P
            /\ token_permissions P' = token_permissions P).
  { intros P' Hmem. split; apply set_eq; intros x.
    - rewrite !elem_of_User_permissions. by setoid_rewrite Hmem.
    - rewrite !elem_of_token_permissions. by setoid_rewrite Hmem. }
  split; [| split; [| split; [| split]]].
  - apply set_eq; intros p.
    by rewrite elem_of_User_permissions, elem_of_role_sets.
  - apply set_eq; intros n.
    rewrite elem_of_token_permissions, elem_of_map.
    setoid_rewrite elem_of_User_permissions. split.
    + intros (r & p & Hr & Hp & Hn). exists p. split; [done | by exists r].
    + intros (p & Hn & r & Hr & Hp). by exists r, p.
  - intros P' Hperm. apply Hsame. intros r. by rewrite Hperm.
  - intros P' r Hr Heq. apply Hsame. intros r'. rewrite Heq, elem_of_cons.
    split; [intros [-> | H]; done | by right].
  - exact Hsame.
Qed.

(** C6. The aggregated permission set of an API key is the union of its
    direct permissions with the permission sets of its directly attached
    roles; so it includes the direct permissions and the permission set of
    every attached role.  The names the permission check derives from a
    key are the names of this set. *)
Theorem C6_key_aggregate (K : APIKey) :
  APIKey_all_permissions K
    = list_to_set (key_permissions K)
      ∪ ⋃ map (fun r => list_to_set (role_permissions r)) (key_roles K)
  /\ list_to_set (key_permissions K) ⊆ APIKey_all_permissions K
  /\ (forall r : Role, r ∈ key_roles K ->
        list_to_set (role_permissions r) ⊆ APIKey_all_permissions K)
  /\ key_permission_names ∅ K = set_map perm_name (APIKey_all_permissions K).
Proof.
  split; [| split; [| split]].
  - apply set_eq; intros p.
    by rewrite elem_of_APIKey_all_permissions, elem_of_union,
      elem_of_list_to_set, elem_of_role_sets.
  - intros p Hp%elem_of_list_to_set.
    apply elem_of_APIKey_all_permissions. by left.
  - intros r Hr p Hp%elem_of_list_to_set.
    apply elem_of_APIKey_all_permissions. right. by exists r.
  - apply key_permission_names_all.
Qed.

(** ** API-key validation *)

(** [is_valid], case by case. *)
Lemma is_valid_cases (k : APIKey) (now : Z) :
  CRUD.is_valid k now
  = if key_is_active k then
      match key_expires_at k with
      | None => Ok true
      | Some d =>
          if dt_aware d then Raise Exc_TypeError
          else Ok (negb (dt_instant d <? now))
      end
    else Ok false.
Proof.
  unfold CRUD.is_valid, datetime_lt, utcnow.
  destruct (key_is_active k); [| done].
  destruct (key_expires_at k) as [[t a]|]; [| done]. cbn.
  destruct a; [done |]. cbn. by destruct (t <? now).
Qed.

Lemma is_valid_true_iff (k : APIKey) (now : Z) :
  CRUD.is_valid k now = Ok true <->
  key_is_active k = true
  /\ (key_expires_at k = None
      \/ exists d, key_expires_at k = Some d /\ dt_aware d = false
                   /\ now <= dt_instant d).
Proof.
  rewrite is_valid_cases.
  destruct (key_is_active k); [| by split; [| intros []]].
  destruct (key_expires_at k) as [d|]; [| by split; [split; [| left] |]].
  destruct (dt_aware d) eqn:Ha.
  - split; [done | intros [_ [? | (d' & [= <-] & ? & _)]]; congruence].
  - destruct (Z.ltb_spec (dt_instant d) now); cbn.
    + split; [done | intros [_ [? | (d' & [= <-] & _ & ?)]]; [done | lia]].
    + split; [| done]. intros _. split; [done | right; by exists d].
Qed.

Lemma is_valid_false_iff (k : APIKey) (now : Z) :
  CRUD.is_valid k now = Ok false <->
  key_is_active k = false
  \/ exists d, key_expires_at k = Some d /\ dt_aware d = false
               /\ dt_instant d < now.
Proof.
  rewrite is_valid_cases.
  destruct (key_is_active k).
  2: { split; [by left | done]. }
  destruct (key_expires_at k) as [d|].
  2: { split; [done | intros [? | (d & ? & _)]; done]. }
  destruct (dt_aware d) eqn:Ha.
  - split; [done | intros [? | (d' & [= <-] & ? & _)]; congruence].
  - destruct (Z.ltb_spec (dt_instant d) now); cbn.
    + split; [| done]. intros _. right. by exists d.
    + split; [done | intros [? | (d' & [= <-] & _ & ?)]; [done | lia]].
Qed.

Lemma is_valid_raises_iff (k : APIKey) (now : Z) (e : exn) :
  CRUD.is_valid k now = Raise e <->
  e = Exc_TypeError /\ key_is_active k = true
  /\ exists d, key_expires_at k = Some d /\ dt_aware d = true.
Proof.
  rewrite is_valid_cases.
  destruct (key_is_active k); [| by split; [| intros (_ & ? & _)]].
  destruct (key_expires_at k) as [d|].
  2: { split; [done | intros (_ & _ & d & ? & _); done]. }
  destruct (dt_aware d) eqn:Ha.
  - split.
    + intros [= <-]. split; [done |]. split; [done |]. by exists d.
    + by intros (-> & _).
  - split; [done | intros (_ & _ & d' & [= <-] & ?); congruence].
Qed.

(** [validate_api_key], step by step. *)
Lemma validate_api_key_unfold (key : string) (now : Z) (db : DB) :
  APIKeyService_validate_api_key key now db
  = match CRUD.get_by_key db key with
    | None => (Ok None, db)
    | Some k =>
        match CRUD.is_valid k now with
        | Ok true =>
            (Ok (Some (CRUD.update_last_used k now db).1),
             (CRUD.update_last_used k now db).2)
        | Ok false => (Ok None, db)
        | Raise e => (Raise e, db)
        end
    end.
Proof.
  unfold APIKeyService_validate_api_key. unfold_monad.
  destruct (CRUD.get_by_key db key) as [k|]; [| done].
  destruct (CRUD.is_valid k now) as [[|] | e]; try done.
  cbn. by destruct (CRUD.update_last_used k now db).
Qed.


(** [update_last_used] writes nothing when the attribute already holds
    the value assigned to it, and the stamped row otherwise. *)
Lemma update_last_used_cases (k : APIKey) (now : Z) (db : DB) :
  (key_last_used_at k = Some (utcnow now)
   /\ CRUD.update_last_used k now db = (k, db))
  \/ (key_last_used_at k <> Some (utcnow now)
      /\ CRUD.update_last_used k now db
         = (used_at db k now, CRUD.save_api_key (used_at db k now) db)).
Proof.
  unfold CRUD.update_last_used, CRUD.commit_update, used_at.
  destruct (decide (key_last_used_at k = Some (utcnow now))) as [H | H].
  - left. by rewrite bool_decide_eq_true_2.
  - right. by rewrite bool_decide_eq_false_2.
Qed.

(** The row [update_last_used] returns keeps the id, the key string, the
    owner, the flag, the expiry and the grants. *)
Lemma update_last_used_keeps (k : APIKey) (now : Z) (db : DB) :
  let k' := (CRUD.update_last_used k now db).1 in
  key_id k' = key_id k /\ key_key k' = key_key k
  /\ key_user_id k' = key_user_id k
  /\ key_is_active k' = key_is_active k
  /\ key_expires_at k' = key_expires_at k
  /\ key_roles k' = key_roles k /\ key_permissions k' = key_permissions k
  /\ CRUD.with_updated_at
       (CRUD.with_last_used_at k' (key_last_used_at k)) (key_updated_at k) = k.
Proof.
  destruct (update_last_used_cases k now db) as [[_ ->] | [_ ->]]; cbn.
  - repeat split; try done. by destruct k.
  - repeat split; try done. by destruct k.
Qed.

Lemma update_last_used_store (k : APIKey) (now : Z) (db : DB) :
  let '(k', db') := CRUD.update_last_used k now db in
  db' = db \/ db' = CRUD.save_api_key k' db.
Proof.
  destruct (update_last_used_cases k now db) as [[_ ->] | [_ ->]];
    [by left | by right].
Qed.

(** C3 (the code fails it).  [is_valid] decides validity only for a key
    that is inactive, has no expiry, or has a naive expiry: then the key
    is valid exactly when it is active and the expiry is null or not
    before the instant of validation.  For an active key whose stored
    expiry is timezone-aware, which is what the configured PostgreSQL
    hands back for the [DateTime(timezone=True)] column, the comparison
    with the naive [datetime.utcnow()] raises [TypeError]: [is_valid]
    does not return, and [validate_api_key] raises for the string of
    such a key at every instant, before or after the expiry, leaving the
    store as it was. *)
Theorem C3_key_validity (k : APIKey) (now : Z) :
  (key_is_active k = false -> CRUD.is_valid k now = Ok false)
  /\ (key_is_active k = true -> key_expires_at k = None ->
      CRUD.is_valid k now = Ok true)
  /\ (forall d, key_is_active k = true -> key_expires_at k = Some d ->
        dt_aware d = false ->
        CRUD.is_valid k now = Ok (bool_decide (now <= dt_instant d)))
  /\ (forall d, key_is_active k = true -> key_expires_at k = Some d ->
        dt_aware d = true ->
        CRUD.is_valid k now = Raise Exc_TypeError
        /\ forall db key,
             CRUD.get_by_key db key = Some k ->
             APIKeyService_validate_api_key key now db
             = (Raise Exc_TypeError, db)).
Proof.
  rewrite is_valid_cases. split; [| split; [| split]].
  - by intros ->.
  - by intros -> ->.
  - intros d -> -> ->. f_equal.
    destruct (Z.ltb_spec (dt_instant d) now); cbn.
    + by rewrite bool_decide_eq_false_2 by lia.
    + by rewrite bool_decide_eq_true_2 by lia.
  - intros d Hact Hexp Ha. rewrite Hact, Hexp, Ha. split; [done |].
    intros db key Hk. rewrite validate_api_key_unfold, Hk, is_valid_cases.
    by rewrite Hact, Hexp, Ha.
Qed.

(** C3 at the sample stores.  On PostgreSQL the contractor's key is
    active and expires in 2030, so the rule of the specification makes it
    valid in 2023; the code raises [TypeError] for it.  On SQLite the
    trial key, which lapses 100 seconds after the start, is still valid
    at that very instant and invalid a second later. *)
Lemma C3_key_validity_witness :
  spec_key_validity MoreSamples.expiring_key (Sample.after 50) = true
  /\ CRUD.is_valid MoreSamples.expiring_key (Sample.after 50)
     = Raise Exc_TypeError
  /\ APIKeyService_validate_api_key "key-temp" (Sample.after 50)
       MoreSamples.db1
     = (Raise Exc_TypeError, MoreSamples.db1)
  /\ CRUD.is_valid MoreSamples.lapsing_key (Sample.after 100) = Ok true
  /\ CRUD.is_valid MoreSamples.lapsing_key (Sample.after 101) = Ok false.
Proof.
  destruct (C3_key_validity MoreSamples.expiring_key (Sample.after 50))
    as (_ & _ & _ & H).
  destruct (H (mkDatetime MoreSamples.year_2030 true) eq_refl eq_refl eq_refl)
    as [Hvalid Hvalidate].
  split; [evaluate |]. split; [exact Hvalid |].
  split; [by apply Hvalidate |].
  split.
  - destruct (C3_key_validity MoreSamples.lapsing_key (Sample.after 100))
      as (_ & _ & Hnaive & _).
    by rewrite (Hnaive (mkDatetime (Sample.after 100) false)).
  - destruct (C3_key_validity MoreSamples.lapsing_key (Sample.after 101))
      as (_ & _ & Hnaive & _).
    by rewrite (Hnaive (mkDatetime (Sample.after 100) false)).
Defined.

Lemma find_Some_elem {A} (f : A -> bool) (l : list A) (x : A) :
  List.find f l = Some x -> x ∈ l /\ f x = true.
Proof.
  intros [Hin Hf]%find_some. split; [by apply list_elem_of_In | done].
Qed.

(** Rows of a table with a primary key: equal keys, equal rows. *)
Lemma primary_key_inj {A} (f : A -> Z) (l : list A) (x y : A) :
  NoDup (map f l) -> x ∈ l -> y ∈ l -> f x = f y -> x = y.
Proof.
  induction l as [|a l IH]; simpl; intros Hnd Hx Hy Heq.
  - by apply elem_of_nil in Hx.
  - apply NoDup_cons in Hnd as [Hna Hnd].
    apply elem_of_cons in Hx as [-> | Hx]; apply elem_of_cons in Hy as [-> | Hy].
    + done.
    + exfalso. apply Hna. rewrite Heq. apply list_elem_of_fmap. by exists y.
    + exfalso. apply Hna. rewrite <- Heq. apply list_elem_of_fmap. by exists x.
    + by apply IH.
Qed.

Lemma get_by_key_elem (db : DB) (key : string) (k : APIKey) :
  CRUD.get_by_key db key = Some k -> k ∈ tbl_api_keys db /\ key_key k = key.
Proof.
  intros [Hin Hk]%find_Some_elem. split; [done |].
  by apply bool_decide_eq_true in Hk.
Qed.

(** In a table with a primary key, saving [k'] over the row [k] it was
    read from rewrites that row and no other. *)
Lemma save_api_key_rows (db : DB) (k k' : APIKey) :
  NoDup (map key_id (tbl_api_keys db)) ->
  k ∈ tbl_api_keys db ->
  key_id k' = key_id k ->
  tbl_api_keys (CRUD.save_api_key k' db)
  = map (fun r => if decide (r = k) then k' else r) (tbl_api_keys db).
Proof.
  intros Hnd Hin Hid. simpl. apply map_ext_in. intros r Hr%list_elem_of_In.
  rewrite Hid. destruct (decide (r = k)) as [-> | Hne].
  - by rewrite bool_decide_eq_true_2.
  - rewrite bool_decide_eq_false_2; [done |]. intros Heq. apply Hne.
    by eapply (primary_key_inj key_id).
Qed.

(** C10 (as amended). Validating a key string changes the store only when
    it succeeds, and then only in two fields of the matched key:
    [last_used_at], which becomes the current time, and [updated_at],
    which the UPDATE rewrites with the current time.  The engine, the
    other tables and every other key row stay as they were, and the
    matched row keeps all its other fields.  When the key is unknown,
    inactive, or expired with an expiry that compares with the clock, the
    result is [None] and the store is the one it was; when the comparison
    raises, the store is the one it was as well. *)
Theorem C10_validate_frame (db : DB) (key : string) (now : Z) :
  NoDup (map key_id (tbl_api_keys db)) ->
  match APIKeyService_validate_api_key key now db with
  | (Ok None, db') =>
      db' = db
      /\ (CRUD.get_by_key db key = None
          \/ exists k, CRUD.get_by_key db key = Some k
                       /\ (key_is_active k = false
                           \/ exists e, key_expires_at k = Some e
                                        /\ dt_aware e = false
                                        /\ dt_instant e < now))
  | (Raise e, db') =>
      db' = db
      /\ e = Exc_TypeError
      /\ exists k d, CRUD.get_by_key db key = Some k
                     /\ key_is_active k = true
                     /\ key_expires_at k = Some d /\ dt_aware d = true
  | (Ok (Some k'), db') =>
      exists k,
        CRUD.get_by_key db key = Some k
        /\ CRUD.is_valid k now = Ok true
        /\ ((key_last_used_at k' = Some (CRUD.stored db (utcnow now))
             /\ key_updated_at k' = Some (CRUD.db_now db now))
            \/ (key_last_used_at k' = Some (utcnow now) /\ k' = k))
        /\ CRUD.with_updated_at
             (CRUD.with_last_used_at k' (key_last_used_at k))
             (key_updated_at k) = k
        /\ db_engine db' = db_engine db
        /\ tbl_users db' = tbl_users db
        /\ tbl_roles db' = tbl_roles db
        /\ tbl_permissions db' = tbl_permissions db
        /\ tbl_oauth_accounts db' = tbl_oauth_accounts db
        /\ length (tbl_api_keys db') = length (tbl_api_keys db)
        /\ forall (i : nat) (r : APIKey),
             tbl_api_keys db !! i = Some r ->
             tbl_api_keys db' !! i = Some (if decide (r = k) then k' else r)
  end.
Proof.
  intros Hnd. rewrite validate_api_key_unfold.
  destruct (CRUD.get_by_key db key) as [k|] eqn:Hk.
  2: { split; [done | by left]. }
  destruct (CRUD.is_valid k now) as [[|] | e] eqn:Hv.
  - exists k. split; [done |]. split; [done |].
    apply get_by_key_elem in Hk as [Hin _].
    destruct (update_last_used_cases k now db) as [[Hsame ->] | [Hnew ->]];
      cbn [fst snd].
    + split; [by right |]. split; [by destruct k |].
      repeat split; try done.
      intros i r Hr. rewrite Hr. f_equal. by destruct (decide (r = k)).
    + split; [by left |]. split; [by destruct k |].
      repeat split; try done.
      * simpl. by rewrite length_map.
      * intros i r Hr.
        rewrite (save_api_key_rows db k (used_at db k now) Hnd Hin eq_refl).
        by rewrite list_lookup_fmap, Hr.
  - split; [done |]. right. exists k. split; [done |].
    by apply is_valid_false_iff.
  - apply is_valid_raises_iff in Hv as (-> & Hact & d & Hexp & Ha).
    split; [done |]. split; [done |]. by exists k, d.
Qed.

(** C10 at the sample stores: the administrator's key validates 50
    seconds after the start and only its row changes; the trial key,
    lapsed, and the contractor's key, for which the comparison raises,
    leave their stores as they were. *)
Lemma C10_validate_frame_witness :
  NoDup (map key_id (tbl_api_keys Sample.db0))
  /\ match APIKeyService_validate_api_key "key-alice" (Sample.after 50)
             Sample.db0 with
     | (Ok (Some k'), db') =>
         key_last_used_at k' = Some (mkDatetime (Sample.after 50) true)
         /\ tbl_api_keys db' !! 0%nat = Some k'
         /\ tbl_api_keys db' !! 1%nat = Some Sample.bob_key
     | _ => False
     end
  /\ APIKeyService_validate_api_key "key-lapsing" (Sample.after 200)
       MoreSamples.db2 = (Ok None, MoreSamples.db2)
  /\ APIKeyService_validate_api_key "key-temp" (Sample.after 200)
       MoreSamples.db1 = (Raise Exc_TypeError, MoreSamples.db1).
Proof.
  assert (Hnd : NoDup (map key_id (tbl_api_keys Sample.db0))).
  { apply (bool_decide_unpack _). by vm_compute. }
  split; [exact Hnd |].
  split; [| split; evaluate].
  pose proof (C10_validate_frame Sample.db0 "key-alice" (Sample.after 50) Hnd)
    as H.
  destruct (APIKeyService_validate_api_key "key-alice" (Sample.after 50)
              Sample.db0) as [[[k'|] | e] db'] eqn:E.
  - destruct H as (k & Hk & _ & Hlast & _ & _ & _ & _ & _ & _ & _ & Hrows).
    injection Hk as <-.
    split; [| split].
    + destruct Hlast as [[Hlast _] | [_ ->]]; [exact Hlast | by vm_compute].
    + by rewrite (Hrows 0%nat Sample.alice_key eq_refl).
    + by rewrite (Hrows 1%nat Sample.bob_key eq_refl).
  - by vm_compute in E.
  - by vm_compute in E.
Defined.

(** C10, the claim as worded fails: a successful validation of the
    administrator's key also rewrites the key's [updated_at], so the
    stored row differs from the old one in more than [last_used_at]. *)
Lemma C10_counterexample_updated_at :
  let now := Sample.after 50 in
  let k' :=
    CRUD.with_updated_at
      (CRUD.with_last_used_at Sample.alice_key (Some (mkDatetime now true)))
      (Some (mkDatetime now true)) in
  APIKeyService_validate_api_key "key-alice" now Sample.db0
  = (Ok (Some k'), CRUD.save_api_key k' Sample.db0)
  /\ CRUD.get (CRUD.save_api_key k' Sample.db0) 1 = Some k'
  /\ key_updated_at Sample.alice_key = None
  /\ key_updated_at k' = Some (mkDatetime now true)
  /\ bool_decide
       (CRUD.with_last_used_at k' (key_last_used_at Sample.alice_key)
        = Sample.alice_key) = false.
Proof. evaluate. Qed.

(** ** API-key lifecycle *)

(** C7. For every caller and key id, when no key has that id or the key's
    owner is not the caller, [get], [delete] and [toggle] (in both
    directions) raise the same 404 "API key not found" and leave the store
    as it was, so a foreign key cannot be told from a missing one; the
    listing for a caller holds only keys whose owner is the caller. *)
Theorem C7_lifecycle_not_found (db : DB) (api_key_id caller : Z)
    (activate : bool) (now : Z) :
  (CRUD.get db api_key_id = None
   \/ exists k, CRUD.get db api_key_id = Some k /\ key_user_id k <> Some caller) ->
  let not_found :=
    Exc_HTTP {| status_code := 404;
                detail := Text "API key not found";
                headers := [] |} in
  APIKeyService_get_api_key api_key_id caller db = (Raise not_found, db)
  /\ APIKeyService_delete_api_key api_key_id caller db = (Raise not_found, db)
  /\ APIKeyService_toggle_api_key api_key_id caller activate now db
     = (Raise not_found, db)
  /\ exists keys,
       APIKeyService_get_user_api_keys caller db = (Ok keys, db)
       /\ forall k, k ∈ keys <->
                    k ∈ tbl_api_keys db /\ key_user_id k = Some caller.
Proof.
  intros Hcase not_found.
  unfold APIKeyService_get_api_key, APIKeyService_delete_api_key,
    APIKeyService_toggle_api_key, APIKeyService_get_user_api_keys,
    bind, query, raise.
  split; [| split; [| split]].
  1-3: destruct Hcase as [-> | (k & -> & Hk)]; [done |];
       by rewrite bool_decide_eq_true_2.
  exists (CRUD.get_by_user db caller). split; [done |]. intros k.
  unfold CRUD.get_by_user. rewrite list_elem_of_In, filter_In.
  by rewrite <- list_elem_of_In, bool_decide_eq_true.
Qed.

(** C7 at the sample store: a foreign key and a missing key give the
    same answers. *)
Lemma C7_lifecycle_not_found_witness :
  (* bob (id 2) asks for alice's key 1, and for the missing key 7 *)
  APIKeyService_get_api_key 1 2 Sample.db0
  = APIKeyService_get_api_key 7 2 Sample.db0
  /\ APIKeyService_delete_api_key 1 2 Sample.db0
     = (Raise (Exc_HTTP {| status_code := 404;
                           detail := Text "API key not found";
                           headers := [] |}), Sample.db0)
  /\ APIKeyService_toggle_api_key 1 2 false Sample.start Sample.db0
     = APIKeyService_toggle_api_key 7 2 false Sample.start Sample.db0.
Proof.
  assert (Hforeign : CRUD.get Sample.db0 1 = None
            \/ exists k, CRUD.get Sample.db0 1 = Some k
                         /\ key_user_id k <> Some 2).
  { right. exists Sample.alice_key. split; [reflexivity | discriminate]. }
  assert (Hmissing : CRUD.get Sample.db0 7 = None
            \/ exists k, CRUD.get Sample.db0 7 = Some k
                         /\ key_user_id k <> Some 2).
  { left. reflexivity. }
  destruct (C7_lifecycle_not_found Sample.db0 1 2 false Sample.start Hforeign)
    as (Hg1 & Hd1 & Ht1 & _).
  destruct (C7_lifecycle_not_found Sample.db0 7 2 false Sample.start Hmissing)
    as (Hg7 & _ & Ht7 & _).
  split; [by rewrite Hg1, Hg7 | split; [exact Hd1 | by rewrite Ht1, Ht7]].
Defined.

(** ** Tokens and principal resolution *)

Section ResolverProperties.

Variable sign : string -> string -> claims -> string.
Variable int_of_str : string -> option Z.
Variable settings : Settings.

Local Abbreviation jwt_decode := (jwt_decode sign int_of_str).
Local Abbreviation create_access_token := (create_access_token sign settings).
Local Abbreviation decode_access_token :=
  (decode_access_token sign int_of_str settings).
Local Abbreviation get_current_user_from_jwt :=
  (get_current_user_from_jwt sign int_of_str settings).
Local Abbreviation get_current_user_jwt_required :=
  (get_current_user_jwt_required sign int_of_str settings).
Local Abbreviation get_current_user_either :=
  (get_current_user_either sign int_of_str settings).

(** The library's reading of a time claim fails with a [JWTClaimsError]
    for a string that is no number, and with the [TypeError] of
    [int(None)] and [int([...])]. *)
Lemma time_claim_cases (v : jvalue) :
  match time_claim int_of_str v with
  | Ok _ => (exists n, v = JInt n) \/ (exists s, v = JStr s)
  | Raise e =>
      (e = Exc_JWT JWTClaimsError /\ exists s, v = JStr s)
      \/ (e = Exc_TypeError /\ (v = JNull \/ exists l, v = JList l))
  end.
Proof.
  unfold time_claim, py_int.
  destruct v as [| n | s | l]; cbn.
  - right. split; [done | by left].
  - left. by exists n.
  - destruct (int_of_str s); [right; by exists s |].
    left. split; [done | by exists s].
  - right. split; [done | right; by exists l].
Qed.

(** A check of a time claim: what it raises, and that it raises a
    [JWTError] when the claim is a number or a string. *)
Lemma time_check_raises (payload : claims) (key : string)
    (check : Z -> result unit) (e : exn) :
  (forall n e', check n = Raise e' -> is_JWTError e' = true) ->
  match payload !! key with
  | None => Ok tt
  | Some v => let? n := time_claim int_of_str v in check n
  end = Raise e ->
  (is_JWTError e = true \/ e = Exc_TypeError)
  /\ (match payload !! key with
      | Some JNull | Some (JList _) => false
      | _ => true
      end = true -> is_JWTError e = true).
Proof.
  intros Hcheck. destruct (payload !! key) as [v|]; [| done].
  pose proof (time_claim_cases v) as Hv. unfold and_then.
  destruct (time_claim int_of_str v) as [n | e'].
  - intros H%Hcheck. split; [by left | done].
  - intros [= <-].
    destruct Hv as [[-> (s & ->)] | [-> [-> | (l & ->)]]];
      (split; [auto | done]).
Qed.

Lemma validate_iat_raises (payload : claims) (e : exn) :
  validate_iat int_of_str payload = Raise e ->
  (is_JWTError e = true \/ e = Exc_TypeError)
  /\ (match payload !! "iat" with
      | Some JNull | Some (JList _) => false
      | _ => true
      end = true -> is_JWTError e = true).
Proof. apply (time_check_raises payload "iat" (fun _ => Ok tt)). done. Qed.

Lemma validate_nbf_raises (payload : claims) (now : Z) (e : exn) :
  validate_nbf int_of_str payload now = Raise e ->
  (is_JWTError e = true \/ e = Exc_TypeError)
  /\ (match payload !! "nbf" with
      | Some JNull | Some (JList _) => false
      | _ => true
      end = true -> is_JWTError e = true).
Proof.
  apply (time_check_raises payload "nbf"
           (fun nbf => if now <? nbf then Raise (Exc_JWT JWTClaimsError)
                       else Ok tt)).
  intros n e'. by destruct (now <? n); [intros [= <-] |].
Qed.

Lemma validate_exp_raises (payload : claims) (now : Z) (e : exn) :
  validate_exp int_of_str payload now = Raise e ->
  (is_JWTError e = true \/ e = Exc_TypeError)
  /\ (match payload !! "exp" with
      | Some JNull | Some (JList _) => false
      | _ => true
      end = true -> is_JWTError e = true).
Proof.
  apply (time_check_raises payload "exp"
           (fun exp => if exp <? now then Raise (Exc_JWT ExpiredSignatureError)
                       else Ok tt)).
  intros n e'. by destruct (n <? now); [intros [= <-] |].
Qed.

(** The checks of the claims that are no instants raise a [JWTError]. *)
Lemma validate_rest_raises (payload : claims) (e : exn) :
  (let? _ := validate_aud payload in
   let? _ := validate_sub payload in
   let? _ := validate_jti payload in
   validate_at_hash payload) = Raise e ->
  is_JWTError e = true.
Proof.
  unfold validate_aud, validate_sub, validate_jti, validate_at_hash, and_then.
  intros H. repeat (case_match; simplify_eq); done.
Qed.

(** A failure of the claim checks is a [JWTError] or a [TypeError], and a
    [JWTError] when the time claims are numbers or strings. *)
Lemma validate_claims_raises (payload : claims) (now : Z) (e : exn) :
  validate_claims int_of_str payload now = Raise e ->
  (is_JWTError e = true \/ e = Exc_TypeError)
  /\ (time_claims_typed payload = true -> is_JWTError e = true).
Proof.
  unfold validate_claims, time_claims_typed. cbn [forallb].
  rewrite !andb_true_iff.
  destruct (validate_iat int_of_str payload) as [[]|e1] eqn:E1; cbn [and_then].
  2: { intros [= <-]. apply validate_iat_raises in E1 as [H1 H2].
       split; [done |]. intros (? & _). by apply H2. }
  destruct (validate_nbf int_of_str payload now) as [[]|e2] eqn:E2;
    cbn [and_then].
  2: { intros [= <-]. apply validate_nbf_raises in E2 as [H1 H2].
       split; [done |]. intros (_ & ? & _). by apply H2. }
  destruct (validate_exp int_of_str payload now) as [[]|e3] eqn:E3;
    cbn [and_then].
  2: { intros [= <-]. apply validate_exp_raises in E3 as [H1 H2].
       split; [done |]. intros (_ & _ & ? & _). by apply H2. }
  intros H%validate_rest_raises. split; [by left | done].
Qed.

(** The checks around an [exp] that is a number. *)
Lemma validate_claims_exp (payload : claims) (now exp : Z) :
  payload !! "exp" = Some (JInt exp) ->
  validate_claims int_of_str (delete "exp" payload) now = Ok tt ->
  validate_claims int_of_str payload now
  = if exp <? now then Raise (Exc_JWT ExpiredSignatureError) else Ok tt.
Proof.
  intros Hexp. unfold validate_claims.
  assert (Hiat : validate_iat int_of_str (delete "exp" payload)
                 = validate_iat int_of_str payload).
  { unfold validate_iat. by rewrite lookup_delete_ne. }
  assert (Hnbf : validate_nbf int_of_str (delete "exp" payload) now
                 = validate_nbf int_of_str payload now).
  { unfold validate_nbf. by rewrite lookup_delete_ne. }
  assert (Haud : validate_aud (delete "exp" payload) = validate_aud payload).
  { unfold validate_aud. by rewrite lookup_delete_ne. }
  assert (Hsub : validate_sub (delete "exp" payload) = validate_sub payload).
  { unfold validate_sub. by rewrite lookup_delete_ne. }
  assert (Hjti : validate_jti (delete "exp" payload) = validate_jti payload).
  { unfold validate_jti. by rewrite lookup_delete_ne. }
  assert (Hath : validate_at_hash (delete "exp" payload)
                 = validate_at_hash payload).
  { unfold validate_at_hash. by rewrite lookup_delete_ne. }
  assert (Hdel : validate_exp int_of_str (delete "exp" payload) now = Ok tt).
  { unfold validate_exp. by rewrite lookup_delete_eq. }
  assert (Hnum : validate_exp int_of_str payload now
                 = if exp <? now then Raise (Exc_JWT ExpiredSignatureError)
                   else Ok tt).
  { unfold validate_exp. by rewrite Hexp. }
  rewrite Hiat, Hnbf, Hdel, Haud, Hsub, Hjti, Hath, Hnum.
  destruct (validate_iat int_of_str payload) as [[]|]; cbn [and_then]; [| done].
  destruct (validate_nbf int_of_str payload now) as [[]|]; cbn [and_then];
    [| done].
  by destruct (exp <? now).
Qed.

(** A payload that passes the checks has a string under [sub], or no
    [sub]. *)
Lemma validate_claims_sub (payload : claims) (now : Z) :
  validate_claims int_of_str payload now = Ok tt ->
  payload !! "sub" = None \/ exists s, payload !! "sub" = Some (JStr s).
Proof.
  unfold validate_claims.
  destruct (validate_iat int_of_str payload) as [[]|]; cbn [and_then]; [| done].
  destruct (validate_nbf int_of_str payload now) as [[]|]; cbn [and_then];
    [| done].
  destruct (validate_exp int_of_str payload now) as [[]|]; cbn [and_then];
    [| done].
  destruct (validate_aud payload) as [[]|]; cbn [and_then]; [| done].
  unfold validate_sub.
  destruct (payload !! "sub") as [[| n | s | l]|]; cbn [and_then]; try done.
  - right. by exists s.
  - by left.
Qed.

(** What decoding a well-formed token comes to. *)
Lemma jwt_decode_compact (alg key signature : string) (payload : claims)
    (algs : list string) (now : Z) :
  jwt_decode (Compact alg payload signature) key algs now
  = if negb (bool_decide (alg ∈ algs)) then Raise (Exc_JWT JWTError_algorithm)
    else if negb (String.eqb signature (sign alg key payload)) then
      Raise (Exc_JWT JWTError_signature)
    else
      let? _ := validate_claims int_of_str payload (now / second) in
      Ok payload.
Proof. done. Qed.

(** Every failure of the library is a [JWTError] or a [TypeError]; it is
    a [JWTError] when the time claims are numbers or strings. *)
Lemma jwt_decode_raises (tok : token) (key : string) (algs : list string)
    (now : Z) (e : exn) :
  jwt_decode tok key algs now = Raise e ->
  (is_JWTError e = true \/ e = Exc_TypeError)
  /\ (time_claims_typed (claims_of tok) = true -> is_JWTError e = true).
Proof.
  destruct tok as [s | alg payload signature].
  { intros [= <-]. split; [by left | done]. }
  rewrite jwt_decode_compact.
  destruct (negb _); [intros [= <-]; split; [by left | done] |].
  destruct (negb _); [intros [= <-]; split; [by left | done] |].
  destruct (validate_claims int_of_str payload (now / second)) eqn:E;
    cbn [and_then]; [done |].
  intros [= <-]. by eapply validate_claims_raises.
Qed.




(** A token that decodes is one the configured secret signed under the
    configured algorithm, and its claims pass the library's checks. *)
Lemma decode_Ok_inv (tok : token) (t : Z) (payload : claims) :
  decode_access_token tok t = Ok payload ->
  tok = Compact (ALGORITHM settings) payload
          (sign (ALGORITHM settings) (SECRET_KEY settings) payload)
  /\ validate_claims int_of_str payload (t / second) = Ok tt.
Proof.
  unfold decode_access_token.
  destruct tok as [s | alg p sg]; [done |]. rewrite jwt_decode_compact.
  destruct (decide (alg ∈ [ALGORITHM settings])) as [Halg | Halg].
  2: by rewrite bool_decide_eq_false_2.
  rewrite bool_decide_eq_true_2 by done. cbn [negb].
  apply list_elem_of_singleton in Halg as ->.
  destruct (String.eqb_spec sg (sign (ALGORITHM settings)
                                     (SECRET_KEY settings) p)) as [-> | ?];
    cbn [negb]; [| done].
  destruct (validate_claims int_of_str p (t / second)) as [[]|] eqn:E;
    cbn [and_then]; [| done].
  by intros [= <-].
Qed.

(** The token path when the token does not decode: a [JWTError] gives
    [None], anything else escapes. *)
Lemma from_jwt_decode_fail (tok : token) (now : Z) (db : DB) (e : exn) :
  decode_access_token tok now = Raise e ->
  get_current_user_from_jwt (Some tok) now db
  = (if is_JWTError e then Ok None else Raise e, db).
Proof.
  intros H. pose proof (jwt_decode_raises _ _ _ _ _ H) as [He _].
  unfold_resolvers. rewrite H.
  destruct He as [He | ->]; [by rewrite He | done].
Qed.

(** What the token path returns once the token has decoded. *)
Lemma from_jwt_decoded (tok : token) (now : Z) (db : DB) (payload : claims) :
  decode_access_token tok now = Ok payload ->
  get_current_user_from_jwt (Some tok) now db
  = (match payload !! "sub" with
     | None | Some JNull => Ok None
     | Some v =>
         match user_by_claim db v with
         | Ok (Some u) => if user_is_active u then Ok (Some u) else Ok None
         | Ok None => Ok None
         | Raise e =>
             if is_JWTError e || is_HTTPException e then Ok None else Raise e
         end
     end, db).
Proof.
  intros H.
  unfold_resolvers.
  rewrite H. unfold AuthService_verify_user_active.
  destruct (payload !! "sub") as [v|]; [| done].
  assert (Hv : v = JNull \/ v <> JNull) by (destruct v; auto).
  destruct Hv as [-> | Hv]; [done |].
  transitivity
    (match user_by_claim db v with
     | Ok (Some u) =>
         if user_is_active u then (Ok (Some u), db) else (Ok None, db)
     | Ok None => (Ok None, db)
     | Raise e =>
         if is_JWTError e || is_HTTPException e then (Ok None, db)
         else (Raise e, db)
     end).
  - destruct v; try done;
      destruct (user_by_claim db _) as [[u|]|e]; try done;
      by destruct (user_is_active u).
  - destruct v; try done;
      destruct (user_by_claim db _) as [[u|]|e]; try done;
      try (by destruct (user_is_active u));
      by destruct (is_JWTError e || is_HTTPException e).
Qed.

(** The token path never writes. *)
Lemma from_jwt_store (credentials : option token) (now : Z) (db : DB) :
  (get_current_user_from_jwt credentials now db).2 = db.
Proof.
  destruct credentials as [tok|]; [| done].
  destruct (decode_access_token tok now) as [payload | e] eqn:E.
  - by rewrite (from_jwt_decoded _ _ _ _ E).
  - by rewrite (from_jwt_decode_fail _ _ _ _ E).
Qed.


(** The key path for a valid key of an inactive owner. *)
Lemma from_apikey_inactive (db : DB) (key : string) (now : Z) (k : APIKey)
    (u : User) :
  key <> "" ->
  CRUD.get_by_key db key = Some k ->
  CRUD.is_valid k now = Ok true ->
  key_user_id k = Some (user_id u) ->
  user_id u <> 0 ->
  user_by_id db (user_id u) = Some u ->
  user_is_active u = false ->
  get_current_user_from_apikey (Some key) now db
  = (Raise (Exc_HTTP {| status_code := 403;
                        detail := Text "Inactive user";
                        headers := [] |}),
     (CRUD.update_last_used k now db).2).
Proof.
  intros Hkey Hk Hv Hown Hid Hu Hact.
  unfold get_current_user_from_apikey, bind.
  change (default "" (Some key)) with key. cbn [truthy_str].
  destruct (String.eqb_spec key ""); [done |]. cbn [negb].
  rewrite validate_api_key_unfold, Hk, Hv.
  destruct (update_last_used_keeps k now db) as (_ & _ & Hown' & _).
  assert (Hus : tbl_users (CRUD.update_last_used k now db).2 = tbl_users db).
  { pose proof (update_last_used_store k now db) as H.
    destruct (CRUD.update_last_used k now db) as [k' db'].
    by destruct H as [-> | ->]. }
  rewrite Hown', Hown. cbn [truthy_int].
  change (default 0 (Some (user_id u))) with (user_id u).
  destruct (Z.eqb_spec (user_id u) 0); [done |]. cbn [negb].
  unfold query, lift, ret, user_by_id in *. rewrite Hus, Hu.
  unfold AuthService_verify_user_active. by rewrite Hact.
Qed.

(** C2 (as amended). For a principal whose [is_active] flag is false: a
    valid key of that principal makes the key path raise 403 "Inactive
    user", through the optional resolver, the key-required wrapper and the
    either-path resolver alike; a token that decodes and whose subject the
    engine reads as the id of that principal makes the optional token
    resolver return [None], which the token-required wrapper reports as
    401 "Could not validate credentials" and the either-path resolver as
    401 "Valid JWT token or API key required". *)
Theorem C2_inactive_principal (u : User) :
  user_is_active u = false ->
  (forall db key now k credentials,
     key <> "" ->
     CRUD.get_by_key db key = Some k ->
     CRUD.is_valid k now = Ok true ->
     key_user_id k = Some (user_id u) ->
     user_id u <> 0 ->
     user_by_id db (user_id u) = Some u ->
     let inactive :=
       Exc_HTTP {| status_code := 403;
                   detail := Text "Inactive user";
                   headers := [] |} in
     let db' := (CRUD.update_last_used k now db).2 in
     get_current_user_from_apikey (Some key) now db = (Raise inactive, db')
     /\ get_current_user_apikey_required (Some key) now db
        = (Raise inactive, db')
     /\ get_current_user_either credentials (Some key) now db
        = (Raise inactive, db'))
  /\ (forall db tok now payload s,
        decode_access_token tok now = Ok payload ->
        payload !! "sub" = Some (JStr s) ->
        integer_eq_text (db_engine db) s = Ok (Some (user_id u)) ->
        user_by_id db (user_id u) = Some u ->
        get_current_user_from_jwt (Some tok) now db = (Ok None, db)
        /\ get_current_user_jwt_required (Some tok) now db
           = (Raise (Exc_HTTP
                       {| status_code := 401;
                          detail := Text "Could not validate credentials";
                          headers := [("WWW-Authenticate", "Bearer")] |}), db)
        /\ get_current_user_either (Some tok) None now db
           = (Raise (Exc_HTTP
                       {| status_code := 401;
                          detail := Text "Valid JWT token or API key required";
                          headers := [] |}), db)).
Proof.
  intros Hact. split.
  - intros db key now k credentials Hkey Hk Hv Hown Hid Hu inactive db'.
    pose proof (from_apikey_inactive db key now k u Hkey Hk Hv Hown Hid Hu Hact)
      as H.
    split; [exact H |].
    assert (Htruthy : truthy_str (Some key) = true).
    { simpl. by destruct (String.eqb_spec key ""). }
    split.
    + unfold get_current_user_apikey_required, bind.
      rewrite Htruthy. cbn [negb]. by rewrite H.
    + unfold_either. rewrite Htruthy. by rewrite H.
  - intros db tok now payload s Hdec Hsub Hread Hu.
    assert (H : get_current_user_from_jwt (Some tok) now db = (Ok None, db)).
    { rewrite (from_jwt_decoded _ _ _ _ Hdec), Hsub. unfold user_by_claim.
      rewrite Hread. cbn [and_then]. by rewrite Hu, Hact. }
    split; [exact H |]. split.
    + unfold_jwt_required. by rewrite H.
    + unfold_either. unfold truthy_str. cbv beta iota. by rewrite H.
Qed.

(** The token [create_access_token] makes, when the lifetime is a
    [timedelta] and the expiry a [datetime]. *)
Lemma create_access_token_Ok (data : claims) (expires_delta : option Z)
    (now : Z) :
  let lifetime :=
    match expires_delta with
    | Some d =>
        if decide (d = 0)
        then ACCESS_TOKEN_EXPIRE_MINUTES settings * (60 * second)
        else d
    | None => ACCESS_TOKEN_EXPIRE_MINUTES settings * (60 * second)
    end in
  timedelta_min <= lifetime <= timedelta_max ->
  datetime_min <= now + lifetime <= datetime_max ->
  create_access_token data expires_delta now
  = Ok (jwt_encode sign
          (<["iat" := JInt (now / second)]>
             (<["exp" := JInt ((now + lifetime) / second)]> data))
          (SECRET_KEY settings) (ALGORITHM settings)).
Proof.
  intros lifetime Hdelta Hdate.
  assert (Hadd : datetime_add (utcnow now) lifetime
                 = Ok {| dt_instant := now + lifetime; dt_aware := false |}).
  { unfold datetime_add. cbn [utcnow dt_instant dt_aware].
    destruct (Z.leb_spec datetime_min (now + lifetime)); [| lia].
    by destruct (Z.leb_spec (now + lifetime) datetime_max); [| lia]. }
  assert (Hmin : timedelta_minutes (ACCESS_TOKEN_EXPIRE_MINUTES settings)
                 = Ok (ACCESS_TOKEN_EXPIRE_MINUTES settings * (60 * second))
                 \/ truthy_timedelta expires_delta = true).
  { unfold timedelta_minutes, lifetime in *.
    destruct expires_delta as [d|]; cbn [truthy_timedelta].
    - destruct (decide (d = 0)) as [-> | Hd].
      + left.
        destruct (Z.leb_spec timedelta_min
                    (ACCESS_TOKEN_EXPIRE_MINUTES settings * (60 * second)));
          [| lia].
        by destruct (Z.leb_spec
                       (ACCESS_TOKEN_EXPIRE_MINUTES settings * (60 * second))
                       timedelta_max); [| lia].
      + right. by destruct (Z.eqb_spec d 0).
    - left.
      destruct (Z.leb_spec timedelta_min
                  (ACCESS_TOKEN_EXPIRE_MINUTES settings * (60 * second)));
        [| lia].
      by destruct (Z.leb_spec
                     (ACCESS_TOKEN_EXPIRE_MINUTES settings * (60 * second))
                     timedelta_max); [| lia]. }
  unfold_codec.
  destruct (truthy_timedelta expires_delta) eqn:Ht.
  - assert (Hl : default 0 expires_delta = lifetime).
    { unfold lifetime. destruct expires_delta as [d|]; [| done].
      cbn in Ht |- *. destruct (Z.eqb_spec d 0); [done |].
      by rewrite decide_False. }
    by rewrite Hl, Hadd.
  - destruct Hmin as [Hmin | ?]; [| done]. rewrite Hmin. cbn [and_then].
    assert (Hl : ACCESS_TOKEN_EXPIRE_MINUTES settings * (60 * second)
                 = lifetime).
    { unfold lifetime. destruct expires_delta as [d|]; [| done].
      cbn in Ht. destruct (Z.eqb_spec d 0); [| done].
      by rewrite decide_True. }
    by rewrite Hl, Hadd.
Qed.

(** Decoding, under the same settings, a token these settings signed. *)
Lemma decode_issued (payload : claims) (now : Z) :
  decode_access_token
    (jwt_encode sign payload (SECRET_KEY settings) (ALGORITHM settings)) now
  = let? _ := validate_claims int_of_str payload (now / second) in
    Ok payload.
Proof.
  unfold decode_access_token, jwt_encode. rewrite jwt_decode_compact.
  rewrite bool_decide_eq_true_2 by (apply list_elem_of_singleton; done).
  cbn [negb]. by rewrite String.eqb_refl.
Qed.


End ResolverProperties.



(** C2, the claim as worded fails on the token path: for the deactivated
    principal of the sample store, a token that decodes and names it makes
    the optional resolver return [None] and the token-required wrapper
    raise 401, not 403 "Inactive user". *)
Lemma C2_counterexample_token_path :
  let payload : claims :=
    <["iat" := JInt 1700000000]>
      (<["exp" := JInt 1700001800]> (<["sub" := JStr "2"]> ∅)) in
  let tok := Sample.signed payload in
  user_is_active Sample.bob = false
  /\ user_by_id Sample.db0 2 = Some Sample.bob
  /\ create_access_token Sample.sign default_settings
       (<["sub" := JStr "2"]> ∅) None Sample.start = Ok tok
  /\ decode_access_token Sample.sign Sample.decimal default_settings tok
       (Sample.after 1) = Ok payload
  /\ get_current_user_from_jwt Sample.sign Sample.decimal default_settings
       (Some tok) (Sample.after 1) Sample.db0
     = (Ok None, Sample.db0)
  /\ get_current_user_jwt_required Sample.sign Sample.decimal
       default_settings (Some tok) (Sample.after 1) Sample.db0
     = (Raise (Exc_HTTP
                 {| status_code := 401;
                    detail := Text "Could not validate credentials";
                    headers := [("WWW-Authenticate", "Bearer")] |}),
        Sample.db0).
Proof. evaluate. Qed.

(** C2 for the deactivated principal of the sample store: the key of
    that principal, and a token that names it. *)
Lemma C2_inactive_principal_witness :
  let tok :=
    Sample.signed
      (<["iat" := JInt 1700000000]>
         (<["exp" := JInt 1700001800]> (<["sub" := JStr "2"]> ∅))) in
  get_current_user_from_apikey (Some "key-bob") (Sample.after 50) Sample.db0
  = (Raise (Exc_HTTP {| status_code := 403;
                        detail := Text "Inactive user";
                        headers := [] |}),
     (CRUD.update_last_used Sample.bob_key (Sample.after 50) Sample.db0).2)
  /\ get_current_user_from_jwt Sample.sign Sample.decimal default_settings
       (Some tok) (Sample.after 1) Sample.db0
     = (Ok None, Sample.db0).
Proof.
  intros tok.
  destruct (C2_inactive_principal Sample.sign Sample.decimal
              default_settings Sample.bob eq_refl) as [Hkey Htok].
  split.
  - apply (Hkey Sample.db0 "key-bob" (Sample.after 50) Sample.bob_key None);
      [discriminate | evaluate | evaluate | reflexivity
      | discriminate | evaluate].
  - eapply (Htok Sample.db0 tok (Sample.after 1) _ "2"); evaluate.
Defined.


(** ** Access-control checks *)

(** ** Access-control checks *)

Lemma all_of_check (s : gset string) (required : list string) :
  forallb (fun perm => bool_decide (perm ∈ s)) required
  = bool_decide (Forall (fun perm => perm ∈ s) required).
Proof.
  induction required as [|p l IH]; cbn [forallb].
  - symmetry. by apply bool_decide_eq_true_2.
  - rewrite IH. destruct (decide (p ∈ s)) as [Hp | Hp].
    + rewrite (bool_decide_eq_true_2 _ Hp). cbn [andb].
      apply bool_decide_ext. split; [by constructor | by inversion 1].
    + rewrite (bool_decide_eq_false_2 _ Hp). cbn [andb].
      symmetry. apply bool_decide_eq_false_2. by inversion 1.
Qed.

Lemma any_of_check (s : gset string) (required : list string) :
  existsb (fun role => bool_decide (role ∈ s)) required
  = bool_decide (Exists (fun role => role ∈ s) required).
Proof.
  induction required as [|r l IH]; cbn [existsb].
  - symmetry. apply bool_decide_eq_false_2. by inversion 1.
  - rewrite IH. destruct (decide (r ∈ s)) as [Hr | Hr].
    + rewrite (bool_decide_eq_true_2 _ Hr). cbn [orb].
      symmetry. apply bool_decide_eq_true_2. by left.
    + rewrite (bool_decide_eq_false_2 _ Hr). cbn [orb].
      apply bool_decide_ext. split; [by right | by inversion 1].
Qed.


Section AccessControl.

Variable sign : string -> string -> claims -> string.
Variable int_of_str : string -> option Z.
Variable settings : Settings.

(** A presented key whose expiry, if any, compares with the clock is
    validated without an exception. *)
Lemma validate_returns (api_key : option string) (now : Z) (db : DB) :
  expiry_comparable api_key db ->
  truthy_str api_key = true ->
  exists r,
    APIKeyService_validate_api_key (default "" api_key) now db
    = (Ok r, (APIKeyService_validate_api_key (default "" api_key) now db).2).
Proof.
  intros Hcmp Hs. rewrite validate_api_key_unfold.
  destruct (CRUD.get_by_key db (default "" api_key)) as [k|] eqn:Hk;
    [| by eexists].
  rewrite is_valid_cases.
  destruct (key_is_active k) eqn:Hact; [| by eexists].
  destruct (key_expires_at k) as [d|] eqn:Hexp; [| by eexists].
  rewrite (Hcmp k d Hs Hk Hact Hexp). destruct (negb _); by eexists.
Qed.

(** The second step of both checks: with the names [S] the key gave, the
    names tested are [S] when there are any, else those of the token. *)
Lemma fallback_to_token (field : string) (credentials : option token)
    (now : Z) (S : gset string) (db : DB) :
  (S = ∅ -> token_readable sign int_of_str settings credentials now field
            = true) ->
  match credentials with
  | Some tok =>
      if bool_decide (S = ∅) then
        try_except
          (let* payload :=
             lift (decode_access_token sign int_of_str settings tok now) in
           let* items :=
             lift (iter_strings (default (JList []) (payload !! field))) in
           ret (S ∪ list_to_set items))
          is_JWTError
          (ret S)
      else ret S
  | None => ret S
  end db
  = (Ok (effective S (token_embedded sign int_of_str settings
                        credentials now field)), db).
Proof.
  unfold token_readable, effective, token_embedded. unfold_monad.
  intros Hread. destruct credentials as [tok|].
  - destruct (decide (S = ∅)) as [-> | Hne].
    + rewrite bool_decide_eq_true_2 by done. specialize (Hread eq_refl).
      destruct (decode_access_token sign int_of_str settings tok now)
        as [payload | e] eqn:E.
      * destruct (payload !! field) as [[| n | s | l]|]; try done; cbn.
        by rewrite (left_id_L ∅ (∪)).
      * by rewrite Hread.
    + by rewrite bool_decide_eq_false_2.
  - by destruct (decide (S = ∅)) as [-> | Hne].
Qed.

Lemma key_step_permissions (api_key : option string) (now : Z) (db : DB) :
  expiry_comparable api_key db ->
  (if truthy_str api_key then
     let* api_key_obj :=
       APIKeyService_validate_api_key (default "" api_key) now in
     match api_key_obj with
     | Some api_key_obj => ret (key_permission_names ∅ api_key_obj)
     | None => ret ∅
     end
   else ret ∅) db
  = (Ok (key_derived_permissions api_key now db),
     after_key_validation api_key now db).
Proof.
  intros Hcmp.
  unfold key_derived_permissions, after_key_validation. unfold_monad.
  destruct (truthy_str api_key) eqn:Hs; [| done].
  destruct (validate_returns api_key now db Hcmp Hs) as [r Hr].
  destruct (APIKeyService_validate_api_key (default "" api_key) now db)
    as [r' db1]. injection Hr as ->. cbn [fst snd].
  destruct r as [k|]; [| done].
  by rewrite key_permission_names_all.
Qed.

Lemma key_step_roles (api_key : option string) (now : Z) (db : DB) :
  expiry_comparable api_key db ->
  (if truthy_str api_key then
     let* api_key_obj :=
       APIKeyService_validate_api_key (default "" api_key) now in
     match api_key_obj with
     | Some api_key_obj =>
         ret (∅ ∪ list_to_set (map role_name (key_roles api_key_obj)))
     | None => ret ∅
     end
   else ret ∅) db
  = (Ok (key_derived_roles api_key now db),
     after_key_validation api_key now db).
Proof.
  intros Hcmp.
  unfold key_derived_roles, after_key_validation. unfold_monad.
  destruct (truthy_str api_key) eqn:Hs; [| done].
  destruct (validate_returns api_key now db Hcmp Hs) as [r Hr].
  destruct (APIKeyService_validate_api_key (default "" api_key) now db)
    as [r' db1]. injection Hr as ->. cbn [fst snd].
  destruct r as [k|]; [| done].
  by rewrite (left_id_L ∅ (∪)).
Qed.

Lemma permission_checker_spec (required_permissions : list string)
    (credentials : option token) (api_key : option string) (now : Z)
    (db : DB) :
  expiry_comparable api_key db ->
  (key_derived_permissions api_key now db = ∅ ->
   token_readable sign int_of_str settings credentials now "permissions"
   = true) ->
  let perms :=
    effective (key_derived_permissions api_key now db)
      (token_embedded sign int_of_str settings credentials now
         "permissions") in
  permission_checker sign int_of_str settings required_permissions
    credentials api_key now db
  = (if decide (Forall (fun perm => perm ∈ perms) required_permissions)
     then Ok true
     else Raise (Exc_HTTP
                   {| status_code := 403;
                      detail := Format "Missing required permissions: "
                                       required_permissions;
                      headers := [] |}),
     after_key_validation api_key now db).
Proof.
  intros Hcmp Hread perms.
  pose proof (key_step_permissions api_key now db Hcmp) as Hkey.
  pose proof (fallback_to_token "permissions" credentials now
                (key_derived_permissions api_key now db)
                (after_key_validation api_key now db) Hread) as Hfall.
  unfold permission_checker. unfold bind in *.
  rewrite Hkey, Hfall. fold perms. rewrite all_of_check.
  destruct (decide (Forall (fun perm => perm ∈ perms) required_permissions)).
  - by rewrite bool_decide_eq_true_2.
  - by rewrite bool_decide_eq_false_2.
Qed.

Lemma role_checker_spec (required_roles : list string)
    (credentials : option token) (api_key : option string) (now : Z)
    (db : DB) :
  expiry_comparable api_key db ->
  (key_derived_roles api_key now db = ∅ ->
   token_readable sign int_of_str settings credentials now "roles" = true) ->
  let held :=
    effective (key_derived_roles api_key now db)
      (token_embedded sign int_of_str settings credentials now "roles") in
  role_checker sign int_of_str settings required_roles
    credentials api_key now db
  = (if decide (Exists (fun role => role ∈ held) required_roles)
     then Ok true
     else Raise (Exc_HTTP
                   {| status_code := 403;
                      detail := Format "Missing required roles: "
                                       required_roles;
                      headers := [] |}),
     after_key_validation api_key now db).
Proof.
  intros Hcmp Hread held.
  pose proof (key_step_roles api_key now db Hcmp) as Hkey.
  pose proof (fallback_to_token "roles" credentials now
                (key_derived_roles api_key now db)
                (after_key_validation api_key now db) Hread) as Hfall.
  unfold role_checker. unfold bind in *.
  rewrite Hkey, Hfall. fold held. rewrite any_of_check.
  destruct (decide (Exists (fun role => role ∈ held) required_roles)).
  - by rewrite bool_decide_eq_true_2.
  - by rewrite bool_decide_eq_false_2.
Qed.


End AccessControl.




(** ** Identity reconciliation *)

Lemma next_id_fresh (ids : list Z) (x : Z) : x ∈ ids -> x < CRUD.next_id ids.
Proof.
  unfold CRUD.next_id. induction ids as [|y ids IH]; simpl.
  - by intros ?%elem_of_nil.
  - intros [-> | Hx]%elem_of_cons; [lia |]. specialize (IH Hx). lia.
Qed.

Lemma find_snoc {A} (f : A -> bool) (l : list A) (x : A) :
  List.find f (l ++ [x])
  = match List.find f l with
    | Some y => Some y
    | None => if f x then Some x else None
    end.
Proof.
  induction l as [|y l IH]; simpl; [done |]. by destruct (f y).
Qed.

(** Saving an object whose primary key no row has changes nothing. *)
Lemma save_fresh {A} (key : A -> Z) (u : A) (l : list A) :
  (forall r, r ∈ l -> key r <> key u) ->
  map (fun r => if bool_decide (key r = key u) then u else r) l = l.
Proof.
  induction l as [|r l IH]; simpl; intros Hfresh; [done |].
  rewrite bool_decide_eq_false_2 by (apply Hfresh; left).
  f_equal. apply IH. intros r' Hr'. apply Hfresh. by right.
Qed.

(** A lookup after the rows were rewritten by [g], when the filter [f]
    cannot tell a row from what [g] makes of it. *)
Lemma find_map_agree {A} (f : A -> bool) (g : A -> A) (l : list A) :
  (forall r, r ∈ l -> f (g r) = f r) ->
  List.find f (map g l) = g <$> List.find f l.
Proof.
  induction l as [|r l IH]; simpl; intros Hfg; [done |].
  rewrite (Hfg r) by left. destruct (f r); [done |].
  apply IH. intros r' Hr'. apply Hfg. by right.
Qed.

Section Reconciliation.

Variable EmailStr : string -> option string.

(** The new principal is stored at the end of the table, with its avatar. *)
Lemma save_new_user (db : DB) (email : string)
    (full_name avatar_url : option string) :
  let '(u0, db1) := CRUD.create_with_role email full_name "user" db in
  with_avatar_url u0 avatar_url = new_user db email full_name avatar_url
  /\ CRUD.save_user (with_avatar_url u0 avatar_url) db1
     = with_users db
         (tbl_users db ++ [new_user db email full_name avatar_url]).
Proof.
  unfold CRUD.create_with_role, CRUD.save_user, with_users. simpl.
  split; [done |]. f_equal.
  rewrite map_app. simpl. rewrite bool_decide_eq_true_2 by done.
  f_equal.
  apply (save_fresh user_id (new_user db email full_name avatar_url)).
  simpl. intros r Hr Heq.
  assert (Hlt : user_id r < CRUD.next_id (map user_id (tbl_users db))).
  { apply next_id_fresh, list_elem_of_fmap. by exists r. }
  lia.
Qed.

(** The function in two steps: the principal, then its link. *)
Lemma reconcile_unfold (provider email : string)
    (full_name avatar_url : option string)
    (provider_user_id access_token : string) (refresh_token : option string)
    (provider_data : option (list (string * string))) (db : DB) :
  AuthService_create_or_get_user_from_oauth EmailStr provider email
    full_name avatar_url provider_user_id access_token refresh_token
    provider_data db
  = match CRUD.get_by_email db email with
    | Some u =>
        (Ok u, link_stored (user_id u) provider provider_user_id access_token
                 refresh_token provider_data db)
    | None =>
        match EmailStr email with
        | Some obj_in_email =>
            let u := new_user db obj_in_email
                       (if truthy_str full_name then full_name
                        else Some (before_at email)) avatar_url in
            (Ok u, link_stored (user_id u) provider provider_user_id
                     access_token refresh_token provider_data
                     (with_users db (tbl_users db ++ [u])))
        | None => (Raise Exc_ValidationError, db)
        end
    end.
Proof.
  unfold AuthService_create_or_get_user_from_oauth, link_stored.
  unfold_monad.
  destruct (CRUD.get_by_email db email) as [u|].
  - by destruct (oauth_account_for db (user_id u) provider).
  - destruct (EmailStr email) as [obj_in_email|]; [| done].
    pose proof (save_new_user db obj_in_email
                  (if truthy_str full_name then full_name
                   else Some (before_at email)) avatar_url) as H.
    destruct (CRUD.create_with_role _ _ _ db) as [u0 db1].
    destruct H as [Hu Hdb]. cbv zeta. rewrite Hdb, Hu.
    by destruct (oauth_account_for _ _ provider).
Qed.

Lemma oauth_account_for_Some (db : DB) (uid : Z) (provider : string)
    (a : OAuthAccount) :
  oauth_account_for db uid provider = Some a ->
  a ∈ tbl_oauth_accounts db /\ oa_user_id a = uid /\ oa_provider a = provider.
Proof.
  intros [Hin Hf]%find_Some_elem. split; [done |].
  apply andb_true_iff in Hf as [H1 H2].
  by apply bool_decide_eq_true in H1, H2.
Qed.

(** What creating or refreshing the link of [(uid, provider)] does to the
    store, in a table of links with a primary key. *)
Lemma link_stored_spec (uid : Z)
    (provider provider_user_id access_token : string)
    (refresh_token : option string)
    (provider_data : option (list (string * string))) (db : DB) :
  NoDup (map oa_id (tbl_oauth_accounts db)) ->
  let db' := link_stored uid provider provider_user_id access_token
               refresh_token provider_data db in
  tbl_users db' = tbl_users db
  /\ tbl_roles db' = tbl_roles db
  /\ tbl_permissions db' = tbl_permissions db
  /\ tbl_api_keys db' = tbl_api_keys db
  /\ NoDup (map oa_id (tbl_oauth_accounts db'))
  /\ (forall uid' provider',
        (uid', provider') <> (uid, provider) ->
        oauth_account_for db' uid' provider'
        = oauth_account_for db uid' provider')
  /\ match oauth_account_for db uid provider with
     | None =>
         let a := new_link db uid provider provider_user_id access_token
                    refresh_token provider_data in
         tbl_oauth_accounts db' = tbl_oauth_accounts db ++ [a]
         /\ oauth_account_for db' uid provider = Some a
     | Some a0 =>
         let a := refreshed_link a0 access_token refresh_token
                    provider_data in
         tbl_oauth_accounts db'
         = map (fun r => if decide (r = a0) then a else r)
               (tbl_oauth_accounts db)
         /\ oauth_account_for db' uid provider = Some a
     end.
Proof.
  intros Hnd db'. subst db'. unfold link_stored.
  destruct (oauth_account_for db uid provider) as [a0|] eqn:E.
  - apply oauth_account_for_Some in E as Ha0. destruct Ha0 as (Hin & Huid & Hprov).
    set (a := refreshed_link a0 access_token refresh_token provider_data).
    assert (Hrows : tbl_oauth_accounts (CRUD.save_oauth_account a db)
                    = map (fun r => if decide (r = a0) then a else r)
                          (tbl_oauth_accounts db)).
    { simpl. apply map_ext_in. intros r Hr%list_elem_of_In.
      destruct (decide (r = a0)) as [-> | Hne].
      - by rewrite bool_decide_eq_true_2.
      - rewrite bool_decide_eq_false_2; [done |]. simpl. intros Hid.
        apply Hne. by eapply (primary_key_inj oa_id). }
    assert (Hfind : forall uid' provider',
              oauth_account_for (CRUD.save_oauth_account a db) uid' provider'
              = (fun r => if decide (r = a0) then a else r)
                  <$> oauth_account_for db uid' provider').
    { intros uid' provider'. unfold oauth_account_for. rewrite Hrows.
      apply find_map_agree. intros r _.
      by destruct (decide (r = a0)) as [-> | Hne]. }
    repeat split; try done.
    + rewrite Hrows, map_map.
      erewrite map_ext; [exact Hnd |]. intros r. cbv beta.
      by destruct (decide (r = a0)) as [-> | Hne].
    + intros uid' provider' Hne. rewrite Hfind.
      destruct (oauth_account_for db uid' provider') as [r|] eqn:Er; [| done].
      simpl. apply oauth_account_for_Some in Er as (_ & Hu & Hp).
      destruct (decide (r = a0)) as [-> | Hr]; [| done]. congruence.
    + rewrite Hfind, E. simpl. by rewrite decide_True.
  - set (a := new_link db uid provider provider_user_id access_token
                refresh_token provider_data).
    repeat split; try done.
    + simpl. rewrite map_app. apply NoDup_app. split; [done |]. split.
      * intros x Hx Hin. apply list_elem_of_singleton in Hin as ->.
        apply next_id_fresh in Hx. simpl in Hx. lia.
      * apply NoDup_singleton.
    + intros uid' provider' Hne. unfold oauth_account_for. simpl.
      rewrite find_snoc.
      destruct (List.find _ (tbl_oauth_accounts db)); [done |]. simpl.
      destruct (decide (uid = uid')) as [-> | Hu].
      * rewrite (bool_decide_eq_false_2 (provider = provider')); [| congruence].
        by rewrite andb_false_r.
      * by rewrite (bool_decide_eq_false_2 (uid = uid')).
    + unfold oauth_account_for in *. simpl. rewrite find_snoc, E. simpl.
      by rewrite !bool_decide_eq_true_2.
Qed.

Lemma get_by_email_users (db db' : DB) (email : string) :
  tbl_users db' = tbl_users db ->
  CRUD.get_by_email db' email = CRUD.get_by_email db email.
Proof. unfold CRUD.get_by_email. by intros ->. Qed.

Lemma oauth_account_for_links (db db' : DB) (uid : Z) (provider : string) :
  tbl_oauth_accounts db' = tbl_oauth_accounts db ->
  oauth_account_for db' uid provider = oauth_account_for db uid provider.
Proof. unfold oauth_account_for. by intros ->. Qed.

(** The first step: the principal the email resolves to, found or
    created, and the store in which its link is then looked up. *)
Lemma principal_step (email : string) (full_name avatar_url : option string)
    (db : DB) :
  let u := match CRUD.get_by_email db email with
           | Some u0 => u0
           | None => new_user db email full_name avatar_url
           end in
  let db1 := match CRUD.get_by_email db email with
             | Some _ => db
             | None => with_users db (tbl_users db ++ [u])
             end in
  user_email u = email
  /\ CRUD.get_by_email db1 email = Some u
  /\ tbl_users db `prefix_of` tbl_users db1
  /\ tbl_roles db1 = tbl_roles db
  /\ tbl_permissions db1 = tbl_permissions db
  /\ tbl_api_keys db1 = tbl_api_keys db
  /\ tbl_oauth_accounts db1 = tbl_oauth_accounts db.
Proof.
  intros u db1. subst u db1.
  destruct (CRUD.get_by_email db email) as [u0|] eqn:E.
  - repeat split; try done.
    apply find_Some_elem in E as [_ H]. by apply bool_decide_eq_true in H.
  - repeat split; try done.
    + unfold CRUD.get_by_email in *. simpl. rewrite find_snoc, E. simpl.
      by rewrite bool_decide_eq_true_2.
    + by apply prefix_app_r.
Qed.

(** The second step, for the principal [u] the email resolves to. *)
Lemma link_step (u : User) (email : string)
    (provider provider_user_id access_token : string)
    (refresh_token : option string)
    (provider_data : option (list (string * string))) (db1 : DB) :
  NoDup (map oa_id (tbl_oauth_accounts db1)) ->
  CRUD.get_by_email db1 email = Some u ->
  let db' := link_stored (user_id u) provider provider_user_id access_token
               refresh_token provider_data db1 in
  CRUD.get_by_email db' email = Some u
  /\ NoDup (map oa_id (tbl_oauth_accounts db'))
  /\ tbl_users db' = tbl_users db1
  /\ tbl_roles db' = tbl_roles db1
  /\ tbl_permissions db' = tbl_permissions db1
  /\ tbl_api_keys db' = tbl_api_keys db1
  /\ (length (tbl_oauth_accounts db1) <= length (tbl_oauth_accounts db'))%nat
  /\ (exists a, oauth_account_for db' (user_id u) provider = Some a
                /\ oa_user_id a = user_id u /\ oa_provider a = provider
                /\ oa_access_token a = Some access_token)
  /\ match oauth_account_for db1 (user_id u) provider with
     | None =>
         exists a,
           tbl_oauth_accounts db' = tbl_oauth_accounts db1 ++ [a]
           /\ oauth_account_for db' (user_id u) provider = Some a
           /\ oa_user_id a = user_id u
           /\ oa_provider a = provider
           /\ oa_provider_user_id a = provider_user_id
           /\ oa_access_token a = Some access_token
           /\ oa_refresh_token a = refresh_token
           /\ oa_provider_data a = provider_data
     | Some a0 =>
         length (tbl_oauth_accounts db') = length (tbl_oauth_accounts db1)
         /\ oauth_account_for db' (user_id u) provider
            = Some (refreshed_link a0 access_token refresh_token
                      provider_data)
         /\ (forall (i : nat) (r : OAuthAccount),
               tbl_oauth_accounts db1 !! i = Some r -> r <> a0 ->
               tbl_oauth_accounts db' !! i = Some r)
     end.
Proof.
  intros Hnd Hu db'.
  destruct (link_stored_spec (user_id u) provider provider_user_id
              access_token refresh_token provider_data db1 Hnd)
    as (Hus & Hro & Hpe & Hke & Hnd' & _ & Hlink).
  fold db' in Hus, Hro, Hpe, Hke, Hnd', Hlink.
  split; [by rewrite (get_by_email_users _ _ _ Hus) |].
  split; [done |]. split; [done |]. split; [done |]. split; [done |].
  split; [done |].
  destruct (oauth_account_for db1 (user_id u) provider) as [a0|] eqn:E.
  - destruct Hlink as [Hrows Hfound].
    apply oauth_account_for_Some in E as (_ & Huid & Hprov).
    split; [rewrite Hrows, length_map; lia |]. split.
    { eexists. split; [exact Hfound |]. by simpl. }
    split; [by rewrite Hrows, length_map |]. split; [done |].
    intros i r Hr Hne. rewrite Hrows, list_lookup_fmap, Hr. simpl.
    by rewrite decide_False.
  - destruct Hlink as [Hrows Hfound].
    split; [rewrite Hrows, length_app; simpl; lia |]. split.
    { eexists. split; [exact Hfound |]. by simpl. }
    eexists. split; [exact Hrows |]. split; [exact Hfound |]. by simpl.
Qed.

(** C9 (as amended). For every profile with a well-formed email, in a
    store whose links have a primary key, reconciliation returns the
    principal the email resolves to.  If there was none it appends one that
    is active, not a superuser, and holds the role named "user" when the
    store has such a role and no role otherwise.  If the principal has no
    link with the provider one is appended carrying the provider tokens
    and profile; if it has one, that link keeps its place and is refreshed
    (the access token always, the refresh token and the profile when the
    login brings a non-empty one) and no link is added.  No principal,
    role, permission or key is removed or changed and no link is removed.
    A later login with the same email through another provider returns
    the same principal, which then has one link for each provider. *)
Theorem C9_reconciliation (provider email : string)
    (full_name avatar_url : option string)
    (provider_user_id access_token : string) (refresh_token : option string)
    (provider_data : option (list (string * string))) (db : DB) :
  EmailStr email = Some email ->
  NoDup (map oa_id (tbl_oauth_accounts db)) ->
  exists u db',
    AuthService_create_or_get_user_from_oauth EmailStr provider email
      full_name avatar_url provider_user_id access_token refresh_token
      provider_data db = (Ok u, db')
    /\ user_email u = email
    /\ CRUD.get_by_email db' email = Some u
    /\ match CRUD.get_by_email db email with
       | Some u0 => u = u0 /\ tbl_users db' = tbl_users db
       | None =>
           tbl_users db' = tbl_users db ++ [u]
           /\ user_is_superuser u = false
           /\ user_is_active u = true
           /\ user_roles u
              = match List.find (fun r => bool_decide (role_name r = "user"))
                                (tbl_roles db) with
                | Some role => [role]
                | None => []
                end
       end
    /\ match oauth_account_for db (user_id u) provider with
       | None =>
           exists a,
             tbl_oauth_accounts db' = tbl_oauth_accounts db ++ [a]
             /\ oauth_account_for db' (user_id u) provider = Some a
             /\ oa_user_id a = user_id u
             /\ oa_provider a = provider
             /\ oa_provider_user_id a = provider_user_id
             /\ oa_access_token a = Some access_token
             /\ oa_refresh_token a = refresh_token
             /\ oa_provider_data a = provider_data
       | Some a0 =>
           length (tbl_oauth_accounts db') = length (tbl_oauth_accounts db)
           /\ oauth_account_for db' (user_id u) provider
              = Some (refreshed_link a0 access_token refresh_token
                        provider_data)
           /\ (forall (i : nat) (r : OAuthAccount),
                 tbl_oauth_accounts db !! i = Some r -> r <> a0 ->
                 tbl_oauth_accounts db' !! i = Some r)
       end
    /\ tbl_users db `prefix_of` tbl_users db'
    /\ tbl_roles db' = tbl_roles db
    /\ tbl_permissions db' = tbl_permissions db
    /\ tbl_api_keys db' = tbl_api_keys db
    /\ (length (tbl_oauth_accounts db) <= length (tbl_oauth_accounts db'))%nat
    /\ (forall (provider2 : string) (full_name2 avatar_url2 : option string)
               (provider_user_id2 access_token2 : string)
               (refresh_token2 : option string)
               (provider_data2 : option (list (string * string))),
          provider2 <> provider ->
          exists db'' a1 a2,
            AuthService_create_or_get_user_from_oauth EmailStr
              provider2 email full_name2 avatar_url2 provider_user_id2
              access_token2 refresh_token2 provider_data2 db' = (Ok u, db'')
            /\ oauth_account_for db'' (user_id u) provider = Some a1
            /\ oauth_account_for db'' (user_id u) provider2 = Some a2
            /\ oa_provider a1 = provider
            /\ oa_provider a2 = provider2
            /\ tbl_users db'' = tbl_users db').
Proof.
  intros Hvalid Hnd.
  set (name := if truthy_str full_name then full_name
               else Some (before_at email)).
  pose proof (principal_step email name avatar_url db) as Hp.
  cbv zeta in Hp.
  pose proof (reconcile_unfold provider email full_name avatar_url
                provider_user_id access_token refresh_token provider_data db)
    as Hrun.
  rewrite Hvalid in Hrun. cbv zeta in Hrun. fold name in Hrun.
  set (u := match CRUD.get_by_email db email with
            | Some u0 => u0
            | None => new_user db email name avatar_url
            end) in *.
  set (db1 := match CRUD.get_by_email db email with
              | Some _ => db
              | None => with_users db (tbl_users db ++ [u])
              end) in *.
  destruct Hp as (Hemail & Hfound & Hprefix & Hro & Hpe & Hke & Hoa).
  assert (Hnd1 : NoDup (map oa_id (tbl_oauth_accounts db1))) by by rewrite Hoa.
  destruct (link_step u email provider provider_user_id access_token
              refresh_token provider_data db1 Hnd1 Hfound)
    as (Hfound' & Hnd' & Hus' & Hro' & Hpe' & Hke' & Hlen & Hex & Hlink).
  set (db' := link_stored (user_id u) provider provider_user_id access_token
                refresh_token provider_data db1) in *.
  exists u, db'.
  split.
  { rewrite Hrun. subst u db1 db'.
    by destruct (CRUD.get_by_email db email). }
  split; [done |]. split; [done |]. split.
  { subst u db1. destruct (CRUD.get_by_email db email) as [u0|].
    - by rewrite Hus'.
    - by rewrite Hus'. }
  split.
  { rewrite (oauth_account_for_links db db1 _ _ Hoa) in Hlink.
    by rewrite Hoa in Hlink. }
  split; [by rewrite Hus' |]. split; [congruence |]. split; [congruence |].
  split; [congruence |]. split; [by rewrite <- Hoa |].
  intros provider2 full_name2 avatar_url2 provider_user_id2 access_token2
    refresh_token2 provider_data2 Hne.
  destruct Hex as (a1 & Ha1 & _ & Hp1 & _).
  destruct (link_step u email provider2 provider_user_id2 access_token2
              refresh_token2 provider_data2 db' Hnd' Hfound')
    as (_ & _ & Hus2 & _ & _ & _ & _ & (a2 & Ha2 & _ & Hp2 & _) & _).
  destruct (link_stored_spec (user_id u) provider2 provider_user_id2
              access_token2 refresh_token2 provider_data2 db' Hnd')
    as (_ & _ & _ & _ & _ & Hkeep & _).
  eexists _, a1, a2. split.
  { rewrite reconcile_unfold, Hfound'. reflexivity. }
  split; [| done].
  rewrite Hkeep; [done |]. congruence.
Qed.

End Reconciliation.

(** C9, the claim as worded fails in a store that has no role named
    "user": [create_with_role] appends the role only [if role:], so the
    new principal is created with no role at all. *)
Lemma C9_counterexample_no_default_role :
  CRUD.get_by_email Sample.empty_db "new@example.com" = None
  /\ (AuthService_create_or_get_user_from_oauth Sample.accept_email "google"
        "new@example.com" (Some "New User") None "g-42" "access-1" None None
        Sample.empty_db).1
     = Ok {| user_id := 1;
             user_email := "new@example.com";
             user_full_name := Some "New User";
             user_avatar_url := None;
             user_is_active := true;
             user_is_superuser := false;
             user_roles := [] |}.
Proof. by vm_compute. Qed.

(** C9 for two logins of the sample administrator, through two
    providers. *)
Lemma C9_reconciliation_witness :
  exists db' db'',
    AuthService_create_or_get_user_from_oauth Sample.accept_email "google"
      "admin@example.com" None None "g-1" "access-1" (Some "refresh-1") None
      Sample.db0 = (Ok Sample.alice, db')
    /\ AuthService_create_or_get_user_from_oauth Sample.accept_email "github"
         "admin@example.com" None None "gh-7" "access-2" None None
         db' = (Ok Sample.alice, db'')
    /\ (exists a1 a2,
          oauth_account_for db'' 1 "google" = Some a1
          /\ oauth_account_for db'' 1 "github" = Some a2
          /\ oa_provider a1 = "google" /\ oa_provider a2 = "github").
Proof.
  destruct (C9_reconciliation Sample.accept_email "google"
              "admin@example.com" None None "g-1" "access-1"
              (Some "refresh-1") None Sample.db0 eq_refl (NoDup_nil_2))
    as (u & db' & Hrun & _ & _ & Hsame & _ & _ & _ & _ & _ & _ & Hnext).
  change (CRUD.get_by_email Sample.db0 "admin@example.com")
    with (Some Sample.alice) in Hsame.
  destruct Hsame as [-> _].
  destruct (Hnext "github" None None "gh-7" "access-2" None None
              ltac:(discriminate))
    as (db'' & a1 & a2 & Hrun2 & Ha1 & Ha2 & Hp1 & Hp2 & _).
  exists db', db''. split; [exact Hrun |]. split; [exact Hrun2 |].
  by exists a1, a2.
Defined.

(** * Further properties *)

(** ** Tokens issued for a user *)

Section UserTokens.

Variable sign : string -> string -> claims -> string.
Variable int_of_str : string -> option Z.
Variable settings : Settings.

(** [create_access_token] signs the data with an [exp] and the [iat] of
    the clock, or fails with the [OverflowError] of the date arithmetic. *)
Lemma create_access_token_cases (data : claims) (expires_delta : option Z)
    (now : Z) :
  (exists expire,
     create_access_token sign settings data expires_delta now
     = Ok (jwt_encode sign
             (<["iat" := JInt (now / second)]>
                (<["exp" := JInt expire]> data))
             (SECRET_KEY settings) (ALGORITHM settings)))
  \/ create_access_token sign settings data expires_delta now
     = Raise Exc_OverflowError.
Proof.
  unfold create_access_token, timedelta_minutes, datetime_add.
  destruct (truthy_timedelta expires_delta).
  - destruct (_ && _); [left; by eexists | by right].
  - destruct (_ && _); cbn [and_then]; [| by right].
    destruct (_ && _); [left; by eexists | by right].
Qed.

(** The token [create_user_token] makes at [now], and its claims. *)
Lemma user_token_claims (u : User) (now : Z) :
  match AuthService_create_user_token sign settings u now with
  | Ok tok =>
      tok = jwt_encode sign (claims_of tok) (SECRET_KEY settings)
                       (ALGORITHM settings)
      /\ claims_of tok !! "sub" = Some (JInt (user_id u))
      /\ claims_of tok !! "email" = Some (JStr (user_email u))
      /\ claims_of tok !! "roles" = Some (JList (map role_name (user_roles u)))
      /\ claims_of tok !! "permissions"
         = Some (JList (elements (token_permissions u)))
      /\ (exists expire, claims_of tok !! "exp" = Some (JInt expire))
      /\ claims_of tok !! "iat" = Some (JInt (now / second))
      /\ claims_of tok !! "nbf" = None
      /\ claims_of tok !! "aud" = None
  | Raise e => e = Exc_OverflowError
  end.
Proof.
  unfold AuthService_create_user_token.
  destruct (timedelta_minutes (ACCESS_TOKEN_EXPIRE_MINUTES settings))
    as [d | e] eqn:Hd; cbn [and_then].
  2: { unfold timedelta_minutes in Hd. destruct (_ && _); by simplify_eq. }
  match goal with
  | |- context [create_access_token sign settings ?data _ _] =>
      destruct (create_access_token_cases data (Some d) now)
        as [[expire ->] | ->]; [| done]
  end.
  unfold jwt_encode. cbn [claims_of].
  repeat split; try by simplify_map_eq.
  exists expire. by simplify_map_eq.
Qed.

(** X1. No token [create_user_token] issues ever decodes: it carries the
    integer [user.id] under [sub], and the library requires a string
    there.  At every instant the library refuses it, as expired once the
    second of its [exp] has passed and with a claims error before; so for
    the token it has just issued the optional token resolver returns
    [None], over every store, the token-required wrapper answers 401
    "Could not validate credentials" and the either-path resolver 401
    "Valid JWT token or API key required". *)
Theorem user_token_is_refused (u : User) (now t : Z) (db : DB) :
  match AuthService_create_user_token sign settings u now with
  | Ok tok =>
      (exists expire,
         claims_of tok !! "exp" = Some (JInt expire)
         /\ decode_access_token sign int_of_str settings tok t
            = Raise (Exc_JWT (if expire <? t / second
                              then ExpiredSignatureError
                              else JWTClaimsError)))
      /\ get_current_user_from_jwt sign int_of_str settings (Some tok) t db
         = (Ok None, db)
      /\ get_current_user_jwt_required sign int_of_str settings (Some tok) t db
         = (Raise (Exc_HTTP
                     {| status_code := 401;
                        detail := Text "Could not validate credentials";
                        headers := [("WWW-Authenticate", "Bearer")] |}), db)
      /\ get_current_user_either sign int_of_str settings (Some tok) None t db
         = (Raise (Exc_HTTP
                     {| status_code := 401;
                        detail := Text "Valid JWT token or API key required";
                        headers := [] |}), db)
  | Raise e => e = Exc_OverflowError
  end.
Proof.
  pose proof (user_token_claims u now) as H.
  destruct (AuthService_create_user_token sign settings u now) as [tok | e];
    [| done].
  destruct H as (Henc & Hsub & _ & _ & _ & (expire & Hexp) & Hiat & Hnbf & Haud).
  assert (Hdec : decode_access_token sign int_of_str settings tok t
                 = Raise (Exc_JWT (if expire <? t / second
                                   then ExpiredSignatureError
                                   else JWTClaimsError))).
  { rewrite Henc at 1. rewrite decode_issued.
    unfold validate_claims, validate_iat, validate_nbf, validate_exp,
      validate_aud, validate_sub.
    rewrite Hiat, Hnbf, Hexp, Haud, Hsub. cbn.
    by destruct (expire <? t / second). }
  assert (Hnone : get_current_user_from_jwt sign int_of_str settings
                    (Some tok) t db = (Ok None, db)).
  { by rewrite (from_jwt_decode_fail _ _ _ _ _ _ _ Hdec). }
  split; [by exists expire |]. split; [exact Hnone |]. split.
  - unfold_jwt_required. by rewrite Hnone.
  - unfold_either. unfold truthy_str. cbv beta iota. by rewrite Hnone.
Qed.

End UserTokens.

(** ** What the resolvers accept *)

Section ResolverSoundness.

Variable sign : string -> string -> claims -> string.
Variable int_of_str : string -> option Z.
Variable settings : Settings.

Lemma user_by_id_Some (db : DB) (n : Z) (u : User) :
  user_by_id db n = Some u -> u ∈ tbl_users db /\ user_id u = n.
Proof.
  intros [Hin H]%find_Some_elem. split; [done |].
  by apply bool_decide_eq_true in H.
Qed.

(** A payload that passes the checks has no [exp] that is a number
    already passed. *)
Lemma validate_claims_not_expired (payload : claims) (now exp : Z) :
  validate_claims int_of_str payload now = Ok tt ->
  payload !! "exp" = Some (JInt exp) -> now <= exp.
Proof.
  unfold validate_claims. intros H Hexp.
  destruct (validate_iat int_of_str payload) as [[]|]; cbn [and_then] in H;
    [| done].
  destruct (validate_nbf int_of_str payload now) as [[]|]; cbn [and_then] in H;
    [| done].
  unfold validate_exp in H. rewrite Hexp in H. cbn in H.
  destruct (Z.ltb_spec exp now); [done | lia].
Qed.

(** X2. The token path authenticates nothing but a stored, active
    principal named by a token the service signed: whenever the optional
    token resolver returns a principal, the store is untouched, the
    principal is a row of the user table with [is_active] true, and the
    credential is a token of the configured algorithm, signed with the
    configured secret, whose claims pass the library's checks (so an
    [exp] that is a number has not passed) and whose [sub] is a string
    that the engine reads as the principal's id. *)
Theorem token_path_sound (credentials : option token) (t : Z) (db db' : DB)
    (u : User) :
  get_current_user_from_jwt sign int_of_str settings credentials t db
  = (Ok (Some u), db') ->
  db' = db
  /\ u ∈ tbl_users db
  /\ user_is_active u = true
  /\ exists payload s,
       credentials
       = Some (Compact (ALGORITHM settings) payload
                 (sign (ALGORITHM settings) (SECRET_KEY settings) payload))
       /\ payload !! "sub" = Some (JStr s)
       /\ integer_eq_text (db_engine db) s = Ok (Some (user_id u))
       /\ validate_claims int_of_str payload (t / second) = Ok tt
       /\ (forall e, payload !! "exp" = Some (JInt e) -> t / second <= e).
Proof.
  destruct credentials as [tok|]; [| done].
  destruct (decode_access_token sign int_of_str settings tok t)
    as [payload | e] eqn:E.
  2: { rewrite (from_jwt_decode_fail _ _ _ _ _ _ _ E).
       by destruct (is_JWTError e). }
  rewrite (from_jwt_decoded _ _ _ _ _ _ _ E).
  apply decode_Ok_inv in E as [-> Hvalid].
  destruct (validate_claims_sub _ _ _ Hvalid) as [-> | (s & Hsub)]; [done |].
  rewrite Hsub. unfold user_by_claim.
  destruct (integer_eq_text (db_engine db) s) as [[n|] | e] eqn:Hn;
    cbn [and_then].
  - destruct (user_by_id db n) as [u0|] eqn:Hu; [| done].
    destruct (user_is_active u0) eqn:Hact; [| done].
    intros [= -> <-].
    apply user_by_id_Some in Hu as [Hin <-].
    repeat split; try done. exists payload, s.
    repeat split; try done.
    intros e He. by eapply validate_claims_not_expired.
  - done.
  - by destruct (is_JWTError e || is_HTTPException e).
Qed.

End ResolverSoundness.

Section Login.

Variable sign : string -> string -> claims -> string.
Variable int_of_str : string -> option Z.
Variable settings : Settings.

(** X3. Issue with a string subject, then resolve: when
    [create_access_token] is given claims whose [sub] is a string that the
    engine reads as the id of a stored, active principal, and the library
    accepts the other registered claims, the token it issues at [now]
    makes the optional token resolver, the token-required wrapper and the
    either-path resolver return that principal at every instant before
    the lifetime has elapsed, without touching the store. *)
Theorem string_subject_authenticates (data : claims)
    (expires_delta : option Z) (s : string) (u : User) (now t : Z) (db : DB) :
  let lifetime :=
    match expires_delta with
    | Some d =>
        if decide (d = 0)
        then ACCESS_TOKEN_EXPIRE_MINUTES settings * (60 * second)
        else d
    | None => ACCESS_TOKEN_EXPIRE_MINUTES settings * (60 * second)
    end in
  let payload :=
    <["iat" := JInt (now / second)]>
      (<["exp" := JInt ((now + lifetime) / second)]> data) in
  timedelta_min <= lifetime <= timedelta_max ->
  datetime_min <= now + lifetime <= datetime_max ->
  validate_claims int_of_str (delete "exp" payload) (t / second) = Ok tt ->
  data !! "sub" = Some (JStr s) ->
  integer_eq_text (db_engine db) s = Ok (Some (user_id u)) ->
  user_by_id db (user_id u) = Some u ->
  user_is_active u = true ->
  t < now + lifetime ->
  exists tok,
    create_access_token sign settings data expires_delta now = Ok tok
    /\ get_current_user_from_jwt sign int_of_str settings (Some tok) t db
       = (Ok (Some u), db)
    /\ get_current_user_jwt_required sign int_of_str settings (Some tok) t db
       = (Ok u, db)
    /\ get_current_user_either sign int_of_str settings (Some tok) None t db
       = (Ok u, db).
Proof.
  intros lifetime payload Hdelta Hdate Hok Hsub Hread Hu Hact Ht.
  assert (Hexp : payload !! "exp" = Some (JInt ((now + lifetime) / second))).
  { unfold payload. rewrite lookup_insert_ne by done. apply lookup_insert_eq. }
  assert (Hsub' : payload !! "sub" = Some (JStr s)).
  { unfold payload. by rewrite !lookup_insert_ne. }
  assert (Hle : t / second <= (now + lifetime) / second)
    by (apply Z.div_le_mono; [done | lia]).
  assert (Hdec : decode_access_token sign int_of_str settings
                   (jwt_encode sign payload (SECRET_KEY settings)
                               (ALGORITHM settings)) t = Ok payload).
  { rewrite decode_issued, (validate_claims_exp _ payload _ _ Hexp Hok).
    by destruct (Z.ltb_spec ((now + lifetime) / second) (t / second)); [lia |]. }
  eexists. split; [by apply create_access_token_Ok |].
  fold lifetime. fold payload.
  assert (H : get_current_user_from_jwt sign int_of_str settings
                (Some (jwt_encode sign payload (SECRET_KEY settings)
                                  (ALGORITHM settings))) t db
              = (Ok (Some u), db)).
  { rewrite (from_jwt_decoded _ _ _ _ _ _ _ Hdec), Hsub'.
    unfold user_by_claim. rewrite Hread. cbn [and_then]. by rewrite Hu, Hact. }
  split; [exact H |]. split.
  - unfold_jwt_required. unfold jwt_encode in *. by rewrite H.
  - unfold_either. unfold truthy_str. cbv beta iota. unfold jwt_encode in *.
    by rewrite H.
Qed.

End Login.

(** ** The key path *)

Lemma update_last_used_frame (k : APIKey) (now : Z) (db : DB) :
  let db' := (CRUD.update_last_used k now db).2 in
  db_engine db' = db_engine db
  /\ tbl_users db' = tbl_users db
  /\ tbl_roles db' = tbl_roles db
  /\ tbl_permissions db' = tbl_permissions db
  /\ tbl_oauth_accounts db' = tbl_oauth_accounts db.
Proof.
  by destruct (update_last_used_cases k now db) as [[_ ->] | [_ ->]].
Qed.

Lemma validate_keeps_users (key : string) (now : Z) (db : DB) :
  tbl_users (APIKeyService_validate_api_key key now db).2 = tbl_users db.
Proof.
  rewrite validate_api_key_unfold.
  destruct (CRUD.get_by_key db key) as [k|]; [| done].
  destruct (CRUD.is_valid k now) as [[|] | e]; try done.
  apply update_last_used_frame.
Qed.

(** The key path, step by step. *)
Lemma from_apikey_unfold (api_key : option string) (now : Z) (db : DB) :
  get_current_user_from_apikey api_key now db
  = if truthy_str api_key then
      let '(api_key_obj, db1) :=
        APIKeyService_validate_api_key (default "" api_key) now db in
      match api_key_obj with
      | Raise e => (Raise e, db1)
      | Ok None => (Ok None, db1)
      | Ok (Some k) =>
          if truthy_int (key_user_id k) then
            match user_by_id db (default 0 (key_user_id k)) with
            | Some u =>
                if user_is_active u then (Ok (Some u), db1)
                else (Raise (Exc_HTTP {| status_code := 403;
                                         detail := Text "Inactive user";
                                         headers := [] |}), db1)
            | None => (Ok None, db1)
            end
          else (Ok None, db1)
      end
    else (Ok None, db).
Proof.
  unfold get_current_user_from_apikey. unfold_monad.
  destruct (truthy_str api_key); [| done]. cbn [negb].
  pose proof (validate_keeps_users (default "" api_key) now db) as Hus.
  destruct (APIKeyService_validate_api_key (default "" api_key) now db)
    as [[[k|] | e] db1]; try done.
  simpl in Hus.
  destruct (truthy_int (key_user_id k)); [| done]. cbn [negb].
  unfold user_by_id. rewrite Hus.
  destruct (List.find _ (tbl_users db)) as [u|]; [| done].
  unfold AuthService_verify_user_active. by destruct (user_is_active u).
Qed.

Lemma truthy_str_Some (api_key : option string) :
  truthy_str api_key = true <-> exists s, api_key = Some s /\ s <> "".
Proof.
  destruct api_key as [s|]; simpl.
  - destruct (String.eqb_spec s ""); simpl.
    + split; [done | intros (s' & [= <-] & ?); done].
    + split; [intros _; by exists s | done].
  - split; [done | intros (s' & ? & _); done].
Qed.

Lemma truthy_int_Some (n : option Z) :
  truthy_int n = true <-> exists i, n = Some i /\ i <> 0.
Proof.
  destruct n as [i|]; simpl.
  - destruct (Z.eqb_spec i 0); simpl.
    + split; [done | intros (i' & [= <-] & ?); done].
    + split; [intros _; by exists i | done].
  - split; [done | intros (i' & ? & _); done].
Qed.

(** When validation returns a key. *)
Lemma validate_api_key_Some (key : string) (now : Z) (db : DB) (k' : APIKey)
    (db' : DB) :
  APIKeyService_validate_api_key key now db = (Ok (Some k'), db') <->
  exists k, CRUD.get_by_key db key = Some k
            /\ CRUD.is_valid k now = Ok true
            /\ CRUD.update_last_used k now db = (k', db').
Proof.
  rewrite validate_api_key_unfold.
  destruct (CRUD.get_by_key db key) as [k|].
  2: { split; [done | intros (k & ? & _); done]. }
  destruct (CRUD.is_valid k now) as [[|] | e] eqn:Hv.
  - destruct (CRUD.update_last_used k now db) as [k1 db1] eqn:Hup.
    cbn [fst snd]. split.
    + intros [= <- <-]. by exists k.
    + intros (k0 & [= <-] & _ & Hup'). rewrite Hup in Hup'.
      by injection Hup' as <- <-.
  - split; [done | intros (k0 & [= <-] & ? & _); congruence].
  - split; [done | intros (k0 & [= <-] & ? & _); congruence].
Qed.

(** X4. The key path returns a principal exactly when a non-empty key
    string was presented, the first stored key with that string is valid
    at [now] (active, and with no expiry or a naive one not yet passed),
    its owner id is neither null nor zero, and the user of that id is
    active; the store it leaves is the one [update_last_used] leaves for
    that key. *)
Theorem key_path_authenticates_iff (api_key : option string) (now : Z)
    (db db' : DB) (u : User) :
  get_current_user_from_apikey api_key now db = (Ok (Some u), db') <->
  exists s k uid,
    api_key = Some s /\ s <> ""
    /\ CRUD.get_by_key db s = Some k
    /\ key_is_active k = true
    /\ (key_expires_at k = None
        \/ exists d, key_expires_at k = Some d /\ dt_aware d = false
                     /\ now <= dt_instant d)
    /\ key_user_id k = Some uid /\ uid <> 0
    /\ user_by_id db uid = Some u
    /\ user_is_active u = true
    /\ db' = (CRUD.update_last_used k now db).2.
Proof.
  rewrite from_apikey_unfold. split.
  - destruct (truthy_str api_key) eqn:Hs; [| done].
    apply truthy_str_Some in Hs as (s & -> & Hs).
    change (default "" (Some s)) with s.
    destruct (APIKeyService_validate_api_key s now db)
      as [[[k'|] | e] db1] eqn:E; try done.
    apply validate_api_key_Some in E as (k & Hk & Hv & Hup).
    destruct (update_last_used_keeps k now db) as (_ & _ & Hown' & _).
    rewrite Hup in Hown'. cbn [fst] in Hown'. rewrite Hown'.
    destruct (truthy_int (key_user_id k)) eqn:Hi; [| done].
    apply truthy_int_Some in Hi as (uid & Hown & Huid). rewrite Hown.
    change (default 0 (Some uid)) with uid.
    destruct (user_by_id db uid) as [u0|] eqn:Hu; [| done].
    destruct (user_is_active u0) eqn:Hact; [| done].
    intros [= -> <-]. apply is_valid_true_iff in Hv as [Hactive Hexp].
    exists s, k, uid. repeat split; try done. by rewrite Hup.
  - intros (s & k & uid & -> & Hs & Hk & Hactive & Hexp & Hown & Huid & Hu
            & Hact & ->).
    rewrite (proj2 (truthy_str_Some (Some s))) by by exists s.
    change (default "" (Some s)) with s.
    assert (Hv : CRUD.is_valid k now = Ok true) by by apply is_valid_true_iff.
    rewrite validate_api_key_unfold, Hk, Hv.
    destruct (update_last_used_keeps k now db) as (_ & _ & Hown' & _).
    rewrite Hown', Hown. cbn [truthy_int].
    change (default 0 (Some uid)) with uid.
    destruct (Z.eqb_spec uid 0); [done |]. cbn [negb]. by rewrite Hu, Hact.
Qed.

(** X5. A valid key whose owner cannot be resolved (a null or zero owner
    id, or no user of that id) authenticates nobody, yet its use is
    recorded all the same: the optional resolver returns [None] and the
    key-required wrapper raises 401 "Invalid or expired API key", both
    leaving the store [update_last_used] leaves for that key. *)
Theorem key_path_stamps_unowned_key (s : string) (now : Z) (db : DB)
    (k : APIKey) :
  s <> "" ->
  CRUD.get_by_key db s = Some k ->
  CRUD.is_valid k now = Ok true ->
  (key_user_id k = None \/ key_user_id k = Some 0
   \/ exists uid, key_user_id k = Some uid /\ user_by_id db uid = None) ->
  let db' := (CRUD.update_last_used k now db).2 in
  get_current_user_from_apikey (Some s) now db = (Ok None, db')
  /\ get_current_user_apikey_required (Some s) now db
     = (Raise (Exc_HTTP {| status_code := 401;
                           detail := Text "Invalid or expired API key";
                           headers := [] |}), db').
Proof.
  intros Hs Hk Hv Hown db'.
  assert (H : get_current_user_from_apikey (Some s) now db = (Ok None, db')).
  { rewrite from_apikey_unfold.
    rewrite (proj2 (truthy_str_Some (Some s))) by by exists s.
    change (default "" (Some s)) with s.
    rewrite validate_api_key_unfold, Hk, Hv.
    destruct (update_last_used_keeps k now db) as (_ & _ & Hown' & _).
    rewrite Hown'.
    destruct Hown as [-> | [-> | (uid & -> & Hu)]]; try done.
    cbn [truthy_int]. change (default 0 (Some uid)) with uid.
    destruct (Z.eqb_spec uid 0); [done |]. cbn [negb]. by rewrite Hu. }
  split; [exact H |].
  unfold get_current_user_apikey_required, bind, raise.
  rewrite (proj2 (truthy_str_Some (Some s))) by by exists s.
  cbn [negb]. by rewrite H.
Qed.

(** ** The either-path resolver *)

Section EitherPath.

Variable sign : string -> string -> claims -> string.
Variable int_of_str : string -> option Z.
Variable settings : Settings.

(** The either-path resolver in terms of the two paths. *)
Lemma either_unfold (credentials : option token)
    (api_key : option string) (now : Z) (db : DB) :
  get_current_user_either sign int_of_str settings credentials api_key now db
  = match get_current_user_from_apikey api_key now db with
    | (Ok (Some u), db1) => (Ok u, db1)
    | (Raise e, db1) => (Raise e, db1)
    | (Ok None, db1) =>
        match get_current_user_from_jwt sign int_of_str settings
                credentials now db1 with
        | (Ok (Some u), _) => (Ok u, db1)
        | (Ok None, _) =>
            (Raise (Exc_HTTP
                      {| status_code := 401;
                         detail := Text "Valid JWT token or API key required";
                         headers := [] |}), db1)
        | (Raise e, _) => (Raise e, db1)
        end
    end.
Proof.
  unfold_either.
  assert (Hfirst : (if truthy_str api_key
                    then get_current_user_from_apikey api_key now
                    else fun db0 => (Ok None, db0)) db
                   = get_current_user_from_apikey api_key now db).
  { destruct (truthy_str api_key) eqn:Hs; [done |].
    by rewrite from_apikey_unfold, Hs. }
  rewrite Hfirst.
  destruct (get_current_user_from_apikey api_key now db) as [[[u|] | e] db1];
    try done.
  pose proof (from_jwt_store sign int_of_str settings credentials now db1)
    as Hstore.
  destruct credentials as [tok|].
  - destruct (get_current_user_from_jwt sign int_of_str settings (Some tok)
                now db1) as [[[u|] | e] db2]; cbn [snd] in Hstore;
      by subst db2.
  - done.
Qed.

(** X6. The either-path resolver tries the key first and the token only
    when the key path returned nobody: a principal the key path returns is
    the answer whatever token comes with it; an exception of the key path
    (403 for an inactive owner) is raised whatever token comes with it;
    when the key path returns [None] the answer is the principal the token
    path returns, and 401 "Valid JWT token or API key required" when it
    returns none.  The store is the one the key path left. *)
Theorem either_path_order (credentials : option token)
    (api_key : option string) (now : Z) (db : DB) :
  (forall u db1,
     get_current_user_from_apikey api_key now db = (Ok (Some u), db1) ->
     get_current_user_either sign int_of_str settings credentials
       api_key now db = (Ok u, db1))
  /\ (forall e db1,
        get_current_user_from_apikey api_key now db = (Raise e, db1) ->
        get_current_user_either sign int_of_str settings
          credentials api_key now db = (Raise e, db1))
  /\ (forall db1,
        get_current_user_from_apikey api_key now db = (Ok None, db1) ->
        (forall u,
           get_current_user_from_jwt sign int_of_str settings
             credentials now db1 = (Ok (Some u), db1) ->
           get_current_user_either sign int_of_str settings
             credentials api_key now db = (Ok u, db1))
        /\ (get_current_user_from_jwt sign int_of_str settings
              credentials now db1 = (Ok None, db1) ->
            get_current_user_either sign int_of_str settings
              credentials api_key now db
            = (Raise (Exc_HTTP
                        {| status_code := 401;
                           detail :=
                             Text "Valid JWT token or API key required";
                           headers := [] |}), db1))
        /\ (forall e,
              get_current_user_from_jwt sign int_of_str settings
                credentials now db1 = (Raise e, db1) ->
              get_current_user_either sign int_of_str settings
                credentials api_key now db = (Raise e, db1))).
Proof.
  rewrite either_unfold. split; [| split].
  - by intros u db1 ->.
  - by intros e db1 ->.
  - intros db1 ->. split; [intros u | split; [| intros e]]; by intros ->.
Qed.

End EitherPath.

Section ActivePrincipals.

Variable sign : string -> string -> claims -> string.
Variable int_of_str : string -> option Z.
Variable settings : Settings.

Lemma from_jwt_Some_active (credentials : option token) (now : Z)
    (db db' : DB) (u : User) :
  get_current_user_from_jwt sign int_of_str settings credentials
    now db = (Ok (Some u), db') ->
  user_is_active u = true /\ u ∈ tbl_users db.
Proof.
  destruct credentials as [tok|]; [| done].
  destruct (decode_access_token sign int_of_str settings tok now)
    as [payload | e] eqn:E.
  - rewrite (from_jwt_decoded _ _ _ _ _ _ _ E).
    destruct (payload !! "sub") as [v|]; [| done].
    assert (Hfound : forall u0, user_by_claim db v = Ok (Some u0) ->
                                u0 ∈ tbl_users db).
    { intros u0. unfold user_by_claim.
      destruct v as [| n | s | l]; try done.
      - intros [= Hu]. by apply find_Some_elem in Hu as [? _].
      - destruct (integer_eq_text (db_engine db) s) as [[n|] | e];
          cbn [and_then]; try done.
        intros [= Hu]. by apply find_Some_elem in Hu as [? _]. }
    destruct (user_by_claim db v) as [[u0|] | e].
    + specialize (Hfound u0 eq_refl).
      destruct (user_is_active u0) eqn:Hact; [| by destruct v].
      destruct v; [done | | |]; by intros [= <- _].
    + by destruct v.
    + destruct (is_JWTError e || is_HTTPException e); by destruct v.
  - rewrite (from_jwt_decode_fail _ _ _ _ _ _ _ E).
    by destruct (is_JWTError e).
Qed.

Lemma from_apikey_Some_active (api_key : option string) (now : Z)
    (db db' : DB) (u : User) :
  get_current_user_from_apikey api_key now db = (Ok (Some u), db') ->
  user_is_active u = true /\ u ∈ tbl_users db.
Proof.
  rewrite from_apikey_unfold.
  destruct (truthy_str api_key); [| done].
  destruct (APIKeyService_validate_api_key _ now db) as [[[k|] | e] db1];
    try done.
  destruct (truthy_int (key_user_id k)); [| done].
  destruct (user_by_id db _) as [u0|] eqn:Hu; [| done].
  apply find_Some_elem in Hu as [Hin _].
  destruct (user_is_active u0) eqn:Hact; [| done].
  by intros [= <- _].
Qed.

(** The key path leaves the user table as it was. *)
Lemma from_apikey_keeps_users (api_key : option string) (now : Z) (db : DB) :
  tbl_users (get_current_user_from_apikey api_key now db).2 = tbl_users db.
Proof.
  rewrite from_apikey_unfold.
  destruct (truthy_str api_key); [| done].
  pose proof (validate_keeps_users (default "" api_key) now db) as Hus.
  destruct (APIKeyService_validate_api_key _ now db) as [[[k|] | e] db1];
    try done.
  cbn [snd] in Hus.
  destruct (truthy_int (key_user_id k)); [| done].
  destruct (user_by_id db _) as [u1|]; [| done].
  by destruct (user_is_active u1).
Qed.

(** X7. No resolver lets an inactive or unknown principal through: a
    principal returned by the token-required wrapper, by the key-required
    wrapper or by the either-path resolver is a row of the user table
    whose [is_active] flag is true. *)
Theorem resolvers_return_active_principals (credentials : option token)
    (api_key : option string) (now : Z) (db : DB) :
  (forall u db',
     get_current_user_jwt_required sign int_of_str settings
       credentials now db = (Ok u, db') ->
     user_is_active u = true /\ u ∈ tbl_users db)
  /\ (forall u db',
        get_current_user_apikey_required api_key now db = (Ok u, db') ->
        user_is_active u = true /\ u ∈ tbl_users db)
  /\ (forall u db',
        get_current_user_either sign int_of_str settings
          credentials api_key now db = (Ok u, db') ->
        user_is_active u = true /\ u ∈ tbl_users db).
Proof.
  split; [| split]; intros u db'.
  - unfold_jwt_required. destruct credentials as [tok|]; [| done].
    destruct (get_current_user_from_jwt _ _ _ (Some tok) now db)
      as [[[u0|] | e] db1] eqn:E; try done.
    intros [= <- <-]. by eapply from_jwt_Some_active.
  - unfold get_current_user_apikey_required, bind, raise, ret.
    destruct (truthy_str api_key); [| done]. cbn [negb].
    destruct (get_current_user_from_apikey api_key now db)
      as [[[u0|] | e] db1] eqn:E; try done.
    intros [= <- <-]. by eapply from_apikey_Some_active.
  - rewrite either_unfold.
    pose proof (from_apikey_keeps_users api_key now db) as Hus.
    destruct (get_current_user_from_apikey api_key now db)
      as [[[u0|] | e] db1] eqn:E; try done.
    + intros [= <- <-]. by eapply from_apikey_Some_active.
    + destruct (get_current_user_from_jwt _ _ _ credentials now db1)
        as [[[u0|] | e] db2] eqn:E2; try done.
      intros [= <- <-].
      apply from_jwt_Some_active in E2 as [Hact Hin]. split; [done |].
      cbn [snd] in Hus. by rewrite <- Hus.
Qed.

End ActivePrincipals.

(** ** The key lifecycle *)

(** Lookups by id and by key string after such a save, when the saved
    row keeps its id and its key string. *)
Lemma lookups_after_save (db : DB) (k k' : APIKey) :
  NoDup (map key_id (tbl_api_keys db)) ->
  k ∈ tbl_api_keys db ->
  key_id k' = key_id k ->
  key_key k' = key_key k ->
  let db' := CRUD.save_api_key k' db in
  let g := fun r => if decide (r = k) then k' else r in
  (forall id, CRUD.get db' id = g <$> CRUD.get db id)
  /\ (forall s, CRUD.get_by_key db' s = g <$> CRUD.get_by_key db s)
  /\ NoDup (map key_id (tbl_api_keys db')).
Proof.
  intros Hnd Hin Hid Hkey db' g.
  pose proof (save_api_key_rows db k k' Hnd Hin Hid) as Hrows.
  fold db' in Hrows. fold g in Hrows.
  split; [| split].
  - intros id. unfold CRUD.get. rewrite Hrows. apply find_map_agree.
    intros r _. unfold g. destruct (decide (r = k)) as [-> | ?]; [| done].
    by rewrite Hid.
  - intros s. unfold CRUD.get_by_key. rewrite Hrows. apply find_map_agree.
    intros r _. unfold g. destruct (decide (r = k)) as [-> | ?]; [| done].
    by rewrite Hkey.
  - rewrite Hrows, map_map. erewrite map_ext; [exact Hnd |].
    intros r. unfold g. cbv beta.
    destruct (decide (r = k)) as [-> | ?]; [| done]. by rewrite Hid.
Qed.

Lemma get_Some_elem (db : DB) (id : Z) (k : APIKey) :
  CRUD.get db id = Some k -> k ∈ tbl_api_keys db /\ key_id k = id.
Proof.
  intros [Hin H]%find_Some_elem. split; [done |].
  by apply bool_decide_eq_true in H.
Qed.

(** What a toggle of a key of the caller does. *)
Lemma toggle_cases (db : DB) (api_key_id owner : Z) (k : APIKey)
    (activate : bool) (now : Z) :
  CRUD.get db api_key_id = Some k ->
  key_user_id k = Some owner ->
  APIKeyService_toggle_api_key api_key_id owner activate now db
  = if decide (key_is_active k = activate) then (Ok k, db)
    else (Ok (toggled_at db k activate now),
          CRUD.save_api_key (toggled_at db k activate now) db).
Proof.
  intros Hget Hown. unfold APIKeyService_toggle_api_key. unfold_monad.
  rewrite Hget. rewrite bool_decide_eq_false_2 by (intros H; by apply H).
  unfold CRUD.activate, CRUD.deactivate, CRUD.commit_update, toggled_at.
  destruct activate; destruct (key_is_active k); done.
Qed.

(** X8. Toggling a key of the caller (key ids unique, the key the first
    with its string) returns the stored key with [is_active] set as
    asked.  When the flag already has that value nothing is written;
    otherwise the row is rewritten in place with the new flag and with
    [updated_at] set by the UPDATE, every other field, row and table
    untouched.  From then on the key string validates never when the key
    was deactivated, and when it was activated exactly if it has no
    expiry or a naive one not yet passed, while a timezone-aware expiry
    makes validation raise [TypeError].  Toggling back restores every
    field of the row but [updated_at]. *)
Theorem toggle_switches_validation (db : DB) (api_key_id owner : Z)
    (k : APIKey) (activate : bool) (now : Z) :
  NoDup (map key_id (tbl_api_keys db)) ->
  CRUD.get db api_key_id = Some k ->
  key_user_id k = Some owner ->
  CRUD.get_by_key db (key_key k) = Some k ->
  exists k' db',
    APIKeyService_toggle_api_key api_key_id owner activate now db = (Ok k', db')
    /\ key_is_active k' = activate
    /\ (key_is_active k = activate -> k' = k /\ db' = db)
    /\ (key_is_active k <> activate ->
        k' = toggled_at db k activate now
        /\ db' = CRUD.save_api_key k' db)
    /\ CRUD.with_updated_at (CRUD.with_is_active k' (key_is_active k))
                            (key_updated_at k) = k
    /\ CRUD.get db' api_key_id = Some k'
    /\ CRUD.get_by_key db' (key_key k) = Some k'
    /\ db_engine db' = db_engine db
    /\ tbl_users db' = tbl_users db
    /\ tbl_roles db' = tbl_roles db
    /\ tbl_permissions db' = tbl_permissions db
    /\ tbl_oauth_accounts db' = tbl_oauth_accounts db
    /\ tbl_api_keys db'
       = map (fun r => if decide (r = k) then k' else r) (tbl_api_keys db)
    /\ (activate = false ->
        forall t, APIKeyService_validate_api_key (key_key k) t db'
                  = (Ok None, db'))
    /\ (activate = true ->
        forall t,
          (exists k'' db'',
             APIKeyService_validate_api_key (key_key k) t db'
             = (Ok (Some k''), db''))
          <-> (key_expires_at k = None
               \/ exists d, key_expires_at k = Some d /\ dt_aware d = false
                            /\ t <= dt_instant d))
    /\ (activate = true ->
        forall t d,
          key_expires_at k = Some d -> dt_aware d = true ->
          APIKeyService_validate_api_key (key_key k) t db'
          = (Raise Exc_TypeError, db'))
    /\ (forall now2,
          exists k2 db2,
            APIKeyService_toggle_api_key api_key_id owner (key_is_active k)
              now2 db' = (Ok k2, db2)
            /\ CRUD.with_updated_at k2 (key_updated_at k) = k).
Proof.
  intros Hnd Hget Hown Hbykey.
  apply get_Some_elem in Hget as Helem. destruct Helem as [Hin Hid].
  rewrite (toggle_cases db api_key_id owner k activate now Hget Hown).
  set (k' := if decide (key_is_active k = activate) then k
             else toggled_at db k activate now).
  set (db' := if decide (key_is_active k = activate) then db
              else CRUD.save_api_key (toggled_at db k activate now) db).
  assert (Hact' : key_is_active k' = activate).
  { unfold k'. by destruct (decide (key_is_active k = activate)). }
  assert (Hexp' : key_expires_at k' = key_expires_at k).
  { unfold k'. by destruct (decide (key_is_active k = activate)). }
  assert (Hown' : key_user_id k' = Some owner).
  { unfold k'. by destruct (decide (key_is_active k = activate)). }
  assert (Hrows : tbl_api_keys db'
                  = map (fun r => if decide (r = k) then k' else r)
                        (tbl_api_keys db)).
  { unfold db', k'. destruct (decide (key_is_active k = activate)).
    - rewrite <- (map_id (tbl_api_keys db)) at 1. apply map_ext.
      intros r. by destruct (decide (r = k)).
    - by apply save_api_key_rows. }
  assert (Hget' : CRUD.get db' api_key_id = Some k').
  { unfold db', k'. destruct (decide (key_is_active k = activate)); [done |].
    destruct (lookups_after_save db k (toggled_at db k activate now) Hnd Hin
                eq_refl eq_refl) as (Hg & _ & _).
    rewrite Hg, Hget. cbn. by rewrite decide_True. }
  assert (Hbykey' : CRUD.get_by_key db' (key_key k) = Some k').
  { unfold db', k'. destruct (decide (key_is_active k = activate)); [done |].
    destruct (lookups_after_save db k (toggled_at db k activate now) Hnd Hin
                eq_refl eq_refl) as (_ & Hg & _).
    rewrite Hg, Hbykey. cbn. by rewrite decide_True. }
  exists k', db'.
  split; [unfold k', db'; by destruct (decide (key_is_active k = activate)) |].
  split; [exact Hact' |].
  split.
  { intros Heq. unfold k', db'. by rewrite !decide_True. }
  split.
  { intros Hne. unfold k', db'. by rewrite !decide_False. }
  split.
  { unfold k', toggled_at.
    destruct (decide (key_is_active k = activate)); by destruct k. }
  split; [exact Hget' |]. split; [exact Hbykey' |].
  split; [unfold db'; by destruct (decide (key_is_active k = activate)) |].
  split; [unfold db'; by destruct (decide (key_is_active k = activate)) |].
  split; [unfold db'; by destruct (decide (key_is_active k = activate)) |].
  split; [unfold db'; by destruct (decide (key_is_active k = activate)) |].
  split; [unfold db'; by destruct (decide (key_is_active k = activate)) |].
  split; [exact Hrows |].
  split.
  { intros -> t. rewrite validate_api_key_unfold, Hbykey', is_valid_cases.
    by rewrite Hact'. }
  split.
  { intros -> t. rewrite validate_api_key_unfold, Hbykey'.
    pose proof (is_valid_true_iff k' t) as Hiff.
    rewrite Hact', Hexp' in Hiff.
    destruct (CRUD.is_valid k' t) as [[|] | e].
    - split; [intros _; by apply Hiff | intros _; by eexists _, _].
    - split; [by intros (? & ? & ?) |].
      intros H. pose proof (proj2 Hiff (conj eq_refl H)) as Habs. done.
    - split; [by intros (? & ? & ?) |].
      intros H. pose proof (proj2 Hiff (conj eq_refl H)) as Habs. done. }
  split.
  { intros -> t d Hexp Ha. rewrite validate_api_key_unfold, Hbykey'.
    by rewrite is_valid_cases, Hact', Hexp', Hexp, Ha. }
  intros now2.
  rewrite (toggle_cases db' api_key_id owner k' (key_is_active k) now2
             Hget' Hown').
  destruct (decide (key_is_active k' = key_is_active k)) as [Hsame | Hdiff].
  - exists k', db'. split; [done |]. unfold k', toggled_at in *.
    destruct (decide (key_is_active k = activate)); [by destruct k |].
    cbn in Hsame. by subst activate.
  - eexists _, _. split; [done |]. unfold k', toggled_at.
    destruct (decide (key_is_active k = activate)); by destruct k.
Qed.

Lemma find_filter_out {A} (f keep : A -> bool) (l : list A) :
  (forall r, r ∈ l -> f r = true -> keep r = false) ->
  List.find f (List.filter keep l) = None.
Proof.
  induction l as [|r l IH]; simpl; intros H; [done |].
  destruct (keep r) eqn:Hk; simpl.
  - destruct (f r) eqn:Hf.
    + rewrite (H r) in Hk; [done | left | done].
    + apply IH. intros r' Hr'. apply H. by right.
  - apply IH. intros r' Hr'. apply H. by right.
Qed.

(** Rows of a table with a unique column: equal values, equal rows. *)
Lemma unique_column_inj {A B} (f : A -> B) (l : list A) (x y : A) :
  NoDup (map f l) -> x ∈ l -> y ∈ l -> f x = f y -> x = y.
Proof.
  induction l as [|a l IH]; simpl; intros Hnd Hx Hy Heq.
  - by apply elem_of_nil in Hx.
  - apply NoDup_cons in Hnd as [Hna Hnd].
    apply elem_of_cons in Hx as [-> | Hx]; apply elem_of_cons in Hy as [-> | Hy].
    + done.
    + exfalso. apply Hna. rewrite Heq. apply list_elem_of_fmap. by exists y.
    + exfalso. apply Hna. rewrite <- Heq. apply list_elem_of_fmap. by exists x.
    + by apply IH.
Qed.

(** X9. Deleting a key of the caller removes the rows of that id and
    nothing else: afterwards the id is unknown to [get] (404 for every
    caller), the remaining rows are the old ones in their order, the other
    tables are untouched, and, key strings being unique, the deleted key's
    string no longer validates. *)
Theorem delete_removes_key (db : DB) (api_key_id owner : Z) (k : APIKey) :
  CRUD.get db api_key_id = Some k ->
  key_user_id k = Some owner ->
  exists db',
    APIKeyService_delete_api_key api_key_id owner db = (Ok tt, db')
    /\ CRUD.get db' api_key_id = None
    /\ (forall caller,
          APIKeyService_get_api_key api_key_id caller db'
          = (Raise (Exc_HTTP {| status_code := 404;
                                detail := Text "API key not found";
                                headers := [] |}), db'))
    /\ tbl_api_keys db'
       = List.filter (fun r => negb (bool_decide (key_id r = api_key_id)))
                     (tbl_api_keys db)
    /\ (forall r, r ∈ tbl_api_keys db' <->
                  r ∈ tbl_api_keys db /\ key_id r <> api_key_id)
    /\ tbl_users db' = tbl_users db
    /\ tbl_roles db' = tbl_roles db
    /\ tbl_permissions db' = tbl_permissions db
    /\ tbl_oauth_accounts db' = tbl_oauth_accounts db
    /\ (NoDup (map key_key (tbl_api_keys db)) ->
        forall now,
          APIKeyService_validate_api_key (key_key k) now db'
          = (Ok None, db')).
Proof.
  intros Hget Hown.
  apply get_Some_elem in Hget as Helem. destruct Helem as [Hin Hid].
  exists (CRUD.remove api_key_id db).
  assert (Hgone : CRUD.get (CRUD.remove api_key_id db) api_key_id = None).
  { unfold CRUD.get, CRUD.remove. simpl. apply find_filter_out.
    intros r _ ->. done. }
  split.
  { unfold APIKeyService_delete_api_key. unfold_monad. rewrite Hget.
    by rewrite bool_decide_eq_false_2 by (intros H; by apply H). }
  split; [exact Hgone |]. split.
  { intros caller. unfold APIKeyService_get_api_key. unfold_monad.
    by rewrite Hgone. }
  split; [done |]. split.
  { intros r. simpl. rewrite list_elem_of_In, filter_In, <- list_elem_of_In.
    by rewrite negb_true_iff, bool_decide_eq_false. }
  split; [done |]. split; [done |]. split; [done |]. split; [done |].
  intros Hnd now. rewrite validate_api_key_unfold.
  assert (Hnone : CRUD.get_by_key (CRUD.remove api_key_id db) (key_key k)
                  = None); [| by rewrite Hnone].
  unfold CRUD.get_by_key, CRUD.remove. simpl. apply find_filter_out.
  intros r Hr Hkey. apply bool_decide_eq_true in Hkey.
  assert (r = k) as -> by by eapply (unique_column_inj key_key).
  by rewrite bool_decide_eq_true_2.
Qed.

Lemma find_first_elem {A} (f : A -> bool) (l : list A) (x : A) :
  x ∈ l -> f x = true -> is_Some (List.find f l).
Proof.
  induction l as [|y l IH]; simpl; [by intros ?%elem_of_nil |].
  intros [-> | Hx]%elem_of_cons Hf.
  - by rewrite Hf.
  - destruct (f y); [done | by apply IH].
Qed.

(** X10. The keys listed for a caller are exactly the keys [get] hands to
    that caller (key ids unique): a key is in the caller's listing if and
    only if fetching its id as that caller returns it. *)
Theorem listed_keys_are_gettable (db : DB) (caller : Z) (k : APIKey) :
  NoDup (map key_id (tbl_api_keys db)) ->
  (exists keys,
     APIKeyService_get_user_api_keys caller db = (Ok keys, db) /\ k ∈ keys)
  <-> APIKeyService_get_api_key (key_id k) caller db = (Ok k, db).
Proof.
  intros Hnd.
  unfold APIKeyService_get_user_api_keys, APIKeyService_get_api_key.
  unfold_monad. unfold CRUD.get_by_user. split.
  - intros (keys & [= <-] & Hk).
    apply list_elem_of_In, filter_In in Hk as [Hin%list_elem_of_In Hown].
    apply bool_decide_eq_true in Hown.
    destruct (find_first_elem (fun r => bool_decide (key_id r = key_id k))
                (tbl_api_keys db) k Hin) as [k0 Hk0];
      [by apply bool_decide_eq_true_2 |].
    unfold CRUD.get. rewrite Hk0.
    apply find_Some_elem in Hk0 as [Hin0 Hid0].
    apply bool_decide_eq_true in Hid0.
    assert (k0 = k) as -> by by eapply (primary_key_inj key_id).
    by rewrite bool_decide_eq_false_2 by (intros H; by apply H).
  - destruct (CRUD.get db (key_id k)) as [k0|] eqn:Hget; [| done].
    destruct (decide (key_user_id k0 = Some caller)) as [Hown | Hown].
    + rewrite bool_decide_eq_false_2 by (intros H; by apply H).
      intros [= ->]. eexists. split; [done |].
      apply get_Some_elem in Hget as [Hin _].
      apply list_elem_of_In, filter_In. split; [by apply list_elem_of_In |].
      by apply bool_decide_eq_true_2.
    + by rewrite bool_decide_eq_true_2.
Qed.

(** The stored row after a use, under a primary key. *)
Lemma update_last_used_lookup (db : DB) (k : APIKey) (now : Z) :
  NoDup (map key_id (tbl_api_keys db)) ->
  k ∈ tbl_api_keys db ->
  CRUD.get_by_key db (key_key k) = Some k ->
  let k' := (CRUD.update_last_used k now db).1 in
  let db' := (CRUD.update_last_used k now db).2 in
  CRUD.get_by_key db' (key_key k) = Some k'
  /\ k' ∈ tbl_api_keys db'
  /\ NoDup (map key_id (tbl_api_keys db'))
  /\ db_engine db' = db_engine db.
Proof.
  intros Hnd Hin Hk.
  destruct (update_last_used_cases k now db) as [[_ ->] | [_ ->]];
    cbn [fst snd]; [done |].
  destruct (lookups_after_save db k (used_at db k now) Hnd Hin eq_refl eq_refl)
    as (_ & Hbykey & Hnd').
  assert (Hfound : CRUD.get_by_key (CRUD.save_api_key (used_at db k now) db)
                     (key_key k) = Some (used_at db k now)).
  { rewrite Hbykey, Hk. cbn. by rewrite decide_True. }
  split; [exact Hfound |]. split; [| done].
  by apply get_by_key_elem in Hfound as [? _].
Qed.

(** X11. Use does not wear a key out (key ids unique): after a successful
    validation the stored row under that string is the returned key,
    which differs from the old row in [last_used_at] and [updated_at]
    only and is valid at exactly the same instants; so every later
    presentation at an instant where the key is valid succeeds again,
    records that instant and changes no other field. *)
Theorem validation_repeats (db db' : DB) (s : string) (now : Z)
    (k' : APIKey) :
  NoDup (map key_id (tbl_api_keys db)) ->
  APIKeyService_validate_api_key s now db = (Ok (Some k'), db') ->
  CRUD.get_by_key db' s = Some k'
  /\ (key_last_used_at k' = Some (CRUD.stored db (utcnow now))
      \/ key_last_used_at k' = Some (utcnow now))
  /\ (forall k, CRUD.get_by_key db s = Some k ->
        (forall t, CRUD.is_valid k' t = CRUD.is_valid k t)
        /\ CRUD.with_updated_at
             (CRUD.with_last_used_at k' (key_last_used_at k))
             (key_updated_at k) = k)
  /\ (forall now2,
        CRUD.is_valid k' now2 = Ok true ->
        exists k'' db'',
          APIKeyService_validate_api_key s now2 db' = (Ok (Some k''), db'')
          /\ CRUD.get_by_key db'' s = Some k''
          /\ (key_last_used_at k'' = Some (CRUD.stored db (utcnow now2))
              \/ key_last_used_at k'' = Some (utcnow now2))
          /\ CRUD.with_updated_at
               (CRUD.with_last_used_at k'' (key_last_used_at k'))
               (key_updated_at k') = k').
Proof.
  intros Hnd E.
  assert (Hstamp : forall (d : DB) (k : APIKey) (t : Z),
            key_last_used_at (CRUD.update_last_used k t d).1
            = Some (CRUD.stored d (utcnow t))
            \/ key_last_used_at (CRUD.update_last_used k t d).1
               = Some (utcnow t)).
  { intros d k t.
    destruct (update_last_used_cases k t d) as [[H ->] | [_ ->]];
      [by right | by left]. }
  apply validate_api_key_Some in E as (k & Hk & Hv & Hup).
  apply get_by_key_elem in Hk as Helem. destruct Helem as [Hin Hkey].
  rewrite <- Hkey in Hk.
  destruct (update_last_used_lookup db k now Hnd Hin Hk)
    as (Hfound & Hin' & Hnd' & Heng).
  destruct (update_last_used_keeps k now db)
    as (_ & Hkey' & _ & Hact' & Hexp' & _ & _ & Hrest).
  pose proof (Hstamp db k now) as Hlast.
  rewrite Hup in Hfound, Hin', Hnd', Heng, Hkey', Hact', Hexp', Hrest, Hlast.
  cbn [fst snd] in *. rewrite Hkey in Hfound.
  split; [exact Hfound |]. split; [exact Hlast |]. split.
  { intros k0 Hk0. rewrite <- Hkey, Hk in Hk0. injection Hk0 as <-.
    split; [| exact Hrest].
    intros t. by rewrite !is_valid_cases, Hact', Hexp'. }
  intros now2 Hv2.
  assert (Hk' : CRUD.get_by_key db' (key_key k') = Some k').
  { by rewrite Hkey', Hkey. }
  destruct (update_last_used_lookup db' k' now2 Hnd' Hin' Hk')
    as (Hfound2 & _ & _ & _).
  destruct (update_last_used_keeps k' now2 db')
    as (_ & _ & _ & _ & _ & _ & _ & Hrest2).
  pose proof (Hstamp db' k' now2) as Hlast2.
  cbn zeta in Hfound2, Hrest2.
  exists (CRUD.update_last_used k' now2 db').1,
         (CRUD.update_last_used k' now2 db').2.
  split.
  { rewrite validate_api_key_unfold, Hfound, Hv2. done. }
  split; [by rewrite Hkey', Hkey in Hfound2 |].
  split; [| exact Hrest2].
  unfold CRUD.stored in *. by rewrite Heng in Hlast2.
Qed.

(** ** Role membership *)

Lemma with_roles_same (u : User) : with_roles u (user_roles u) = u.
Proof. by destruct u. Qed.

Lemma list_remove_first_snoc {A} `{EqDecision A} (x : A) (l : list A) :
  x ∉ l -> list_remove_first x (l ++ [x]) = l.
Proof.
  induction l as [|y l IH]; simpl; intros Hx.
  - by rewrite decide_True.
  - rewrite decide_False by (intros ->; apply Hx; left).
    f_equal. apply IH. intros H. apply Hx. by right.
Qed.

Lemma list_remove_first_subseteq {A} `{EqDecision A} (x : A) (l : list A) :
  list_remove_first x l ⊆ l.
Proof.
  induction l as [|y l IH]; simpl; [done |].
  destruct (decide (x = y)).
  - intros z Hz. by right.
  - intros z [-> | Hz]%elem_of_cons; [left | right; by apply IH].
Qed.

Lemma list_remove_first_NoDup {A} `{EqDecision A} (x : A) (l : list A) :
  NoDup l -> x ∉ list_remove_first x l.
Proof.
  induction l as [|y l IH]; simpl; intros Hnd; [by intros ?%elem_of_nil |].
  apply NoDup_cons in Hnd as [Hy Hnd].
  destruct (decide (x = y)) as [-> | Hne]; [done |].
  intros [-> | Hx]%elem_of_cons; [done | by apply IH].
Qed.

(** With role ids unique, the roles loaded for a list of stored roles are
    the roles of the list. *)
Lemma elem_of_load_roles (db : DB) (attached : list Role) (x : Role) :
  NoDup (map role_id (tbl_roles db)) ->
  (forall r, r ∈ attached -> r ∈ tbl_roles db) ->
  x ∈ load_roles db attached <-> x ∈ attached.
Proof.
  intros Hnd Hstored. unfold load_roles.
  rewrite list_elem_of_In, filter_In, <- list_elem_of_In, bool_decide_eq_true.
  rewrite list_elem_of_fmap. split.
  - intros (Hx & r & Hid & Hr).
    assert (x = r) as ->; [| done].
    eapply (primary_key_inj role_id); eauto.
  - intros Hx. split; [by apply Hstored |]. by exists x.
Qed.

(** X12. In a store with unique role ids, for a stored role and a user
    whose roles are stored: after [add_role] the user holds the role
    besides those it held, and its permission set has grown by exactly
    the role's permissions; for a role already held nothing is written,
    so adding twice is adding once.  [remove_role] of a role not held
    writes nothing; removal never adds a role or a permission, and with no
    role listed twice the removed role is gone and the others stay. *)
Theorem add_and_remove_role (u : User) (r : Role) (db : DB) :
  NoDup (map role_id (tbl_roles db)) ->
  r ∈ tbl_roles db ->
  (forall x, x ∈ user_roles u -> x ∈ tbl_roles db) ->
  let '(u1, db1) := add_role u r db in
  let '(u2, db2) := remove_role u r db in
  (forall x, x ∈ user_roles u1 <-> x ∈ user_roles u \/ x = r)
  /\ User_permissions u1
     = User_permissions u ∪ list_to_set (role_permissions r)
  /\ add_role u1 r db1 = (u1, db1)
  /\ (r ∈ user_roles u -> u1 = u /\ db1 = db)
  /\ (r ∉ user_roles u -> db1 = CRUD.save_user u1 db)
  /\ (r ∉ user_roles u -> u2 = u /\ db2 = db)
  /\ (r ∈ user_roles u -> db2 = CRUD.save_user u2 db)
  /\ (forall x, x ∈ user_roles u2 -> x ∈ user_roles u)
  /\ User_permissions u2 ⊆ User_permissions u
  /\ (NoDup (user_roles u) ->
      forall x, x ∈ user_roles u2 <-> x ∈ user_roles u /\ x <> r).
Proof.
  intros Hnd Hr Hstored.
  unfold add_role, remove_role.
  assert (Hremoved : forall x,
            x ∈ load_roles db (list_remove_first r (user_roles u))
            <-> x ∈ list_remove_first r (user_roles u)).
  { intros x. apply elem_of_load_roles; [done |].
    intros y Hy. by apply Hstored, (list_remove_first_subseteq r). }
  assert (Hadded : forall x,
            x ∈ load_roles db (user_roles u ++ [r])
            <-> x ∈ user_roles u \/ x = r).
  { intros x. rewrite elem_of_load_roles; [| done |].
    - by rewrite elem_of_app, list_elem_of_singleton.
    - intros y [Hy | ->%list_elem_of_singleton]%elem_of_app; auto. }
  destruct (decide (r ∈ user_roles u)) as [Hin | Hnin].
  - rewrite !bool_decide_eq_true_2 by done. cbn [negb].
    cbn [user_roles with_roles].
    split; [intros x; split; [by left | by intros [? | ->]] |]. split.
    { apply set_eq. intros p.
      rewrite elem_of_union, elem_of_list_to_set, !elem_of_User_permissions.
      split; [by left | intros [H | H]; [done | by exists r]]. }
    split; [by rewrite bool_decide_eq_true_2 |].
    split; [done |]. split; [done |]. split; [done |]. split; [done |].
    split.
    { intros x Hx%Hremoved. by apply (list_remove_first_subseteq r). }
    split.
    { intros p. rewrite !elem_of_User_permissions. cbn [user_roles with_roles].
      intros (r' & Hr'%Hremoved & Hp). exists r'. split; [| done].
      by apply (list_remove_first_subseteq r). }
    intros Hnodup x. rewrite Hremoved. split.
    + intros Hx. split; [by apply (list_remove_first_subseteq r) |].
      intros ->. by apply (list_remove_first_NoDup r (user_roles u)).
    + intros [Hx Hne]. clear -Hx Hne.
      induction (user_roles u) as [|y l IH]; [done |]. cbn.
      destruct (decide (r = y)) as [-> | ?].
      * by apply elem_of_cons in Hx as [? | ?].
      * apply elem_of_cons in Hx as [-> | Hx]; [left | right; by apply IH].
  - rewrite !bool_decide_eq_false_2 by done. cbn [negb].
    cbn [user_roles with_roles].
    split; [exact Hadded |]. split.
    { apply set_eq. intros p.
      rewrite elem_of_union, elem_of_list_to_set, !elem_of_User_permissions.
      cbn [user_roles with_roles]. split.
      - intros (r' & [Hr' | ->]%Hadded & Hp).
        + left. by exists r'.
        + by right.
      - intros [(r' & Hr' & Hp) | Hp].
        + exists r'. split; [apply Hadded; by left | done].
        + exists r. split; [apply Hadded; by right | done]. }
    split.
    { cbn [user_roles with_roles]. rewrite bool_decide_eq_true_2; [done |].
      apply Hadded. by right. }
    split; [done |]. split; [done |]. split; [done |]. split; [done |].
    split; [done |]. split; [done |].
    intros _ x. split; [| by intros [? _]].
    intros Hx. split; [done |]. by intros ->.
Qed.

(** ** Key creation *)

Lemma truthy_list_ids (ids : option (list Z)) (x : Z) :
  (truthy_list ids = true /\ x ∈ default [] ids)
  <-> exists l, ids = Some l /\ x ∈ l.
Proof.
  destruct ids as [[|y l]|]; simpl.
  - split; [intros [? _]; done | intros (l & [= <-] & H)].
    by apply elem_of_nil in H.
  - split; [intros [_ H]; by eexists | intros (l' & [= <-] & H); done].
  - split; [intros [? _]; done | intros (l & ? & _); done].
Qed.

(** X13. Creating a key with a string no stored key has appends one row:
    active, owned by the caller, never used, never updated, created at the
    database's clock, with the requested expiry as the column hands it
    back, a fresh id, and as roles and permissions exactly the stored rows
    whose ids were listed (ids that match nothing are dropped without
    error, and an absent or empty list attaches nothing).  The owner can
    fetch it by its id at once.  Its string validates from then on when no
    expiry was requested, and for a stored expiry that is naive exactly
    until that instant has passed; for a stored expiry that is
    timezone-aware every validation raises [TypeError]. *)
Theorem created_key_works (generated : string) (owner : Z)
    (api_key_data : APIKeyCreate) (db : DB) (now t : Z) :
  CRUD.get_by_key db generated = None ->
  exists k db',
    APIKeyService_create_api_key generated owner api_key_data now db
    = (Ok k, db')
    /\ tbl_api_keys db' = tbl_api_keys db ++ [k]
    /\ (forall r, r ∈ tbl_api_keys db -> key_id r < key_id k)
    /\ key_user_id k = Some owner
    /\ key_key k = generated
    /\ key_is_active k = true
    /\ key_last_used_at k = None
    /\ key_created_at k = CRUD.db_now db now
    /\ key_updated_at k = None
    /\ key_expires_at k = CRUD.stored db <$> akc_expires_at api_key_data
    /\ (forall r, r ∈ key_roles k <->
          r ∈ tbl_roles db
          /\ exists ids, akc_role_ids api_key_data = Some ids
                         /\ role_id r ∈ ids)
    /\ (forall p, p ∈ key_permissions k <->
          p ∈ tbl_permissions db
          /\ exists ids, akc_permission_ids api_key_data = Some ids
                         /\ perm_id p ∈ ids)
    /\ APIKeyService_get_api_key (key_id k) owner db' = (Ok k, db')
    /\ CRUD.get_by_key db' generated = Some k
    /\ (akc_expires_at api_key_data = None ->
        exists k2 db2,
          APIKeyService_validate_api_key generated t db'
          = (Ok (Some k2), db2))
    /\ (forall e,
          akc_expires_at api_key_data = Some e ->
          dt_aware (CRUD.stored db e) = false ->
          (exists k2 db2,
             APIKeyService_validate_api_key generated t db'
             = (Ok (Some k2), db2))
          <-> t <= dt_instant (CRUD.stored db e))
    /\ (forall e,
          akc_expires_at api_key_data = Some e ->
          dt_aware (CRUD.stored db e) = true ->
          APIKeyService_validate_api_key generated t db'
          = (Raise Exc_TypeError, db')).
Proof.
  intros Hfresh.
  unfold APIKeyService_create_api_key, create_with_roles_permissions.
  unfold_monad.
  set (k := {| key_id := CRUD.next_id (map key_id (tbl_api_keys db));
               key_user_id := Some owner; key_key := generated |}).
  set (db' := {| tbl_users := tbl_users db;
                 tbl_api_keys := tbl_api_keys db ++ [k] |}).
  exists k, db'.
  assert (Hlt : forall r, r ∈ tbl_api_keys db -> key_id r < key_id k).
  { intros r Hr. apply next_id_fresh, list_elem_of_fmap. by exists r. }
  assert (Hbykey : CRUD.get_by_key db' generated = Some k).
  { unfold CRUD.get_by_key in *. simpl. rewrite find_snoc, Hfresh. simpl.
    by rewrite bool_decide_eq_true_2. }
  assert (Hget : CRUD.get db' (key_id k) = Some k).
  { unfold CRUD.get. simpl. rewrite find_snoc.
    destruct (List.find _ (tbl_api_keys db)) as [r|] eqn:Hr.
    - apply find_Some_elem in Hr as [Hin Hid].
      apply bool_decide_eq_true in Hid. specialize (Hlt r Hin).
      simpl in Hid, Hlt. lia.
    - by rewrite bool_decide_eq_true_2. }
  split; [done |]. split; [done |]. split; [exact Hlt |].
  split; [done |]. split; [done |]. split; [done |]. split; [done |].
  split; [done |]. split; [done |]. split; [done |]. split.
  { intros r. simpl. rewrite <- truthy_list_ids.
    destruct (truthy_list (akc_role_ids api_key_data)).
    - rewrite list_elem_of_In, filter_In, <- list_elem_of_In.
      rewrite bool_decide_eq_true. tauto.
    - split; [by intros ?%elem_of_nil | by intros [_ [? _]]]. }
  split.
  { intros p. simpl. rewrite <- truthy_list_ids.
    destruct (truthy_list (akc_permission_ids api_key_data)).
    - rewrite list_elem_of_In, filter_In, <- list_elem_of_In.
      rewrite bool_decide_eq_true. tauto.
    - split; [by intros ?%elem_of_nil | by intros [_ [? _]]]. }
  split.
  { unfold APIKeyService_get_api_key. unfold_monad. rewrite Hget.
    by rewrite bool_decide_eq_false_2 by (intros H; by apply H). }
  split; [exact Hbykey |].
  rewrite validate_api_key_unfold, Hbykey, is_valid_cases.
  change (key_is_active k) with true.
  change (key_expires_at k)
    with (CRUD.stored db <$> akc_expires_at api_key_data).
  split; [| split].
  - intros ->. cbn. by eexists _, _.
  - intros e -> Ha. cbn [fmap option_fmap option_map]. rewrite Ha.
    destruct (Z.ltb_spec (dt_instant (CRUD.stored db e)) t); cbn [negb].
    + split; [by intros (? & ? & ?) | lia].
    + split; [done | intros _; by eexists _, _].
  - intros e -> Ha. cbn [fmap option_fmap option_map]. by rewrite Ha.
Qed.

(** ** Checks on issued tokens *)

Section IssuedTokens.

Variable sign : string -> string -> claims -> string.
Variable int_of_str : string -> option Z.
Variable settings : Settings.

Lemma verify_token_payload_spec (payload : claims) (keys : list string) :
  verify_token_payload payload keys = true
  <-> forall key, key ∈ keys -> is_Some (payload !! key).
Proof.
  unfold verify_token_payload. rewrite forallb_forall.
  setoid_rewrite <- list_elem_of_In.
  by setoid_rewrite bool_decide_eq_true.
Qed.

(** X14. The claims of every token [create_access_token] issues hold
    [exp] and [iat] besides the keys of the data, so
    [verify_token_payload] accepts a list of required keys for them
    exactly when each key is [exp], [iat] or a key of the data; for a
    token of [create_user_token] it accepts [sub], [email], [roles],
    [permissions], [exp] and [iat].  Neither function fails otherwise
    than with the [OverflowError] of the date arithmetic. *)
Theorem issued_claims_have_required_keys (data : claims)
    (expires_delta : option Z) (now : Z) (keys : list string) (u : User) :
  match create_access_token sign settings data expires_delta now with
  | Ok tok =>
      verify_token_payload (claims_of tok) keys = true
      <-> forall key, key ∈ keys ->
                      key = "exp" \/ key = "iat" \/ is_Some (data !! key)
  | Raise e => e = Exc_OverflowError
  end
  /\ match AuthService_create_user_token sign settings u now with
     | Ok tok =>
         verify_token_payload (claims_of tok)
           ["sub"; "email"; "roles"; "permissions"; "exp"; "iat"] = true
     | Raise e => e = Exc_OverflowError
     end.
Proof.
  split.
  - destruct (create_access_token_cases sign settings data expires_delta now)
      as [[expire ->] | ->]; [| done].
    rewrite verify_token_payload_spec.
    unfold jwt_encode. cbn [claims_of].
    split; intros H key Hkey; specialize (H key Hkey).
    + destruct (decide (key = "iat")) as [-> | Hiat]; [by right; left |].
      destruct (decide (key = "exp")) as [-> | Hexp]; [by left |].
      right. right. by rewrite !lookup_insert_ne in H.
    + destruct (decide (key = "iat")) as [-> | Hiat].
      { rewrite lookup_insert_eq. by eexists. }
      rewrite lookup_insert_ne by done.
      destruct (decide (key = "exp")) as [-> | Hexp].
      { rewrite lookup_insert_eq. by eexists. }
      rewrite lookup_insert_ne by done. by destruct H as [? | [? | ?]].
  - pose proof (user_token_claims sign settings u now) as H.
    destruct (AuthService_create_user_token sign settings u now) as [tok | e];
      [| done].
    destruct H as (_ & Hsub & Hemail & Hroles & Hperms & (expire & Hexp)
                   & Hiat & _).
    apply verify_token_payload_spec. intros key Hkey.
    repeat (apply elem_of_cons in Hkey as [-> | Hkey]; [by eexists |]).
    by apply elem_of_nil in Hkey.
Qed.

(** No key is presented: nothing has to be compared. *)
Lemma no_key_comparable (db : DB) : expiry_comparable None db.
Proof. by intros k d ?. Qed.

(** Both checks when no key is presented and the token, if any, is
    refused with a [JWTError]: they run on empty grants. *)
Lemma checks_on_nothing (credentials : option token) (now : Z) (db : DB)
    (required_permissions required_roles : list string) :
  (credentials = None
   \/ exists tok e, credentials = Some tok
        /\ decode_access_token sign int_of_str settings tok now
           = Raise (Exc_JWT e)) ->
  permission_checker sign int_of_str settings required_permissions
    credentials None now db
  = (match required_permissions with
     | [] => Ok true
     | _ => Raise (Exc_HTTP
                     {| status_code := 403;
                        detail := Format "Missing required permissions: "
                                         required_permissions;
                        headers := [] |})
     end, db)
  /\ role_checker sign int_of_str settings required_roles
       credentials None now db
     = (Raise (Exc_HTTP
                 {| status_code := 403;
                    detail := Format "Missing required roles: "
                                     required_roles;
                    headers := [] |}), db).
Proof.
  intros Hcred.
  assert (Hread : forall field,
            token_readable sign int_of_str settings credentials now field
            = true).
  { intros field. destruct Hcred as [-> | (tok & e & -> & He)]; [done |].
    unfold token_readable. by rewrite He. }
  assert (Hempty : forall field,
            token_embedded sign int_of_str settings credentials now field
            = ∅).
  { intros field. destruct Hcred as [-> | (tok & e & -> & He)]; [done |].
    unfold token_embedded. by rewrite He. }
  assert (Hp : effective (key_derived_permissions None now db)
                 (token_embedded sign int_of_str settings credentials now
                    "permissions") = ∅).
  { unfold effective, key_derived_permissions. cbn [truthy_str].
    rewrite decide_True by done. apply Hempty. }
  assert (Hr : effective (key_derived_roles None now db)
                 (token_embedded sign int_of_str settings credentials now
                    "roles") = ∅).
  { unfold effective, key_derived_roles. cbn [truthy_str].
    rewrite decide_True by done. apply Hempty. }
  split.
  - rewrite permission_checker_spec;
      [| apply no_key_comparable | intros _; apply Hread].
    cbv zeta. rewrite Hp.
    change (after_key_validation None now db) with db.
    destruct required_permissions as [|p l].
    + by rewrite decide_True.
    + rewrite decide_False; [done |]. intros H.
      apply Forall_cons in H as [H _]. by apply not_elem_of_empty in H.
  - rewrite role_checker_spec;
      [| apply no_key_comparable | intros _; apply Hread].
    cbv zeta. rewrite Hr.
    change (after_key_validation None now db) with db.
    rewrite decide_False; [done |]. intros H.
    apply Exists_exists in H as (x & _ & H). by apply not_elem_of_empty in H.
Qed.

(** X15. The token [create_user_token] issues grants nothing: since the
    library refuses it, the checks run on a token of a user, with no API
    key, answer as if no token had come.  The permission check passes an
    empty requirement list and answers 403 to any other, whatever
    permissions the user holds; the role check answers 403 to every list,
    whatever roles the user holds. *)
Theorem user_token_grants_nothing (u : User) (now t : Z) (db : DB)
    (required_permissions required_roles : list string) :
  match AuthService_create_user_token sign settings u now with
  | Ok tok =>
      permission_checker sign int_of_str settings required_permissions
        (Some tok) None t db
      = (match required_permissions with
         | [] => Ok true
         | _ => Raise (Exc_HTTP
                         {| status_code := 403;
                            detail := Format "Missing required permissions: "
                                             required_permissions;
                            headers := [] |})
         end, db)
      /\ role_checker sign int_of_str settings required_roles
           (Some tok) None t db
         = (Raise (Exc_HTTP
                     {| status_code := 403;
                        detail := Format "Missing required roles: "
                                         required_roles;
                        headers := [] |}), db)
  | Raise e => e = Exc_OverflowError
  end.
Proof.
  pose proof (user_token_claims sign settings u now) as H.
  destruct (AuthService_create_user_token sign settings u now) as [tok | e];
    [| done].
  destruct H as (Henc & Hsub & _ & _ & _ & (expire & Hexp) & Hiat & Hnbf & Haud).
  apply checks_on_nothing. right.
  exists tok, (if expire <? t / second then ExpiredSignatureError
               else JWTClaimsError).
  split; [done |].
  rewrite Henc at 1. rewrite decode_issued.
  unfold validate_claims, validate_iat, validate_nbf, validate_exp,
    validate_aud, validate_sub.
  rewrite Hiat, Hnbf, Hexp, Haud, Hsub. cbn.
  by destruct (expire <? t / second).
Qed.

(** X16. With no usable credential (no key and no token, or a token the
    library refuses with a [JWTError]) both checks run on empty grants:
    the permission check passes an empty requirement list and answers
    403, never 401, to any other; the role check answers 403 to every
    list, the empty one included.  A token for which the library raises
    [TypeError] is not answered at all: the exception escapes both
    checks. *)
Theorem checks_without_credentials (credentials : option token) (now : Z)
    (db : DB) (required_permissions required_roles : list string) :
  ((credentials = None
    \/ exists tok e, credentials = Some tok
         /\ decode_access_token sign int_of_str settings tok now
            = Raise (Exc_JWT e)) ->
   permission_checker sign int_of_str settings required_permissions
     credentials None now db
   = (match required_permissions with
      | [] => Ok true
      | _ => Raise (Exc_HTTP
                      {| status_code := 403;
                         detail := Format "Missing required permissions: "
                                          required_permissions;
                         headers := [] |})
      end, db)
   /\ role_checker sign int_of_str settings required_roles
        credentials None now db
      = (Raise (Exc_HTTP
                  {| status_code := 403;
                     detail := Format "Missing required roles: "
                                      required_roles;
                     headers := [] |}), db))
  /\ (forall tok,
        credentials = Some tok ->
        decode_access_token sign int_of_str settings tok now
        = Raise Exc_TypeError ->
        permission_checker sign int_of_str settings required_permissions
          credentials None now db = (Raise Exc_TypeError, db)
        /\ role_checker sign int_of_str settings required_roles
             credentials None now db = (Raise Exc_TypeError, db)).
Proof.
  split; [apply checks_on_nothing |].
  intros tok -> He. unfold permission_checker, role_checker. unfold_monad.
  cbn [truthy_str]. rewrite !bool_decide_eq_true_2 by done.
  by rewrite He.
Qed.

End IssuedTokens.

(** ** The further properties at the sample stores *)

Lemma sample_key_ids_unique :
  NoDup (map key_id (tbl_api_keys Sample.db0)).
Proof. apply (bool_decide_unpack _). by vm_compute. Qed.

(** [user_token_is_refused]: the token issued for the active
    administrator is answered with 401 one second later. *)
Lemma user_token_is_refused_witness :
  exists tok,
    AuthService_create_user_token Sample.sign default_settings Sample.alice
      Sample.start = Ok tok
    /\ get_current_user_jwt_required Sample.sign Sample.decimal
         default_settings (Some tok) (Sample.after 1) Sample.db0
       = (Raise (Exc_HTTP
                   {| status_code := 401;
                      detail := Text "Could not validate credentials";
                      headers := [("WWW-Authenticate", "Bearer")] |}),
          Sample.db0).
Proof.
  pose proof (user_token_is_refused Sample.sign Sample.decimal
                default_settings Sample.alice Sample.start (Sample.after 1)
                Sample.db0) as H.
  destruct (AuthService_create_user_token Sample.sign default_settings
              Sample.alice Sample.start) as [tok | e] eqn:E.
  - exists tok. split; [done |]. by destruct H as (_ & _ & H & _).
  - exfalso. vm_compute in E. discriminate E.
Defined.

(** [token_path_sound] for a token that names the administrator of the
    sample store. *)
Lemma token_path_sound_witness :
  Sample.alice ∈ tbl_users Sample.db0
  /\ user_is_active Sample.alice = true.
Proof.
  destruct (token_path_sound Sample.sign Sample.decimal default_settings
              (Some (Sample.signed (<["sub" := JStr "1"]> ∅)))
              (Sample.after 1) Sample.db0 Sample.db0 Sample.alice)
    as (_ & Hin & Hact & _); [evaluate |].
  by split.
Defined.

(** [string_subject_authenticates]: a token made for the subject "1"
    resolves to the administrator until it expires. *)
Lemma string_subject_authenticates_witness :
  exists tok,
    create_access_token Sample.sign default_settings
      (<["sub" := JStr "1"]> ∅) None Sample.start = Ok tok
    /\ get_current_user_jwt_required Sample.sign Sample.decimal
         default_settings (Some tok) (Sample.after 1799) Sample.db0
       = (Ok Sample.alice, Sample.db0).
Proof.
  destruct (string_subject_authenticates Sample.sign Sample.decimal
              default_settings (<["sub" := JStr "1"]> ∅) None "1"
              Sample.alice Sample.start (Sample.after 1799) Sample.db0)
    as (tok & Hmake & _ & H & _);
    [by vm_compute | by vm_compute | evaluate | evaluate | evaluate
    | evaluate | evaluate | by vm_compute |].
  by exists tok.
Defined.

(** [key_path_authenticates_iff]: the administrator's key. *)
Lemma key_path_authenticates_iff_witness :
  get_current_user_from_apikey (Some "key-alice") (Sample.after 50)
    Sample.db0
  = (Ok (Some Sample.alice),
     (CRUD.update_last_used Sample.alice_key (Sample.after 50) Sample.db0).2).
Proof.
  apply key_path_authenticates_iff.
  exists "key-alice", Sample.alice_key, 1.
  repeat split; try done. by left.
Defined.

(** [key_path_stamps_unowned_key] for the key left without an owner. *)
Lemma key_path_stamps_unowned_key_witness :
  get_current_user_from_apikey (Some "key-orphan") (Sample.after 70)
    MoreSamples.db1
  = (Ok None,
     (CRUD.update_last_used MoreSamples.orphan_key (Sample.after 70)
        MoreSamples.db1).2).
Proof.
  destruct (key_path_stamps_unowned_key "key-orphan" (Sample.after 70)
              MoreSamples.db1 MoreSamples.orphan_key) as [H _];
    [discriminate | evaluate | evaluate | by left |].
  exact H.
Defined.

(** [toggle_switches_validation]: the administrator deactivates her key;
    it stops validating, and activating it again restores the row but for
    [updated_at]. *)
Lemma toggle_switches_validation_witness :
  exists k' db',
    APIKeyService_toggle_api_key 1 1 false (Sample.after 10) Sample.db0
    = (Ok k', db')
    /\ key_is_active k' = false
    /\ key_updated_at k' = Some (mkDatetime (Sample.after 10) true)
    /\ APIKeyService_validate_api_key "key-alice" (Sample.after 50) db'
       = (Ok None, db')
    /\ exists k2 db2,
         APIKeyService_toggle_api_key 1 1 true (Sample.after 60) db'
         = (Ok k2, db2)
         /\ CRUD.with_updated_at k2 None = Sample.alice_key.
Proof.
  destruct (toggle_switches_validation Sample.db0 1 1 Sample.alice_key false
              (Sample.after 10) sample_key_ids_unique eq_refl eq_refl eq_refl)
    as (k' & db' & Hrun & Hflag & _ & Hnew & _ & _ & _ & _ & _ & _ & _ & _ & _
        & Hoff & _ & _ & Hback).
  exists k', db'. split; [exact Hrun |]. split; [exact Hflag |].
  split; [by destruct (Hnew ltac:(done)) as [-> _] |].
  split; [exact (Hoff eq_refl (Sample.after 50)) |].
  exact (Hback (Sample.after 60)).
Defined.

(** [delete_removes_key]: the administrator deletes her key. *)
Lemma delete_removes_key_witness :
  exists db',
    APIKeyService_delete_api_key 1 1 Sample.db0 = (Ok tt, db')
    /\ tbl_api_keys db' = [Sample.bob_key]
    /\ APIKeyService_validate_api_key "key-alice" (Sample.after 50) db'
       = (Ok None, db').
Proof.
  destruct (delete_removes_key Sample.db0 1 1 Sample.alice_key eq_refl eq_refl)
    as (db' & Hrun & _ & _ & Hrows & _ & _ & _ & _ & _ & Hval).
  exists db'. split; [exact Hrun |]. split; [exact Hrows |].
  apply (Hval ltac:(apply (bool_decide_unpack _); by vm_compute)
              (Sample.after 50)).
Defined.

(** [listed_keys_are_gettable] for the administrator's key. *)
Lemma listed_keys_are_gettable_witness :
  APIKeyService_get_api_key 1 1 Sample.db0 = (Ok Sample.alice_key, Sample.db0).
Proof.
  apply (listed_keys_are_gettable Sample.db0 1 Sample.alice_key
           sample_key_ids_unique).
  eexists. split; [reflexivity |]. by left.
Defined.

(** [validation_repeats]: the administrator's key, used 50 and then 60
    seconds after the start. *)
Lemma validation_repeats_witness :
  exists k' db' k'' db'',
    APIKeyService_validate_api_key "key-alice" (Sample.after 50) Sample.db0
    = (Ok (Some k'), db')
    /\ APIKeyService_validate_api_key "key-alice" (Sample.after 60) db'
       = (Ok (Some k''), db'')
    /\ key_last_used_at k'' = Some (mkDatetime (Sample.after 60) true).
Proof.
  set (k' := used_at Sample.db0 Sample.alice_key (Sample.after 50)).
  set (db' := CRUD.save_api_key k' Sample.db0).
  destruct (validation_repeats Sample.db0 db' "key-alice" (Sample.after 50) k'
              sample_key_ids_unique ltac:(evaluate)) as (_ & _ & _ & Hnext).
  destruct (Hnext (Sample.after 60) ltac:(evaluate))
    as (k'' & db'' & Hrun & _ & Hlast & _).
  exists k', db', k'', db''. split; [evaluate |]. split; [exact Hrun |].
  destruct Hlast as [Hlast | Hlast]; [exact Hlast |].
  exfalso. rewrite validate_api_key_unfold in Hrun.
  vm_compute in Hrun. injection Hrun as <- _. discriminate Hlast.
Defined.

(** [add_and_remove_role]: the deactivated user, who holds the role
    [user], is given the role [admin]; the roles come back in the order of
    the role table. *)
Lemma add_and_remove_role_witness :
  user_roles (add_role Sample.bob Sample.admin_role Sample.db0).1
  = [Sample.admin_role; Sample.user_role]
  /\ User_permissions (add_role Sample.bob Sample.admin_role Sample.db0).1
     = User_permissions Sample.bob
       ∪ list_to_set (role_permissions Sample.admin_role)
  /\ remove_role Sample.bob Sample.admin_role Sample.db0
     = (Sample.bob, Sample.db0).
Proof.
  assert (Hnd : NoDup (map role_id (tbl_roles Sample.db0))).
  { apply (bool_decide_unpack _). by vm_compute. }
  assert (Hr : Sample.admin_role ∈ tbl_roles Sample.db0) by left.
  assert (Hstored : forall x, x ∈ user_roles Sample.bob ->
                              x ∈ tbl_roles Sample.db0).
  { intros x ->%list_elem_of_singleton. right. left. }
  pose proof (add_and_remove_role Sample.bob Sample.admin_role Sample.db0
                Hnd Hr Hstored) as H.
  destruct (add_role Sample.bob Sample.admin_role Sample.db0) as [u1 db1] eqn:E1.
  destruct (remove_role Sample.bob Sample.admin_role Sample.db0)
    as [u2 db2] eqn:E2.
  destruct H as (_ & Hperms & _ & _ & _ & Hnoop & _).
  split; [| split].
  - injection E1 as <- _. evaluate.
  - exact Hperms.
  - destruct Hnoop as [-> ->]; [| done].
    intros Hheld%list_elem_of_singleton. discriminate Hheld.
Defined.

(** [created_key_works]: the administrator creates a key that lists the
    role 1 and an id, 9, that no role has, and that expires in 2030; the
    key is stored, and on PostgreSQL its string never validates. *)
Lemma created_key_works_witness :
  exists k db',
    APIKeyService_create_api_key "key-new" 1 MoreSamples.new_key_request
      (Sample.after 5) Sample.db0 = (Ok k, db')
    /\ key_roles k = [Sample.admin_role]
    /\ CRUD.get_by_key db' "key-new" = Some k
    /\ APIKeyService_validate_api_key "key-new" (Sample.after 100) db'
       = (Raise Exc_TypeError, db').
Proof.
  destruct (created_key_works "key-new" 1 MoreSamples.new_key_request
              Sample.db0 (Sample.after 5) (Sample.after 100) eq_refl)
    as (k & db' & Hrun & _ & _ & _ & _ & _ & _ & _ & _ & _ & _ & _ & _
        & Hfound & _ & _ & Hraise).
  exists k, db'. split; [exact Hrun |]. split; [| split; [exact Hfound |]].
  - by injection Hrun as <- _.
  - by apply (Hraise (mkDatetime MoreSamples.year_2030 true)).
Defined.

(** [user_token_grants_nothing]: the administrator's own token does not
    pass a check for a permission she holds. *)
Lemma user_token_grants_nothing_witness :
  exists tok,
    AuthService_create_user_token Sample.sign default_settings Sample.alice
      Sample.start = Ok tok
    /\ permission_checker Sample.sign Sample.decimal default_settings
         ["users:read"] (Some tok) None (Sample.after 1) Sample.db0
       = (Raise (Exc_HTTP
                   {| status_code := 403;
                      detail := Format "Missing required permissions: "
                                       ["users:read"];
                      headers := [] |}), Sample.db0).
Proof.
  pose proof (user_token_grants_nothing Sample.sign Sample.decimal
                default_settings Sample.alice Sample.start (Sample.after 1)
                Sample.db0 ["users:read"] []) as H.
  destruct (AuthService_create_user_token Sample.sign default_settings
              Sample.alice Sample.start) as [tok | e] eqn:E.
  - exists tok. split; [done |]. by destruct H as [H _].
  - exfalso. vm_compute in E. discriminate E.
Defined.

(** [checks_without_credentials] for a string that is no token, and for a
    signed token whose [exp] is [null]. *)
Lemma checks_without_credentials_witness :
  permission_checker Sample.sign Sample.decimal default_settings
    ["users:read"] (Some (Garbage "not-a-token")) None Sample.start Sample.db0
  = (Raise (Exc_HTTP
              {| status_code := 403;
                 detail := Format "Missing required permissions: "
                                  ["users:read"];
                 headers := [] |}), Sample.db0)
  /\ permission_checker Sample.sign Sample.decimal default_settings
       ["users:read"]
       (Some (Sample.signed (<["exp" := JNull]> (<["sub" := JStr "1"]> ∅))))
       None Sample.start Sample.db0
     = (Raise Exc_TypeError, Sample.db0).
Proof.
  split.
  - destruct (checks_without_credentials Sample.sign Sample.decimal
                default_settings (Some (Garbage "not-a-token")) Sample.start
                Sample.db0 ["users:read"] []) as [H _].
    destruct H as [H _]; [| exact H]. right. by eexists _, _.
  - destruct (checks_without_credentials Sample.sign Sample.decimal
                default_settings
                (Some (Sample.signed
                         (<["exp" := JNull]> (<["sub" := JStr "1"]> ∅))))
                Sample.start Sample.db0 ["users:read"] []) as [_ H].
    destruct (H _ eq_refl) as [Hp _]; [evaluate | exact Hp].
Defined.
